(** * The Grain VS Code extension: language-client bookkeeping

    A shallow embedding of [editor-extensions/vscode/src/extension.ts]:
    the two client registries, the re-entrancy guard of the
    configuration-change handlers, binary discovery and the resolution of
    nested workspace folders.

    The extension runs on the host's event loop.  An [async] function is
    embedded as a resumption ([Task]): a tree whose nodes read or update
    the module-level variables ([Get], [Act]) and suspend at every
    [await] ([Await]).  Two semantics are given: [run] drives one task to
    completion against an oracle for the answers of the client library,
    and [exec] interleaves the pending tasks of the whole extension the
    way the event loop may. *)

From stdpp Require Import base list strings gmap sorting.
From Stdlib Require Import Ascii.

(** ** JavaScript strings

    URIs printed by [Uri.toString()] are percent-encoded ASCII, so a
    string is a [string] of the Standard Library and [length] counts its
    characters. *)

Module Js.

(** [s.startsWith(p)] *)
Definition startsWith (s p : string) : bool := String.prefix p s.

(** [s.endsWith(suf)] *)
Definition endsWith (s suf : string) : bool :=
  let n := String.length s in
  let m := String.length suf in
  if decide (m ≤ n)
  then bool_decide (String.substring (n - m) m s = suf)
  else false.

(** [s.replace(/\.EXE$/, ".exe")]: without the [m] flag, [$] matches at
    the end of the input only. *)
Definition replace_EXE_suffix (s : string) : string :=
  if endsWith s ".EXE"
  then String.substring 0 (String.length s - 4) s +:+ ".exe"
  else s.

(** [s.replaceAll("\\", "/")] *)
Fixpoint replaceAll_backslash (s : string) : string :=
  match s with
  | EmptyString => EmptyString
  | String c s' =>
      String (if bool_decide (c = "\"%char) then "/"%char else c)
             (replaceAll_backslash s')
  end.

(** [s.split(" ")]: the empty string splits into one empty piece. *)
Fixpoint split_space (s : string) : list string :=
  match s with
  | EmptyString => [EmptyString]
  | String c s' =>
      if bool_decide (c = " "%char) then EmptyString :: split_space s'
      else match split_space s' with
           | [] => [String c EmptyString]
           | w :: ws => String c w :: ws
           end
  end.

(** [l.join(" ")] *)
Definition join_space (l : list string) : string := String.concat " " l.

(** [a || b] on an optional string: [undefined] and [""] are falsy. *)
Definition or_else (a : option string) (b : string) : string :=
  match a with
  | Some (String c r) => String c r
  | _ => b
  end.

End Js.

(** ** The built-in [Map]

    The entries of an ECMAScript [Map] form a list in insertion order.
    [delete] empties an entry without removing its slot, [set] on a
    present key overwrites the value in place and [set] on an absent key
    appends, so that an iterator, which is an index into that list, is
    live. *)

Abbreviation JsMap V := (list (option (string * V))).

Section JsMap.
Context {V : Type}.

(** The entry [e] is in use and holds the key [k]. *)
Definition holds (k : string) (e : option (string * V)) : Prop := fst <$> e = Some k.

#[global] Instance holds_dec k e : Decision (holds k e).
Proof. unfold holds. apply _. Defined.

(** The first entry for [k], with its index. *)
Definition Map_find (k : string) (m : JsMap V) : option (nat * option (string * V)) :=
  list_find (holds k) m.

Definition Map_get (k : string) (m : JsMap V) : option V :=
  Map_find k m ≫= λ '(_, e), snd <$> e.

Definition Map_has (k : string) (m : JsMap V) : bool :=
  bool_decide (is_Some (Map_find k m)).

Definition Map_set (k : string) (v : V) (m : JsMap V) : JsMap V :=
  match Map_find k m with
  | Some (i, _) => <[i := Some (k, v)]> m
  | None => m ++ [Some (k, v)]
  end.

Definition Map_delete (k : string) (m : JsMap V) : JsMap V :=
  match Map_find k m with
  | Some (i, _) => <[i := None]> m
  | None => m
  end.

(** The values an iterator started on [m] visits when [m] does not
    change meanwhile. *)
Definition Map_values (m : JsMap V) : list V := snd <$> omap id m.

(** No key occurs in two entries: an invariant of every [Map]. *)
Definition Map_wf (m : JsMap V) : Prop :=
  ∀ i j k v w, m !! i = Some (Some (k, v)) → m !! j = Some (Some (k, w)) → i = j.

End JsMap.

(** ** Host objects *)

Record Uri := {
  scheme : string;
  fsPath : string;
  Uri_toString : string;
}.

Record WorkspaceFolder := {
  folder_uri : Uri;
  folder_name : string;
  folder_index : nat;
}.

Record TextDocument := {
  document_languageId : string;
  document_uri : Uri;
}.

#[global] Instance Uri_eq_dec : EqDecision Uri.
Proof. solve_decision. Defined.
#[global] Instance WorkspaceFolder_eq_dec : EqDecision WorkspaceFolder.
Proof. solve_decision. Defined.
#[global] Instance TextDocument_eq_dec : EqDecision TextDocument.
Proof. solve_decision. Defined.

(** What [workspace.getConfiguration("grain", uri).get(_)] answers for the
    three settings the extension reads; [None] is [undefined]. *)
Record GrainConfiguration := {
  enableLSP : option bool;
  cliPath : option string;
  cliFlags : option string;
}.

(** [e.affectsConfiguration(section, scope)] *)
Record ConfigurationChangeEvent := {
  affectsConfiguration : string → Uri → bool;
}.

Record WorkspaceFoldersChangeEvent := {
  added : list WorkspaceFolder;
  removed : list WorkspaceFolder;
}.

(** The part of the host the extension queries.  It is a component of the
    state because it changes between two turns of the event loop. *)
Record Host := {
  workspace_workspaceFolders : option (list WorkspaceFolder);
  workspace_getWorkspaceFolder : Uri → option WorkspaceFolder;
  workspace_getConfiguration : Uri → GrainConfiguration;
  workspace_textDocuments : list TextDocument;
  Uri_parse : string → Uri;
  which_sync : string → option string;
}.

(** Objects are references into stores kept in the state. *)
Definition ClientId := nat.
Definition StatusItemRef := nat.

Record Command := {
  command_title : string;
  command_command : string;
}.

Record LanguageStatusItem := {
  item_id : string;
  item_language : string;
  item_busy : bool;
  item_name : string;
  item_text : string;
  item_command : option Command;
}.

(** The arguments of [new GrainErrorHandler(name, item, maxRestartCount)];
    the class itself lives in another module of the extension. *)
Record GrainErrorHandler := {
  handler_name : string;
  handler_item : StatusItemRef;
  handler_maxRestartCount : nat;
}.

Record DocumentFilter := {
  filter_scheme : string;
  filter_language : string;
  filter_pattern : string;
}.

(** [outputChannel] is the one channel of the module in the options of
    every client, and is left out. *)
Record LanguageClientOptions := {
  documentSelector : list DocumentFilter;
  workspaceFolder : option WorkspaceFolder;
  errorHandler : option GrainErrorHandler;
}.

Record ServerOptions := {
  command : string;
  args : list string;
}.

(** The arguments of [new LanguageClient(id, name, serverOptions,
    clientOptions)]. *)
Record LanguageClient := {
  client_id : string;
  client_name : string;
  serverOptions : ServerOptions;
  clientOptions : LanguageClientOptions;
}.

Inductive JsError :=
| TypeError (msg : string)
| Error (msg : string)
| ClientError (reason : string).

(** The calls into the client library that return a promise, and [Tick]
    for a promise of the extension's own: awaiting it suspends the task
    until the next microtask. *)
Inductive ExtCall :=
| Tick
| client_start (c : ClientId)
| client_stop (c : ClientId)
| client_restart (c : ClientId).

Inductive Settled :=
| Fulfilled
| Rejected (e : JsError).

Inductive Event :=
| EvCall (c : ExtCall)
| EvSettled (c : ExtCall) (r : Settled)
| EvInfo (c : ClientId) (msg : string)
| EvRegisterCompletion (c : ClientId)
| EvShowOutput.

#[global] Instance JsError_eq_dec : EqDecision JsError.
Proof. solve_decision. Defined.
#[global] Instance ExtCall_eq_dec : EqDecision ExtCall.
Proof. solve_decision. Defined.
#[global] Instance Settled_eq_dec : EqDecision Settled.
Proof. solve_decision. Defined.
#[global] Instance Event_eq_dec : EqDecision Event.
Proof. solve_decision. Defined.

(** A configuration-change handler registered by [didOpenTextDocument]:
    the closure captures the folder or the URI. *)
Inductive ConfigHandler :=
| WorkspaceHandler (folder : WorkspaceFolder)
| FileHandler (uri : Uri).

Inductive Disposable :=
| Disposable_from
| ListenerDisposable (name : string)
| CommandDisposable (name : string)
| StatusItemDisposable (r : StatusItemRef)
| ConfigHandlerDisposable (i : nat).

(** ** The state: module-level variables and the objects they refer to *)

Record State := {
  fileClients : JsMap ClientId;
  workspaceClients : JsMap ClientId;
  activeMutex : gset string;
  grainStatusBarItem : option StatusItemRef;
  grainRestartStatusItem : option StatusItemRef;
  workspaceFolders : list string;
  (* objects created by the extension *)
  clients : list LanguageClient;
  statusItems : list LanguageStatusItem;
  (* registrations with the host *)
  configListeners : list ConfigHandler;
  openListener : bool;
  foldersListener : bool;
  subscriptions : list Disposable;
  (* what the outside observes *)
  trace : list Event;
  uncaught : list JsError;
  host : Host;
}.

Definition set_fileClients (f : JsMap ClientId → JsMap ClientId) (s : State) : State :=
  {| fileClients := f (fileClients s); workspaceClients := workspaceClients s;
     activeMutex := activeMutex s; grainStatusBarItem := grainStatusBarItem s;
     grainRestartStatusItem := grainRestartStatusItem s;
     workspaceFolders := workspaceFolders s; clients := clients s;
     statusItems := statusItems s; configListeners := configListeners s;
     openListener := openListener s; foldersListener := foldersListener s;
     subscriptions := subscriptions s; trace := trace s;
     uncaught := uncaught s; host := host s |}.

Definition set_workspaceClients (f : JsMap ClientId → JsMap ClientId) (s : State) : State :=
  {| fileClients := fileClients s; workspaceClients := f (workspaceClients s);
     activeMutex := activeMutex s; grainStatusBarItem := grainStatusBarItem s;
     grainRestartStatusItem := grainRestartStatusItem s;
     workspaceFolders := workspaceFolders s; clients := clients s;
     statusItems := statusItems s; configListeners := configListeners s;
     openListener := openListener s; foldersListener := foldersListener s;
     subscriptions := subscriptions s; trace := trace s;
     uncaught := uncaught s; host := host s |}.

Definition set_activeMutex (f : gset string → gset string) (s : State) : State :=
  {| fileClients := fileClients s; workspaceClients := workspaceClients s;
     activeMutex := f (activeMutex s); grainStatusBarItem := grainStatusBarItem s;
     grainRestartStatusItem := grainRestartStatusItem s;
     workspaceFolders := workspaceFolders s; clients := clients s;
     statusItems := statusItems s; configListeners := configListeners s;
     openListener := openListener s; foldersListener := foldersListener s;
     subscriptions := subscriptions s; trace := trace s;
     uncaught := uncaught s; host := host s |}.

Definition set_grainStatusBarItem (r : option StatusItemRef) (s : State) : State :=
  {| fileClients := fileClients s; workspaceClients := workspaceClients s;
     activeMutex := activeMutex s; grainStatusBarItem := r;
     grainRestartStatusItem := grainRestartStatusItem s;
     workspaceFolders := workspaceFolders s; clients := clients s;
     statusItems := statusItems s; configListeners := configListeners s;
     openListener := openListener s; foldersListener := foldersListener s;
     subscriptions := subscriptions s; trace := trace s;
     uncaught := uncaught s; host := host s |}.

Definition set_grainRestartStatusItem (r : option StatusItemRef) (s : State) : State :=
  {| fileClients := fileClients s; workspaceClients := workspaceClients s;
     activeMutex := activeMutex s; grainStatusBarItem := grainStatusBarItem s;
     grainRestartStatusItem := r;
     workspaceFolders := workspaceFolders s; clients := clients s;
     statusItems := statusItems s; configListeners := configListeners s;
     openListener := openListener s; foldersListener := foldersListener s;
     subscriptions := subscriptions s; trace := trace s;
     uncaught := uncaught s; host := host s |}.

Definition set_workspaceFolders (l : list string) (s : State) : State :=
  {| fileClients := fileClients s; workspaceClients := workspaceClients s;
     activeMutex := activeMutex s; grainStatusBarItem := grainStatusBarItem s;
     grainRestartStatusItem := grainRestartStatusItem s;
     workspaceFolders := l; clients := clients s;
     statusItems := statusItems s; configListeners := configListeners s;
     openListener := openListener s; foldersListener := foldersListener s;
     subscriptions := subscriptions s; trace := trace s;
     uncaught := uncaught s; host := host s |}.

Definition set_clients (f : list LanguageClient → list LanguageClient) (s : State) : State :=
  {| fileClients := fileClients s; workspaceClients := workspaceClients s;
     activeMutex := activeMutex s; grainStatusBarItem := grainStatusBarItem s;
     grainRestartStatusItem := grainRestartStatusItem s;
     workspaceFolders := workspaceFolders s; clients := f (clients s);
     statusItems := statusItems s; configListeners := configListeners s;
     openListener := openListener s; foldersListener := foldersListener s;
     subscriptions := subscriptions s; trace := trace s;
     uncaught := uncaught s; host := host s |}.

Definition set_statusItems (f : list LanguageStatusItem → list LanguageStatusItem)
    (s : State) : State :=
  {| fileClients := fileClients s; workspaceClients := workspaceClients s;
     activeMutex := activeMutex s; grainStatusBarItem := grainStatusBarItem s;
     grainRestartStatusItem := grainRestartStatusItem s;
     workspaceFolders := workspaceFolders s; clients := clients s;
     statusItems := f (statusItems s); configListeners := configListeners s;
     openListener := openListener s; foldersListener := foldersListener s;
     subscriptions := subscriptions s; trace := trace s;
     uncaught := uncaught s; host := host s |}.

Definition set_configListeners (f : list ConfigHandler → list ConfigHandler)
    (s : State) : State :=
  {| fileClients := fileClients s; workspaceClients := workspaceClients s;
     activeMutex := activeMutex s; grainStatusBarItem := grainStatusBarItem s;
     grainRestartStatusItem := grainRestartStatusItem s;
     workspaceFolders := workspaceFolders s; clients := clients s;
     statusItems := statusItems s; configListeners := f (configListeners s);
     openListener := openListener s; foldersListener := foldersListener s;
     subscriptions := subscriptions s; trace := trace s;
     uncaught := uncaught s; host := host s |}.

Definition set_listeners (o f : bool) (s : State) : State :=
  {| fileClients := fileClients s; workspaceClients := workspaceClients s;
     activeMutex := activeMutex s; grainStatusBarItem := grainStatusBarItem s;
     grainRestartStatusItem := grainRestartStatusItem s;
     workspaceFolders := workspaceFolders s; clients := clients s;
     statusItems := statusItems s; configListeners := configListeners s;
     openListener := o; foldersListener := f;
     subscriptions := subscriptions s; trace := trace s;
     uncaught := uncaught s; host := host s |}.

Definition set_subscriptions (f : list Disposable → list Disposable) (s : State) : State :=
  {| fileClients := fileClients s; workspaceClients := workspaceClients s;
     activeMutex := activeMutex s; grainStatusBarItem := grainStatusBarItem s;
     grainRestartStatusItem := grainRestartStatusItem s;
     workspaceFolders := workspaceFolders s; clients := clients s;
     statusItems := statusItems s; configListeners := configListeners s;
     openListener := openListener s; foldersListener := foldersListener s;
     subscriptions := f (subscriptions s); trace := trace s;
     uncaught := uncaught s; host := host s |}.

Definition log (ev : Event) (s : State) : State :=
  {| fileClients := fileClients s; workspaceClients := workspaceClients s;
     activeMutex := activeMutex s; grainStatusBarItem := grainStatusBarItem s;
     grainRestartStatusItem := grainRestartStatusItem s;
     workspaceFolders := workspaceFolders s; clients := clients s;
     statusItems := statusItems s; configListeners := configListeners s;
     openListener := openListener s; foldersListener := foldersListener s;
     subscriptions := subscriptions s; trace := trace s ++ [ev];
     uncaught := uncaught s; host := host s |}.

Definition report (e : JsError) (s : State) : State :=
  {| fileClients := fileClients s; workspaceClients := workspaceClients s;
     activeMutex := activeMutex s; grainStatusBarItem := grainStatusBarItem s;
     grainRestartStatusItem := grainRestartStatusItem s;
     workspaceFolders := workspaceFolders s; clients := clients s;
     statusItems := statusItems s; configListeners := configListeners s;
     openListener := openListener s; foldersListener := foldersListener s;
     subscriptions := subscriptions s; trace := trace s;
     uncaught := uncaught s ++ [e]; host := host s |}.

Definition set_host (h : Host) (s : State) : State :=
  {| fileClients := fileClients s; workspaceClients := workspaceClients s;
     activeMutex := activeMutex s; grainStatusBarItem := grainStatusBarItem s;
     grainRestartStatusItem := grainRestartStatusItem s;
     workspaceFolders := workspaceFolders s; clients := clients s;
     statusItems := statusItems s; configListeners := configListeners s;
     openListener := openListener s; foldersListener := foldersListener s;
     subscriptions := subscriptions s; trace := trace s;
     uncaught := uncaught s; host := h |}.

(** The state when the module is loaded. *)
Definition initial (h : Host) : State :=
  {| fileClients := []; workspaceClients := []; activeMutex := ∅;
     grainStatusBarItem := None; grainRestartStatusItem := None;
     workspaceFolders := []; clients := []; statusItems := [];
     configListeners := []; openListener := false; foldersListener := false;
     subscriptions := []; trace := []; uncaught := []; host := h |}.

(** ** Tasks *)

Inductive Task (A : Type) : Type :=
| Ret (a : A)
| Throw (e : JsError)
| Diverge
| Get (k : State → Task A)
| Act (f : State → State) (k : Task A)
| Await (c : ExtCall) (k : Settled → Task A).

Arguments Ret {A} a.
Arguments Throw {A} e.
Arguments Diverge {A}.
Arguments Get {A} k.
Arguments Act {A} f k.
Arguments Await {A} c k.

Fixpoint bind {A B} (t : Task A) (f : A → Task B) : Task B :=
  match t with
  | Ret a => f a
  | Throw e => Throw e
  | Diverge => Diverge
  | Get k => Get (λ s, bind (k s) f)
  | Act g k => Act g (bind k f)
  | Await c k => Await c (λ r, bind (k r) f)
  end.

#[global] Instance Task_ret : MRet Task := λ A a, Ret a.
#[global] Instance Task_bind : MBind Task := λ A B f t, bind t f.

(** A synchronous update of the state. *)
Definition act (f : State → State) : Task unit := Act f (Ret tt).

(** [await p] for the promise of a call into the client library: a
    rejection is thrown at the [await]. *)
Definition await (c : ExtCall) : Task unit :=
  Await c (λ r, match r with Fulfilled => Ret tt | Rejected e => Throw e end).

(** [await f(...)] for an [async] function [f] of the extension: [f] runs
    up to its own first suspension, and the caller resumes one microtask
    after [f] has finished. *)
Definition await_async {A} (t : Task A) : Task A :=
  a ← t; Await Tick (λ _, Ret a).

(** [p.catch(h)] *)
Fixpoint promise_catch (t : Task unit) (h : JsError → Task unit) : Task unit :=
  match t with
  | Ret a => Await Tick (λ _, Ret a)
  | Throw e => Await Tick (λ _, h e)
  | Diverge => Diverge
  | Get k => Get (λ s, promise_catch (k s) h)
  | Act g k => Act g (promise_catch k h)
  | Await c k => Await c (λ r, promise_catch (k r) h)
  end.

(** [p.finally(g)] *)
Fixpoint promise_finally (t : Task unit) (g : Task unit) : Task unit :=
  match t with
  | Ret a => Await Tick (λ _, g ≫= λ _, Ret a)
  | Throw e => Await Tick (λ _, g ≫= λ _, Throw e)
  | Diverge => Diverge
  | Get k => Get (λ s, promise_finally (k s) g)
  | Act f k => Act f (promise_finally k g)
  | Await c k => Await c (λ r, promise_finally (k r) g)
  end.

Inductive Result (A : Type) :=
| Returned (a : A)
| Thrown (e : JsError)
| OutOfFuel.

Arguments Returned {A} a.
Arguments Thrown {A} e.
Arguments OutOfFuel {A}.

(** *** One task run to completion

    The oracle answers every call into the client library from the
    history so far; a [Tick] always resumes. *)

Definition Oracle := list Event → ExtCall → Settled.

Definition always_fulfilled : Oracle := λ _ _, Fulfilled.

Fixpoint run {A} (oracle : Oracle) (t : Task A) (s : State) : State * Result A :=
  match t with
  | Ret a => (s, Returned a)
  | Throw e => (s, Thrown e)
  | Diverge => (s, OutOfFuel)
  | Get k => run oracle (k s) s
  | Act f k => run oracle k (f s)
  | Await Tick k => run oracle (k Fulfilled) s
  | Await c k =>
      let s1 := log (EvCall c) s in
      let r := oracle (trace s1) c in
      run oracle (k r) (log (EvSettled c r) s1)
  end.

(** The suspensions [run] goes through, each with the state in which the
    task was left waiting. *)
Fixpoint awaits {A} (oracle : Oracle) (t : Task A) (s : State) : list (ExtCall * State) :=
  match t with
  | Ret _ | Throw _ | Diverge => []
  | Get k => awaits oracle (k s) s
  | Act f k => awaits oracle k (f s)
  | Await Tick k => (Tick, s) :: awaits oracle (k Fulfilled) s
  | Await c k =>
      let s1 := log (EvCall c) s in
      let r := oracle (trace s1) c in
      (c, s1) :: awaits oracle (k r) (log (EvSettled c r) s1)
  end.


(** ** The extension *)

Definition extensionName : string := "Grain Language Server".

Definition languageId : string := "grain".

(** [activeMutex.add(key)] and [activeMutex.delete(key)] *)
Definition lock (key : string) : State → State := set_activeMutex (λ m, m ∪ {[key]}).

Definition unlock (key : string) : State → State := set_activeMutex (λ m, m ∖ {[key]}).

(** [queueMicrotask(() => { throw err })]: the error is thrown outside
    every promise and reaches the host as an uncaught error. *)
Definition rethrow_later (err : JsError) : Task unit := act (report err).

(** [p.catch(err => queueMicrotask(...)).finally(() => activeMutex.delete(key))] *)
Definition settle_guard (key : string) (p : Task unit) : Task unit :=
  promise_finally (promise_catch p rethrow_later) (act (unlock key)).

(** [mutex(key, fn)(...args)].  The wrapper returns at once; the chain
    on the promise of [fn(...args)] goes on as the rest of the task. *)
Definition mutex {Args : Type} (key : string) (fn : Args → Task unit) (a : Args) : Task unit :=
  Get (λ s,
    if decide (key ∈ activeMutex s) then Ret tt
    else Act (lock key) (settle_guard key (fn a))).

Definition grainBinaries : list string :=
  ["grain"; "grain-mac-x64"; "grain-linux-x64"; "grain-win-x64"].

(** [which.sync(bin)] throws when [bin] is not on the path: [None]. *)
Fixpoint findGrain_from (h : Host) (bins : list string) : JsError + string :=
  match bins with
  | [] => inl (Error "Unable to locate any Grain binary. Did you install it?")
  | bin :: rest =>
      match which_sync h bin with
      | Some grain => inr grain
      | None => findGrain_from h rest
      end
  end.

Definition findGrain (h : Host) : JsError + string := findGrain_from h grainBinaries.

Definition dirpathFromUri (uri : Uri) : string :=
  let dirPath := Uri_toString uri in
  if negb (Js.endsWith dirPath "/") then dirPath +:+ "/" else dirPath.

Definition globFromUri (uri : Uri) (glob : string) : string :=
  Js.replaceAll_backslash (fsPath uri +:+ glob).

(** [.sort((a, b) => a.length - b.length)]: the sort of an array is
    stable, and so is this insertion sort. *)
Fixpoint insert_by_length (x : string) (l : list string) : list string :=
  match l with
  | [] => [x]
  | y :: l' =>
      if decide (String.length x ≤ String.length y) then x :: y :: l'
      else y :: insert_by_length x l'
  end.

Definition sort_by_length (l : list string) : list string :=
  foldr insert_by_length [] l.

Definition sortWorkspaceFolders : Task (list string) :=
  Get (λ s,
    (if decide (length (workspaceFolders s) = 0) then
       match workspace_workspaceFolders (host s) with
       | None => act (set_workspaceFolders [])
       | Some folders =>
           act (set_workspaceFolders
                  (sort_by_length ((λ folder, dirpathFromUri (folder_uri folder)) <$> folders)))
       end
     else Ret tt) ≫= λ _,
    Get (λ s', Ret (workspaceFolders s'))).

(** The loop of [getOuterMostWorkspaceFolder]; [None] is the [undefined]
    that [workspace.getWorkspaceFolder] may answer behind the [!]. *)
Fixpoint outermost_in (h : Host) (folder : WorkspaceFolder) (sorted : list string)
    : option WorkspaceFolder :=
  match sorted with
  | [] => Some folder
  | element :: rest =>
      let dirpath := dirpathFromUri (folder_uri folder) in
      if Js.startsWith dirpath element
      then workspace_getWorkspaceFolder h (Uri_parse h element)
      else outermost_in h folder rest
  end.

Definition getOuterMostWorkspaceFolder (folder : WorkspaceFolder)
    : Task (option WorkspaceFolder) :=
  sorted ← sortWorkspaceFolders;
  Get (λ s, Ret (outermost_in (host s) folder sorted)).

(** [getLspCommand] is synchronous and only reads the host.  [inr None]
    is the [undefined] of the bare [return]; [inl] is what [findGrain]
    throws. *)
Definition getLspCommand (h : Host) (uri : Uri) : JsError + option (string * list string) :=
  let config := workspace_getConfiguration h uri in
  let lspEnabled := enableLSP config in
  match lspEnabled with
  | Some true =>
      match
        match cliPath config with
        | Some (String c r) => inr (String c r)
        | _ => findGrain h
        end
      with
      | inl err => inl err
      | inr command =>
          let command := Js.replace_EXE_suffix command in
          let flags := Js.or_else (cliFlags config) "" in
          let args := "lsp" :: Js.split_space flags in
          inr (Some (command, args))
      end
  | _ => inr None
  end.

(** A synchronous call that may throw. *)
Definition call {A} (x : JsError + A) : Task A :=
  match x with
  | inl err => Throw err
  | inr a => Ret a
  end.

(** The error of [let [command, args] = getLspCommand(uri)] when the
    call answers [undefined]. *)
Definition not_iterable : JsError :=
  TypeError "getLspCommand is not a function or its return value is not iterable".

(** [let [command, args] = getLspCommand(uri)]: destructuring
    [undefined] throws. *)
Definition destructure (r : option (string * list string)) : Task (string * list string) :=
  match r with
  | Some p => Ret p
  | None => Throw not_iterable
  end.

(** [new LanguageClient(...)]: a fresh object. *)
Definition new_LanguageClient (so : ServerOptions) (co : LanguageClientOptions)
    : Task ClientId :=
  Get (λ s,
    Act (set_clients (λ l, l ++ [{| client_id := languageId; client_name := extensionName;
                                    serverOptions := so; clientOptions := co |}]))
        (Ret (length (clients s)))).

Definition starting_message (command : string) (args : list string) : string :=
  "Starting LSP client using command: " +:+ command +:+ " " +:+ Js.join_space args.

Definition startFileClient (uri : Uri) : Task ClientId :=
  r ← Get (λ s, call (getLspCommand (host s) uri));
  '(command, args) ← destructure r;
  Get (λ s,
    let clientOptions :=
      {| documentSelector :=
           [{| filter_scheme := scheme uri; filter_language := languageId;
               filter_pattern := globFromUri uri "" |}];
         workspaceFolder := None;
         errorHandler :=
           match grainStatusBarItem s with
           | Some item =>
               Some {| handler_name := extensionName; handler_item := item;
                       handler_maxRestartCount := 5 |}
           | None => None
           end |} in
    let serverOptions := {| command := command; args := args |} in
    client ← new_LanguageClient serverOptions clientOptions;
    act (log (EvInfo client (starting_message command args)));;
    await (client_start client);;
    act (log (EvRegisterCompletion client));;
    Ret client).

Definition addFileClient (uri : Uri) : Task unit :=
  let file := Uri_toString uri in
  Get (λ s,
    if negb (Map_has file (fileClients s)) then
      client ← await_async (startFileClient uri);
      act (set_fileClients (Map_set file client))
    else Ret tt).

Definition removeFileClient (uri : Uri) : Task unit :=
  let file := Uri_toString uri in
  Get (λ s,
    match Map_get file (fileClients s) with
    | Some client =>
        await (client_stop client);;
        act (set_fileClients (Map_delete file))
    | None => Ret tt
    end).

Definition startWorkspaceClient (folder : WorkspaceFolder) : Task ClientId :=
  r ← Get (λ s, call (getLspCommand (host s) (folder_uri folder)));
  '(command, args) ← destructure r;
  let clientOptions :=
    {| documentSelector :=
         [{| filter_scheme := "file"; filter_language := languageId;
             filter_pattern := globFromUri (folder_uri folder) "/**/*" |}];
       workspaceFolder := Some folder;
       errorHandler := None |} in
  let serverOptions := {| command := command; args := args |} in
  client ← new_LanguageClient serverOptions clientOptions;
  act (log (EvInfo client (starting_message command args)));;
  await (client_start client);;
  act (log (EvRegisterCompletion client));;
  Ret client.

Definition addWorkspaceClient (folder : WorkspaceFolder) : Task unit :=
  let workspacePath := Uri_toString (folder_uri folder) in
  Get (λ s,
    if negb (Map_has workspacePath (workspaceClients s)) then
      client ← await_async (startWorkspaceClient folder);
      act (set_workspaceClients (Map_set workspacePath client))
    else Ret tt).

Definition removeWorkspaceClient (folder : WorkspaceFolder) : Task unit :=
  let workspacePath := Uri_toString (folder_uri folder) in
  Get (λ s,
    match Map_get workspacePath (workspaceClients s) with
    | Some client =>
        await (client_stop client);;
        act (set_workspaceClients (Map_delete workspacePath))
    | None => Ret tt
    end).

(** [for (let v of m.values()) body(v)] with an [await] in the body: the
    iterator is an index into the entries, read again after every
    suspension.  The loop is bounded by [fuel] steps. *)
Fixpoint for_values (m : State → JsMap ClientId) (body : ClientId → Task unit)
    (fuel i : nat) : Task unit :=
  Get (λ s,
    match m s !! i with
    | None => Ret tt
    | Some e =>
        match fuel with
        | 0 => Diverge
        | S fuel' =>
            match e with
            | Some (_, v) => body v
            | None => Ret tt
            end ≫= λ _, for_values m body fuel' (S i)
        end
    end).

Definition set_busy (b : bool) (r : option StatusItemRef) : Task unit :=
  match r with
  | Some i =>
      act (set_statusItems (λ l,
        match l !! i with
        | Some it =>
            <[i := {| item_id := item_id it; item_language := item_language it;
                      item_busy := b; item_name := item_name it;
                      item_text := item_text it; item_command := item_command it |}]> l
        | None => l
        end))
  | None => Ret tt
  end.

Definition restartAllClients (fuel : nat) : Task unit :=
  Get (λ s, set_busy true (grainRestartStatusItem s));;
  for_values fileClients (λ client, await (client_restart client)) fuel 0;;
  for_values workspaceClients (λ client, await (client_restart client)) fuel 0;;
  Get (λ s, set_busy false (grainRestartStatusItem s)).

(** The three settings a handler looks at, in the order of the source. *)
Definition watched_settings : list string :=
  ["grain.cliFlags"; "grain.cliPath"; "grain.enableLSP"].

(** The [async (e) => { ... }] handed to [mutex] for a workspace folder. *)
Definition workspaceConfigHandler (folder : WorkspaceFolder)
    (e : ConfigurationChangeEvent) : Task unit :=
  (if affectsConfiguration e "grain.cliFlags" (folder_uri folder) then
     await_async (removeWorkspaceClient folder);;
     await_async (addWorkspaceClient folder)
   else Ret tt);;
  (if affectsConfiguration e "grain.cliPath" (folder_uri folder) then
     await_async (removeWorkspaceClient folder);;
     await_async (addWorkspaceClient folder)
   else Ret tt);;
  (if affectsConfiguration e "grain.enableLSP" (folder_uri folder) then
     await_async (removeWorkspaceClient folder);;
     await_async (addWorkspaceClient folder)
   else Ret tt).

(** The [async (e) => { ... }] handed to [mutex] for a single file. *)
Definition fileConfigHandler (uri : Uri) (e : ConfigurationChangeEvent) : Task unit :=
  (if affectsConfiguration e "grain.cliFlags" uri then
     await_async (removeFileClient uri);;
     await_async (addFileClient uri)
   else Ret tt);;
  (if affectsConfiguration e "grain.cliPath" uri then
     await_async (removeFileClient uri);;
     await_async (addFileClient uri)
   else Ret tt);;
  (if affectsConfiguration e "grain.enableLSP" uri then
     await_async (removeFileClient uri);;
     await_async (addFileClient uri)
   else Ret tt).

Definition handler_key (h : ConfigHandler) : string :=
  match h with
  | WorkspaceHandler folder => Uri_toString (folder_uri folder)
  | FileHandler uri => Uri_toString uri
  end.

Definition handler_fn (h : ConfigHandler) : ConfigurationChangeEvent → Task unit :=
  match h with
  | WorkspaceHandler folder => workspaceConfigHandler folder
  | FileHandler uri => fileConfigHandler uri
  end.

(** What [didOpenTextDocument] registers: [mutex(key, fn)]. *)
Definition configHandler (h : ConfigHandler) (e : ConfigurationChangeEvent) : Task unit :=
  mutex (handler_key h) (handler_fn h) e.

(** [workspace.onDidChangeConfiguration(configHandler)] *)
Definition onDidChangeConfiguration (h : ConfigHandler) : Task Disposable :=
  Get (λ s,
    Act (set_configListeners (λ l, l ++ [h]))
        (Ret (ConfigHandlerDisposable (length (configListeners s))))).

Definition didOpenTextDocument (document : TextDocument) : Task Disposable :=
  if bool_decide (document_languageId document ≠ languageId) then Ret Disposable_from
  else
    let uri := document_uri document in
    Get (λ s,
      match workspace_getWorkspaceFolder (host s) uri with
      | Some folder =>
          outer ← getOuterMostWorkspaceFolder folder;
          match outer with
          | Some folder =>
              await_async (addWorkspaceClient folder);;
              onDidChangeConfiguration (WorkspaceHandler folder)
          | None => Throw (TypeError "Cannot read properties of undefined (reading 'uri')")
          end
      | None =>
          if bool_decide (scheme uri ≠ "file") && bool_decide (scheme uri ≠ "untitled")
          then Ret Disposable_from
          else
            await_async (addFileClient uri);;
            onDidChangeConfiguration (FileHandler uri)
      end).

Fixpoint remove_each (folders : list WorkspaceFolder) : Task unit :=
  match folders with
  | [] => Ret tt
  | folder :: rest => await_async (removeWorkspaceClient folder);; remove_each rest
  end.

Definition didChangeWorkspaceFolders (event : WorkspaceFoldersChangeEvent) : Task unit :=
  act (set_workspaceFolders []);;
  remove_each (removed event).

(** [languages.createLanguageStatusItem(id, selector)] *)
Definition createLanguageStatusItem (id : string) : Task StatusItemRef :=
  Get (λ s,
    Act (set_statusItems (λ l,
           l ++ [{| item_id := id; item_language := languageId; item_busy := false;
                    item_name := ""; item_text := ""; item_command := None |}]))
        (Ret (length (statusItems s)))).

Definition set_item (r : StatusItemRef) (f : LanguageStatusItem → LanguageStatusItem)
    : Task unit :=
  act (set_statusItems (λ l, match l !! r with Some it => <[r := f it]> l | None => l end)).

Definition with_entry (name : string) (title cmd : string) (it : LanguageStatusItem)
    : LanguageStatusItem :=
  {| item_id := item_id it; item_language := item_language it;
     item_busy := item_busy it; item_name := name; item_text := "grain";
     item_command := Some {| command_title := title; command_command := cmd |} |}.

Definition createStatusBarEntries : Task unit :=
  main ← createLanguageStatusItem "grain";
  act (set_grainStatusBarItem (Some main));;
  set_busy false (Some main);;
  set_item main (with_entry "grain" "Open Grain Output" "grain.openOutput");;
  act (set_subscriptions (λ l, l ++ [StatusItemDisposable main]));;
  restart ← createLanguageStatusItem "grain.restart";
  act (set_grainRestartStatusItem (Some restart));;
  set_busy false (Some main);;
  set_item restart (with_entry "grain.restart" "Restart Extension" "grain.restart");;
  act (set_subscriptions (λ l, l ++ [StatusItemDisposable restart])).

Fixpoint open_each (docs : list TextDocument) : Task unit :=
  match docs with
  | [] => Ret tt
  | doc :: rest =>
      disposable ← await_async (didOpenTextDocument doc);
      act (set_subscriptions (λ l, l ++ [disposable]));;
      open_each rest
  end.

Definition activate : Task unit :=
  act (set_listeners true true);;
  act (set_subscriptions (λ l,
         l ++ [ListenerDisposable "onDidOpenTextDocument";
               ListenerDisposable "onDidChangeWorkspaceFolders";
               CommandDisposable "grain.restart";
               CommandDisposable "grain.openOutput"]));;
  createStatusBarEntries;;
  Get (λ s, open_each (workspace_textDocuments (host s))).

Definition deactivate (fuel : nat) : Task unit :=
  for_values fileClients (λ client, await (client_stop client)) fuel 0;;
  for_values workspaceClients (λ client, await (client_stop client)) fuel 0.


(** ** The event loop

    A task runs until it suspends; the host then runs whatever comes
    next: another listener, or the rest of a suspended task whose promise
    has settled. *)

Inductive Progress (A : Type) :=
| Finished (r : Result A)
| Waiting (c : ExtCall) (k : Settled → Task A).

Arguments Finished {A} r.
Arguments Waiting {A} c k.

(** The call is issued when the task reaches the [await]. *)
Definition issue (c : ExtCall) (s : State) : State :=
  match c with Tick => s | _ => log (EvCall c) s end.

Definition answer (c : ExtCall) (r : Settled) (s : State) : State :=
  match c with Tick => s | _ => log (EvSettled c r) s end.

Fixpoint advance {A} (t : Task A) (s : State) : State * Progress A :=
  match t with
  | Ret a => (s, Finished (Returned a))
  | Throw e => (s, Finished (Thrown e))
  | Diverge => (s, Finished OutOfFuel)
  | Get k => advance (k s) s
  | Act f k => advance k (f s)
  | Await c k => (issue c s, Waiting c k)
  end.

(** Who started a task. *)
Inductive Origin :=
| FromActivate
| FromDeactivate
| FromOpen (document : TextDocument)
| FromFolders
| FromConfig (key : string)
| FromRestart.

Record Pending := {
  origin : Origin;
  waiting_for : ExtCall;
  resume : Settled → Task unit;
}.

Record Pool := {
  state : State;
  pending : list Pending;
  settled : list (Origin * Result unit);
}.

Definition boot (h : Host) : Pool :=
  {| state := initial h; pending := []; settled := [] |}.

Definition progress (o : Origin) (x : State * Progress unit)
    (waiting : list Pending) (done : list (Origin * Result unit)) : Pool :=
  match x with
  | (s, Finished r) => {| state := s; pending := waiting; settled := done ++ [(o, r)] |}
  | (s, Waiting c k) =>
      {| state := s;
         pending := waiting ++ [{| origin := o; waiting_for := c; resume := k |}];
         settled := done |}
  end.

Definition spawn (o : Origin) (t : Task unit) (p : Pool) : Pool :=
  progress o (advance t (state p)) (pending p) (settled p).

Definition void {A} (t : Task A) : Task unit := t ≫= λ _, Ret tt.

(** The host calls every registered configuration listener in turn. *)
Definition fire_configuration (e : ConfigurationChangeEvent) (p : Pool) : Pool :=
  foldl (λ p h, spawn (FromConfig (handler_key h)) (configHandler h e) p)
        p (configListeners (state p)).

Inductive Action :=
| Activate
| Deactivate (fuel : nat)
| OpenTextDocument (document : TextDocument)
| ChangeWorkspaceFolders (event : WorkspaceFoldersChangeEvent)
| ChangeConfiguration (e : ConfigurationChangeEvent)
| RestartCommand (fuel : nat)
| OpenOutputCommand
| HostChanges (h : Host)
| Settle (i : nat) (r : Settled).

Definition step (a : Action) (p : Pool) : Pool :=
  match a with
  | Activate => spawn FromActivate activate p
  | Deactivate fuel => spawn FromDeactivate (deactivate fuel) p
  | OpenTextDocument document =>
      if openListener (state p)
      then spawn (FromOpen document) (void (didOpenTextDocument document)) p
      else p
  | ChangeWorkspaceFolders event =>
      if foldersListener (state p)
      then spawn FromFolders (didChangeWorkspaceFolders event) p
      else p
  | ChangeConfiguration e => fire_configuration e p
  | RestartCommand fuel =>
      if openListener (state p) then spawn FromRestart (restartAllClients fuel) p else p
  | OpenOutputCommand =>
      if openListener (state p)
      then {| state := log EvShowOutput (state p); pending := pending p;
              settled := settled p |}
      else p
  | HostChanges h =>
      {| state := set_host h (state p); pending := pending p; settled := settled p |}
  | Settle i r =>
      match pending p !! i with
      | None => p
      | Some w =>
          let r := match waiting_for w with Tick => Fulfilled | _ => r end in
          progress (origin w)
                   (advance (resume w r) (answer (waiting_for w) r (state p)))
                   (delete i (pending p)) (settled p)
      end
  end.

Definition exec (acts : list Action) (p : Pool) : Pool := foldl (λ p a, step a p) p acts.

(** A client is live once [start()] has fulfilled and as long as
    [stop()] has not been called on it. *)
Definition live (tr : list Event) (c : ClientId) : bool :=
  bool_decide (EvSettled (client_start c) Fulfilled ∈ tr)
  && negb (bool_decide (EvCall (client_stop c) ∈ tr)).

(** The live clients that serve a workspace folder. *)
Definition live_workspace_clients (s : State) (folder : WorkspaceFolder) : list ClientId :=
  filter (λ c, live (trace s) c = true ∧
               (clientOptions <$> clients s !! c) ≫= workspaceFolder = Some folder)
         (seq 0 (length (clients s))).


(** ** Notions used in the statements *)

(** Every update a task makes keeps [I], whatever the state it reads
    and whatever the answers it gets. *)
Fixpoint preserves {A} (I : State → Prop) (t : Task A) : Prop :=
  match t with
  | Ret _ | Throw _ | Diverge => True
  | Get k => ∀ s, preserves I (k s)
  | Act f k => (∀ s, I s → I (f s)) ∧ preserves I k
  | Await c k => ∀ r, preserves I (k r)
  end.

(** [I] is kept by every kind of update the extension makes outside the
    guard, and by what the host and the client library do. *)
Record frame_condition (I : State → Prop) : Prop := {
  frame_log : ∀ ev s, I s → I (log ev s);
  frame_host : ∀ h s, I s → I (set_host h s);
  frame_clients : ∀ f s, I s → I (set_clients f s);
  frame_file_set : ∀ k c s, I s → I (set_fileClients (Map_set k c) s);
  frame_file_delete : ∀ k s, I s → I (set_fileClients (Map_delete k) s);
  frame_workspace_set : ∀ k c s, I s → I (set_workspaceClients (Map_set k c) s);
  frame_workspace_delete : ∀ k s, I s → I (set_workspaceClients (Map_delete k) s);
  frame_workspaceFolders : ∀ l s, I s → I (set_workspaceFolders l s);
  frame_configListeners : ∀ f s, I s → I (set_configListeners f s);
  frame_statusItems : ∀ f s, I s → I (set_statusItems f s);
  frame_grainStatusBarItem : ∀ r s, I s → I (set_grainStatusBarItem r s);
  frame_grainRestartStatusItem : ∀ r s, I s → I (set_grainRestartStatusItem r s);
  frame_subscriptions : ∀ f s, I s → I (set_subscriptions f s);
  frame_listeners : ∀ a b s, I s → I (set_listeners a b s);
}.

(** [I] is kept by the guard as well. *)
Record guard_condition (I : State → Prop) : Prop := {
  guard_activeMutex : ∀ f s, I s → I (set_activeMutex f s);
  guard_report : ∀ err s, I s → I (report err s);
}.

(** A task that never touches [activeMutex]. *)
Definition quiet {A} (t : Task A) : Prop :=
  ∀ X, preserves (λ s, activeMutex s = X) t.

(** A task without a fuel-bounded loop. *)
Fixpoint fuel_free {A} (t : Task A) : Prop :=
  match t with
  | Ret _ | Throw _ => True
  | Diverge => False
  | Get k => ∀ s, fuel_free (k s)
  | Act f k => fuel_free k
  | Await c k => ∀ r, fuel_free (k r)
  end.

(** The rest of a guarded invocation for [key]: it leaves [activeMutex]
    alone until its last step, which deletes [key]. *)
Inductive holding (key : string) : Task unit → Prop :=
| holding_release f :
    (∀ s, activeMutex (f s) = activeMutex s ∖ {[key]}) →
    holding key (Act f (Ret tt))
| holding_Act f k :
    (∀ s, activeMutex (f s) = activeMutex s) → holding key k → holding key (Act f k)
| holding_Get k : (∀ s, holding key (k s)) → holding key (Get k)
| holding_Await c k : (∀ r, holding key (k r)) → holding key (Await c k).

(** The keys of the handler executions that are under way. *)
Definition running_key (w : Pending) : option string :=
  match origin w with FromConfig key => Some key | _ => None end.

Definition running_handlers (p : Pool) : list string := omap running_key (pending p).

(** What the event loop keeps true of a suspended task: the rest of a
    guarded invocation holds its key until its last step, and any other
    task never touches [activeMutex]. *)
Definition pending_ok (w : Pending) : Prop :=
  match origin w with
  | FromConfig key => ∀ r, holding key (resume w r)
  | _ => ∀ r, quiet (resume w r)
  end.

(** The keys in [activeMutex] are the keys of the handler executions
    under way, each of them once. *)
Definition guarded (s : State) (waiting : list Pending) : Prop :=
  Forall pending_ok waiting ∧
  NoDup (omap running_key waiting) ∧
  ∀ key, key ∈ omap running_key waiting ↔ key ∈ activeMutex s.

(** [I] holds now and is kept by whatever the suspended tasks do next. *)
Definition stable (I : State → Prop) (p : Pool) : Prop :=
  I (state p) ∧ Forall (λ w, ∀ r, preserves I (resume w r)) (pending p).

(** Both registries are well formed. *)
Definition registries_wf (s : State) : Prop :=
  Map_wf (fileClients s) ∧ Map_wf (workspaceClients s).

(** The pools the extension can be in. *)
Definition reachable (p : Pool) : Prop := ∃ h acts, p = exec acts (boot h).

(** The cached list of [sortWorkspaceFolders] is empty or is the sorted
    list of the folders the host has now: [didChangeWorkspaceFolders]
    empties it whenever the host changes its folders. *)
Definition current_folders (h : Host) : list WorkspaceFolder :=
  default [] (workspace_workspaceFolders h).

Definition cache_coherent (s : State) : Prop :=
  workspaceFolders s = [] ∨
  workspaceFolders s =
    sort_by_length ((λ folder, dirpathFromUri (folder_uri folder)) <$> current_folders (host s)).

(** [workspace.getWorkspaceFolder] maps the directory path of a workspace
    folder back to that folder. *)
Definition host_resolves (h : Host) : Prop :=
  ∀ folder, folder ∈ current_folders h →
    workspace_getWorkspaceFolder h (Uri_parse h (dirpathFromUri (folder_uri folder)))
    = Some folder.


Definition stops_fulfil (oracle : Oracle) : Prop :=
  ∀ tr c, oracle tr (client_stop c) = Fulfilled.

(** How [run] goes on after the first part of a sequence. *)
Definition continue_with {A B} (oracle : Oracle) (f : A → Task B)
    (x : State * Result A) : State * Result B :=
  match x with
  | (s, Returned a) => run oracle (f a) s
  | (s, Thrown e) => (s, Thrown e)
  | (s, OutOfFuel) => (s, OutOfFuel)
  end.

(** The order of the sorted cache. *)
Definition shorter (a b : string) : Prop := String.length a ≤ String.length b.

(** What [run] makes of the common tail of [startFileClient] and
    [startWorkspaceClient]: the client object is created, announced and
    started, and the completion provider is registered once [start()]
    has fulfilled. *)
Definition start_outcome (oracle : Oracle) (s : State)
    (so : ServerOptions) (co : LanguageClientOptions) : State * Result ClientId :=
  let c := length (clients s) in
  let s0 :=
    set_clients (λ l, l ++ [{| client_id := languageId; client_name := extensionName;
                               serverOptions := so; clientOptions := co |}]) s in
  let s1 := log (EvCall (client_start c))
                (log (EvInfo c (starting_message (command so) (args so))) s0) in
  match oracle (trace s1) (client_start c) with
  | Fulfilled =>
      (log (EvRegisterCompletion c) (log (EvSettled (client_start c) Fulfilled) s1),
       Returned c)
  | Rejected e => (log (EvSettled (client_start c) (Rejected e)) s1, Thrown e)
  end.

(** What [run] makes of [await client.stop()]. *)
Definition stop_outcome (oracle : Oracle) (s : State) (c : ClientId) : State * Result unit :=
  let s1 := log (EvCall (client_stop c)) s in
  match oracle (trace s1) (client_stop c) with
  | Fulfilled => (log (EvSettled (client_stop c) Fulfilled) s1, Returned tt)
  | Rejected e => (log (EvSettled (client_stop c) (Rejected e)) s1, Thrown e)
  end.

(** The registry a configuration-change handler works on. *)
Definition registry_of (h : ConfigHandler) : State → JsMap ClientId :=
  match h with
  | WorkspaceHandler _ => workspaceClients
  | FileHandler _ => fileClients
  end.

Definition handler_uri (h : ConfigHandler) : Uri :=
  match h with
  | WorkspaceHandler folder => folder_uri folder
  | FileHandler uri => uri
  end.





(** What [run] makes of the chain behind a guarded invocation, from the
    outcome of the guarded function: a rejection is reported to the
    host, and the key is deleted in either case. *)
Definition settled_guard (key : string) (x : State * Result unit) : State * Result unit :=
  match x with
  | (s, Returned _) => (unlock key s, Returned tt)
  | (s, Thrown err) => (unlock key (report err s), Returned tt)
  | (s, OutOfFuel) => (s, OutOfFuel)
  end.

(** The four operations on the registries, and a sequence of them in
    which each one is finished before the next one begins. *)
Inductive RegistryOp :=
| AddFileClient (uri : Uri)
| RemoveFileClient (uri : Uri)
| AddWorkspaceClient (folder : WorkspaceFolder)
| RemoveWorkspaceClient (folder : WorkspaceFolder).

Definition operation (op : RegistryOp) : Task unit :=
  match op with
  | AddFileClient uri => addFileClient uri
  | RemoveFileClient uri => removeFileClient uri
  | AddWorkspaceClient folder => addWorkspaceClient folder
  | RemoveWorkspaceClient folder => removeWorkspaceClient folder
  end.

Definition run_each (oracle : Oracle) (ops : list RegistryOp) (s : State) : State :=
  foldl (λ s op, (run oracle (operation op) s).1) s ops.

(** Every live client is the client registered for what it serves. *)
Definition tracked (s : State) : Prop :=
  (∀ c, EvSettled (client_start c) Fulfilled ∈ trace s → c < length (clients s)) ∧
  (∀ c lc, live (trace s) c = true → clients s !! c = Some lc →
     match workspaceFolder (clientOptions lc) with
     | Some folder =>
         Map_get (Uri_toString (folder_uri folder)) (workspaceClients s) = Some c
     | None => ∃ key, Map_get key (fileClients s) = Some c
     end).

(** The characters of a string. *)
Definition chars (s : string) : list ascii := String.list_ascii_of_string s.

(** The clients on which [start()], [stop()] and [restart()] are called
    in a stretch of the trace, in the order of the calls. *)
Definition started (evs : list Event) : list ClientId :=
  omap (λ ev, match ev with EvCall (client_start c) => Some c | _ => None end) evs.

Definition stopped (evs : list Event) : list ClientId :=
  omap (λ ev, match ev with EvCall (client_stop c) => Some c | _ => None end) evs.

Definition restarted (evs : list Event) : list ClientId :=
  omap (λ ev, match ev with EvCall (client_restart c) => Some c | _ => None end) evs.

(** The settings among the three watched ones that a change affects. *)
Definition affected (e : ConfigurationChangeEvent) (uri : Uri) : list string :=
  filter (λ setting, affectsConfiguration e setting uri = true) watched_settings.

(** The directory paths of the folders the host has now. *)
Definition host_dirpaths (h : Host) : list string :=
  (λ folder, dirpathFromUri (folder_uri folder)) <$> current_folders h.

(** The [busy] flag of the status item behind a reference. *)
Definition busy_of (s : State) (r : option StatusItemRef) : option bool :=
  r ≫= λ i, item_busy <$> statusItems s !! i.

(** The key and the registry an operation works on, and the operation
    that undoes an addition. *)
Definition op_key (op : RegistryOp) : string :=
  match op with
  | AddFileClient uri | RemoveFileClient uri => Uri_toString uri
  | AddWorkspaceClient folder | RemoveWorkspaceClient folder =>
      Uri_toString (folder_uri folder)
  end.

Definition op_registry (op : RegistryOp) : State → JsMap ClientId :=
  match op with
  | AddFileClient _ | RemoveFileClient _ => fileClients
  | AddWorkspaceClient _ | RemoveWorkspaceClient _ => workspaceClients
  end.

Definition other_registry (op : RegistryOp) : State → JsMap ClientId :=
  match op with
  | AddFileClient _ | RemoveFileClient _ => workspaceClients
  | AddWorkspaceClient _ | RemoveWorkspaceClient _ => fileClients
  end.

Definition is_add (op : RegistryOp) : bool :=
  match op with
  | AddFileClient _ | AddWorkspaceClient _ => true
  | _ => false
  end.

Definition removal (op : RegistryOp) : RegistryOp :=
  match op with
  | AddFileClient uri | RemoveFileClient uri => RemoveFileClient uri
  | AddWorkspaceClient folder | RemoveWorkspaceClient folder => RemoveWorkspaceClient folder
  end.

Definition addition (op : RegistryOp) : RegistryOp :=
  match op with
  | AddFileClient uri | RemoveFileClient uri => AddFileClient uri
  | AddWorkspaceClient folder | RemoveWorkspaceClient folder => AddWorkspaceClient folder
  end.

(** The workspace folder a client added by the operation is created
    for. *)
Definition op_folder (op : RegistryOp) : option WorkspaceFolder :=
  match op with
  | AddWorkspaceClient folder | RemoveWorkspaceClient folder => Some folder
  | _ => None
  end.

(** What an operation run alone can come to, by cases: the state and
    the result in the end, and the events it adds to the trace. *)
Inductive op_outcome (op : RegistryOp) (s : State)
    : State → Result unit → list Event → Prop :=
| op_skipped :
    (if is_add op then is_Some (Map_get (op_key op) (op_registry op s))
     else Map_get (op_key op) (op_registry op s) = None) →
    op_outcome op s s (Returned tt) []
| op_no_command err :
    is_add op = true → Map_get (op_key op) (op_registry op s) = None →
    op_outcome op s s (Thrown err) []
| op_added s' lc msg :
    let c := length (clients s) in
    is_add op = true → Map_get (op_key op) (op_registry op s) = None →
    clients s' = clients s ++ [lc] →
    workspaceFolder (clientOptions lc) = op_folder op →
    op_registry op s' = Map_set (op_key op) c (op_registry op s) →
    op_outcome op s s' (Returned tt)
      [EvInfo c msg; EvCall (client_start c); EvSettled (client_start c) Fulfilled;
       EvRegisterCompletion c]
| op_start_rejected s' lc msg err :
    let c := length (clients s) in
    is_add op = true → Map_get (op_key op) (op_registry op s) = None →
    clients s' = clients s ++ [lc] →
    op_registry op s' = op_registry op s →
    op_outcome op s s' (Thrown err)
      [EvInfo c msg; EvCall (client_start c); EvSettled (client_start c) (Rejected err)]
| op_removed s' c :
    is_add op = false → Map_get (op_key op) (op_registry op s) = Some c →
    clients s' = clients s →
    op_registry op s' = Map_delete (op_key op) (op_registry op s) →
    op_outcome op s s' (Returned tt)
      [EvCall (client_stop c); EvSettled (client_stop c) Fulfilled]
| op_stop_rejected s' c err :
    is_add op = false → Map_get (op_key op) (op_registry op s) = Some c →
    clients s' = clients s →
    op_registry op s' = op_registry op s →
    op_outcome op s s' (Thrown err)
      [EvCall (client_stop c); EvSettled (client_stop c) (Rejected err)].

(** One round of a configuration-change handler: the client of the key
    is removed and added again. *)
Definition handler_remove (h : ConfigHandler) : RegistryOp :=
  match h with
  | WorkspaceHandler folder => RemoveWorkspaceClient folder
  | FileHandler uri => RemoveFileClient uri
  end.

Definition handler_add (h : ConfigHandler) : RegistryOp :=
  match h with
  | WorkspaceHandler folder => AddWorkspaceClient folder
  | FileHandler uri => AddFileClient uri
  end.

Definition round (h : ConfigHandler) : Task unit :=
  await_async (operation (handler_remove h));;
  await_async (operation (handler_add h)).

(** The state in which a handler is left when [stop()] on [c] has been
    rejected. *)
Definition stop_rejected (c : ClientId) (err : JsError) (s : State) : State :=
  log (EvSettled (client_stop c) (Rejected err)) (log (EvCall (client_stop c)) s).

(** What [activate] sets up is the same in two states: the listeners,
    the two entries of the status bar and the items behind them. *)
Definition same_setup (s s' : State) : Prop :=
  openListener s' = openListener s ∧ foldersListener s' = foldersListener s ∧
  grainStatusBarItem s' = grainStatusBarItem s ∧
  grainRestartStatusItem s' = grainRestartStatusItem s ∧
  statusItems s' = statusItems s.

(** The two entries [createStatusBarEntries] leaves in the status bar. *)
Definition main_entry : LanguageStatusItem :=
  {| item_id := "grain"; item_language := "grain"; item_busy := false;
     item_name := "grain"; item_text := "grain";
     item_command :=
       Some {| command_title := "Open Grain Output"; command_command := "grain.openOutput" |} |}.

Definition restart_entry : LanguageStatusItem :=
  {| item_id := "grain.restart"; item_language := "grain"; item_busy := false;
     item_name := "grain.restart"; item_text := "grain";
     item_command :=
       Some {| command_title := "Restart Extension"; command_command := "grain.restart" |} |}.

(** What [activate] pushes on [context.subscriptions] before it opens
    the documents, given the number of status items there were. *)
Definition activation_subscriptions (n : nat) : list Disposable :=
  [ListenerDisposable "onDidOpenTextDocument";
   ListenerDisposable "onDidChangeWorkspaceFolders";
   CommandDisposable "grain.restart";
   CommandDisposable "grain.openOutput";
   StatusItemDisposable n;
   StatusItemDisposable (S n)].

(** Every entry of a registry is a client that was created for the key
    of the entry and whose [start()] has fulfilled. *)
Definition workspace_entry (s : State) (key : string) (c : ClientId) : Prop :=
  EvSettled (client_start c) Fulfilled ∈ trace s ∧
  ∃ lc folder, clients s !! c = Some lc ∧
    workspaceFolder (clientOptions lc) = Some folder ∧
    Uri_toString (folder_uri folder) = key.

Definition file_entry (s : State) (c : ClientId) : Prop :=
  EvSettled (client_start c) Fulfilled ∈ trace s ∧
  ∃ lc, clients s !! c = Some lc ∧ workspaceFolder (clientOptions lc) = None.

Definition registered (s : State) : Prop :=
  (∀ key c, Map_get key (workspaceClients s) = Some c → workspace_entry s key c) ∧
  (∀ key c, Map_get key (fileClients s) = Some c → file_entry s c).

(** The completion providers registered in a stretch of the trace. *)
Definition completions (evs : list Event) : list ClientId :=
  omap (λ ev, match ev with EvRegisterCompletion c => Some c | _ => None end) evs.

(** *** A sample host: two nested workspace folders *)

Module Sample.

Definition file_uri (path : string) : Uri :=
  {| scheme := "file"; fsPath := path; Uri_toString := "file://" +:+ path |}.

Definition outer : WorkspaceFolder :=
  {| folder_uri := file_uri "/w"; folder_name := "w"; folder_index := 0 |}.

Definition inner : WorkspaceFolder :=
  {| folder_uri := file_uri "/w/pkg"; folder_name := "pkg"; folder_index := 1 |}.

Definition parse (s : string) : Uri :=
  {| scheme := String.substring 0 4 s;
     fsPath := String.substring 7 (String.length s - 7) s;
     Uri_toString := s |}.

(** The innermost folder that contains [uri]. *)
Definition containing (uri : Uri) : option WorkspaceFolder :=
  if Js.startsWith (dirpathFromUri uri) (dirpathFromUri (folder_uri inner)) then Some inner
  else if Js.startsWith (dirpathFromUri uri) (dirpathFromUri (folder_uri outer)) then Some outer
  else None.

Definition in_inner : TextDocument :=
  {| document_languageId := "grain"; document_uri := file_uri "/w/pkg/a.gr" |}.

Definition in_outer : TextDocument :=
  {| document_languageId := "grain"; document_uri := file_uri "/w/b.gr" |}.

Definition loose : TextDocument :=
  {| document_languageId := "grain"; document_uri := file_uri "/tmp/c.gr" |}.

Definition sample_host (enabled : option bool) : Host :=
  {| workspace_workspaceFolders := Some [inner; outer];
     workspace_getWorkspaceFolder := containing;
     workspace_getConfiguration := λ _,
       {| enableLSP := enabled; cliPath := None; cliFlags := None |};
     workspace_textDocuments := [];
     Uri_parse := parse;
     which_sync := λ bin,
       if bool_decide (bin = "grain-linux-x64") then Some "/usr/bin/grain-linux-x64"
       else if bool_decide (bin = "grain-win-x64") then Some "C:/grain-win-x64.EXE"
       else None |}.

Definition on : Host := sample_host (Some true).

(** A host on which no Grain binary is installed. *)
Definition nowhere : Host :=
  {| workspace_workspaceFolders := None;
     workspace_getWorkspaceFolder := λ _, None;
     workspace_getConfiguration := λ _,
       {| enableLSP := Some true; cliPath := None; cliFlags := None |};
     workspace_textDocuments := [];
     Uri_parse := parse;
     which_sync := λ _, None |}.


(** The state once a document of the outer folder has been opened. *)
Definition opened : State :=
  (run always_fulfilled (didOpenTextDocument in_outer) (initial on)).1.

(** Two documents of the same outermost folder are opened one right
    after the other, and each [start()] fulfils afterwards. *)
Definition overlapping_opens : list Action :=
  [Activate; OpenTextDocument in_inner; OpenTextDocument in_outer;
   Settle 0 Fulfilled; Settle 0 Fulfilled; Settle 0 Fulfilled;
   Settle 0 Fulfilled; Settle 0 Fulfilled; Settle 0 Fulfilled].

Definition all (flag : bool) : ConfigurationChangeEvent :=
  {| affectsConfiguration := λ _ _, flag |}.

Definition only (setting : string) : ConfigurationChangeEvent :=
  {| affectsConfiguration := λ section _, bool_decide (section = setting) |}.

(** One document is opened, its client starts, and the configuration
    changes: the handler is under way. *)
Definition changing : list Action :=
  [Activate; OpenTextDocument in_outer;
   Settle 0 Fulfilled; Settle 0 Fulfilled; Settle 0 Fulfilled;
   ChangeConfiguration (all true)].

End Sample.

(** *** Further sample hosts *)

Module Example.

(** A Windows host on which the path of the compiler is configured. *)
Definition configured : Host :=
  {| workspace_workspaceFolders := None;
     workspace_getWorkspaceFolder := λ _, None;
     workspace_getConfiguration := λ _,
       {| enableLSP := Some true; cliPath := Some "C:\grain\grain.EXE";
          cliFlags := Some "--debug -v" |};
     workspace_textDocuments := [];
     Uri_parse := Sample.parse;
     which_sync := λ _, None |}.

Definition windows_uri : Uri :=
  {| scheme := "file"; fsPath := "C:\src\a.gr"; Uri_toString := "file:///c%3A/src/a.gr" |}.

(** A host whose three folders have directory paths of lengths 14, 10
    and 10, in this order. *)
Definition sibling (name : string) (i : nat) : WorkspaceFolder :=
  {| folder_uri := Sample.file_uri name; folder_name := name; folder_index := i |}.

Definition three_folders : Host :=
  {| workspace_workspaceFolders :=
       Some [sibling "/w/pkg" 0; sibling "/b" 1; sibling "/a" 2];
     workspace_getWorkspaceFolder := λ _, None;
     workspace_getConfiguration := λ _,
       {| enableLSP := Some true; cliPath := None; cliFlags := None |};
     workspace_textDocuments := [];
     Uri_parse := Sample.parse;
     which_sync := λ _, None |}.

(** The output of the language server shown as a document. *)
Definition output : TextDocument :=
  {| document_languageId := "grain";
     document_uri := {| scheme := "output"; fsPath := "/o"; Uri_toString := "output:/o" |} |}.

(** The client library rejects every [stop()] and every [restart()]. *)
Definition failing (err : JsError) : Oracle :=
  λ _ c, match c with
         | client_stop _ | client_restart _ => Rejected err
         | _ => Fulfilled
         end.

(** A client is added for a loose file and removed again. *)
Definition added : State :=
  (run always_fulfilled (operation (AddFileClient (document_uri Sample.loose)))
     (initial Sample.on)).1.

Definition removed : State :=
  (run always_fulfilled (operation (RemoveFileClient (document_uri Sample.loose))) added).1.

(** The client of the outer folder is to be removed, and [stop()]
    rejects. *)
Definition stop_failed : State :=
  (run (failing (ClientError "busy")) (operation (RemoveWorkspaceClient Sample.outer))
     Sample.opened).1.

(** The extension is activated and a document of the outer folder is
    opened. *)
Definition activated : State := (run always_fulfilled activate (initial Sample.on)).1.

Definition serving : State :=
  (run always_fulfilled (didOpenTextDocument Sample.in_outer) activated).1.

(** Two registries with one client each. *)
Definition two_clients : State :=
  set_fileClients (Map_set "file:///tmp/c.gr" 0)
    (set_workspaceClients (Map_set "file:///w" 1) (initial Sample.on)).

(** The outermost folder of the inner folder has been asked for. *)
Definition resolved : State :=
  (run always_fulfilled (getOuterMostWorkspaceFolder Sample.inner) (initial Sample.on)).1.

(** Two folders side by side, the name of one beginning with the name
    of the other. *)
Definition pkg : WorkspaceFolder := sibling "/w/pkg" 0.

Definition pkg2 : WorkspaceFolder := sibling "/w/pkg2" 1.

Definition siblings : Host :=
  {| workspace_workspaceFolders := Some [pkg; pkg2];
     workspace_getWorkspaceFolder := λ uri,
       if Js.startsWith (dirpathFromUri uri) (dirpathFromUri (folder_uri pkg)) then Some pkg
       else if Js.startsWith (dirpathFromUri uri) (dirpathFromUri (folder_uri pkg2))
            then Some pkg2
            else None;
     workspace_getConfiguration := λ _,
       {| enableLSP := Some true; cliPath := None; cliFlags := None |};
     workspace_textDocuments := [];
     Uri_parse := Sample.parse;
     which_sync := λ _, Some "/usr/bin/grain" |}.

(** A loose document is opened, and the extension is deactivated while
    [start()] of its client is pending; [start()] fulfils before
    [stop()] of the other client does. *)
Definition deactivating : list Action :=
  [Activate; OpenTextDocument Sample.in_outer;
   Settle 0 Fulfilled; Settle 0 Fulfilled; Settle 0 Fulfilled;
   OpenTextDocument Sample.loose; Deactivate 5;
   Settle 0 Fulfilled; Settle 1 Fulfilled; Settle 1 Fulfilled; Settle 0 Fulfilled].

(** Two workspace folders side by side, a document of each opened, and
    both folders closed at once. *)
Definition side : WorkspaceFolder := sibling "/b" 1.

Definition in_side : TextDocument :=
  {| document_languageId := "grain"; document_uri := Sample.file_uri "/b/x.gr" |}.

Definition two_roots : Host :=
  {| workspace_workspaceFolders := Some [Sample.outer; side];
     workspace_getWorkspaceFolder := λ uri,
       if Js.startsWith (dirpathFromUri uri) (dirpathFromUri (folder_uri Sample.outer))
       then Some Sample.outer
       else if Js.startsWith (dirpathFromUri uri) (dirpathFromUri (folder_uri side))
            then Some side
            else None;
     workspace_getConfiguration := λ _,
       {| enableLSP := Some true; cliPath := None; cliFlags := None |};
     workspace_textDocuments := [];
     Uri_parse := Sample.parse;
     which_sync := λ _, Some "/usr/bin/grain" |}.

Definition both_open : State :=
  (run always_fulfilled (didOpenTextDocument in_side)
     (run always_fulfilled (didOpenTextDocument Sample.in_outer) (initial two_roots)).1).1.

Definition both_closed : WorkspaceFoldersChangeEvent :=
  Build_WorkspaceFoldersChangeEvent [] [Sample.outer; side].

End Example.


(** * Properties *)

(** ** The built-in [Map] *)

Section JsMapFacts.
Context {V : Type}.
Implicit Types (m : JsMap V) (k : string) (v : V).

Lemma Map_find_Some k m i e :
  Map_find k m = Some (i, e) →
  ∃ v, e = Some (k, v) ∧ m !! i = Some (Some (k, v)) ∧
       ∀ j y, m !! j = Some y → j < i → ¬ holds k y.
Proof.
  unfold Map_find. rewrite list_find_Some. intros (Hi & Hk & Hmin).
  destruct e as [[k' v]|]; [|done]. unfold holds in Hk. simpl in Hk.
  injection Hk as ->. eauto.
Qed.

Lemma Map_find_None k m i v : Map_find k m = None → m !! i ≠ Some (Some (k, v)).
Proof.
  unfold Map_find. rewrite list_find_None, Forall_forall. intros Hno Hi.
  apply (Hno (Some (k, v))); [by eapply list_elem_of_lookup_2 | done].
Qed.

Lemma Map_find_intro k v m i :
  m !! i = Some (Some (k, v)) →
  (∀ j w, j < i → m !! j ≠ Some (Some (k, w))) →
  Map_find k m = Some (i, Some (k, v)).
Proof.
  intros Hi Hmin. unfold Map_find. apply list_find_Some. split_and!; [done..|].
  intros j [[k' w]|] Hj Hlt; unfold holds; simpl; [|done].
  intros [= ->]. by eapply Hmin.
Qed.

Lemma Map_get_Some k m v :
  Map_get k m = Some v ↔ ∃ i, Map_find k m = Some (i, Some (k, v)).
Proof.
  unfold Map_get. split.
  - destruct (Map_find k m) as [[i e]|] eqn:Hf; [|done]. simpl.
    destruct (Map_find_Some _ _ _ _ Hf) as (w & -> & _). simpl. intros [= ->]. eauto.
  - intros [i ->]. done.
Qed.

Lemma Map_get_None k m : Map_get k m = None ↔ Map_find k m = None.
Proof.
  unfold Map_get. destruct (Map_find k m) as [[i e]|] eqn:Hf; [|done].
  destruct (Map_find_Some _ _ _ _ Hf) as (w & -> & _). done.
Qed.

Lemma Map_has_get k m : Map_has k m = bool_decide (is_Some (Map_get k m)).
Proof.
  unfold Map_has. apply bool_decide_ext.
  destruct (Map_get k m) as [v|] eqn:Hg.
  - apply Map_get_Some in Hg as [i ->]. split; eauto.
  - apply Map_get_None in Hg as ->. split; intros [? [=]].
Qed.

Lemma Map_has_false k m : Map_has k m = false ↔ Map_get k m = None.
Proof.
  rewrite Map_has_get, bool_decide_eq_false, <- eq_None_not_Some. done.
Qed.

Lemma Map_has_true k m : Map_has k m = true ↔ is_Some (Map_get k m).
Proof. rewrite Map_has_get, bool_decide_eq_true. done. Qed.

Lemma Map_get_lookup k m v : Map_get k m = Some v → ∃ i, m !! i = Some (Some (k, v)).
Proof.
  intros [i Hf]%Map_get_Some. apply Map_find_Some in Hf as (w & [= ->] & Hi & _). eauto.
Qed.

Lemma Map_get_values k m v : Map_get k m = Some v → v ∈ Map_values m.
Proof.
  intros [i Hi]%Map_get_lookup. unfold Map_values.
  apply list_elem_of_fmap. exists (k, v). split; [done|].
  apply list_elem_of_omap. exists (Some (k, v)). split; [|done].
  by eapply list_elem_of_lookup_2.
Qed.

Lemma Map_values_lookup m v : v ∈ Map_values m ↔ ∃ i k, m !! i = Some (Some (k, v)).
Proof.
  unfold Map_values. rewrite list_elem_of_fmap. split.
  - intros ([k w] & -> & Hin). apply list_elem_of_omap in Hin as (e & Hin & He).
    simpl in He. subst e. apply list_elem_of_lookup_1 in Hin as [i Hi]. eauto.
  - intros (i & k & Hi). exists (k, v). split; [done|].
    apply list_elem_of_omap. exists (Some (k, v)). split; [|done].
    by eapply list_elem_of_lookup_2.
Qed.

Lemma Map_get_wf k m i v : Map_wf m → m !! i = Some (Some (k, v)) → Map_get k m = Some v.
Proof.
  intros Hwf Hi. destruct (Map_get k m) as [w|] eqn:Hg.
  - apply Map_get_lookup in Hg as [j Hj]. pose proof (Hwf _ _ _ _ _ Hi Hj) as ->.
    congruence.
  - apply Map_get_None in Hg. by eapply Map_find_None in Hg.
Qed.

Lemma Map_get_set_eq k v m : Map_get k (Map_set k v m) = Some v.
Proof.
  apply Map_get_Some. unfold Map_set.
  destruct (Map_find k m) as [[i e]|] eqn:Hf.
  - destruct (Map_find_Some _ _ _ _ Hf) as (w & -> & Hi & Hmin).
    exists i. apply Map_find_intro.
    + apply list_lookup_insert_eq. by eapply lookup_lt_Some.
    + intros j u Hlt. rewrite list_lookup_insert_ne by lia. intros Hj.
      eapply Hmin; [done..|]. done.
  - exists (length m). apply Map_find_intro.
    + by rewrite list_lookup_middle.
    + intros j u Hlt. rewrite lookup_app_l by done. by eapply Map_find_None.
Qed.

Lemma Map_set_lookup_ne k k' v m i w :
  k ≠ k' → Map_set k v m !! i = Some (Some (k', w)) ↔ m !! i = Some (Some (k', w)).
Proof.
  intros Hne. unfold Map_set. destruct (Map_find k m) as [[n e]|] eqn:Hf.
  - destruct (Map_find_Some _ _ _ _ Hf) as (u & -> & Hn & _).
    destruct (decide (n = i)) as [->|].
    + rewrite list_lookup_insert_eq by (by eapply lookup_lt_Some). rewrite Hn.
      split; intros [= ?]; congruence.
    + by rewrite list_lookup_insert_ne.
  - rewrite lookup_app. destruct (m !! i) eqn:Hi; [done|].
    destruct (i - length m) as [|[|?]]; simpl; split; intros [= ?]; congruence.
Qed.

Lemma Map_delete_lookup_ne k k' m i w :
  k ≠ k' → Map_delete k m !! i = Some (Some (k', w)) ↔ m !! i = Some (Some (k', w)).
Proof.
  intros Hne. unfold Map_delete. destruct (Map_find k m) as [[n e]|] eqn:Hf; [|done].
  destruct (Map_find_Some _ _ _ _ Hf) as (u & -> & Hn & _).
  destruct (decide (n = i)) as [->|].
  - rewrite list_lookup_insert_eq by (by eapply lookup_lt_Some). rewrite Hn.
    split; intros [= ?]; congruence.
  - by rewrite list_lookup_insert_ne.
Qed.

Lemma Map_get_ext_ne k' m m' :
  (∀ i w, m' !! i = Some (Some (k', w)) ↔ m !! i = Some (Some (k', w))) →
  Map_get k' m' = Map_get k' m.
Proof.
  intros Hext. destruct (Map_get k' m) as [v|] eqn:Hg.
  - apply Map_get_Some in Hg as [i Hf].
    apply Map_find_Some in Hf as (w & [= <-] & Hi & Hmin).
    apply Map_get_Some. exists i. apply Map_find_intro; [by apply Hext|].
    intros j u Hlt Hj%Hext. by eapply Hmin.
  - apply Map_get_None in Hg. apply Map_get_None.
    destruct (Map_find k' m') as [[i e]|] eqn:Hf; [|done].
    apply Map_find_Some in Hf as (w & -> & Hi%Hext & _).
    by eapply Map_find_None in Hg.
Qed.

Lemma Map_get_set_ne k k' v m : k ≠ k' → Map_get k' (Map_set k v m) = Map_get k' m.
Proof. intros Hne. apply Map_get_ext_ne. intros. by apply Map_set_lookup_ne. Qed.

Lemma Map_get_delete_ne k k' m : k ≠ k' → Map_get k' (Map_delete k m) = Map_get k' m.
Proof. intros Hne. apply Map_get_ext_ne. intros. by apply Map_delete_lookup_ne. Qed.

Lemma Map_delete_lookup_eq k m i w :
  Map_wf m → Map_delete k m !! i ≠ Some (Some (k, w)).
Proof.
  intros Hwf. unfold Map_delete. destruct (Map_find k m) as [[n e]|] eqn:Hf.
  - destruct (Map_find_Some _ _ _ _ Hf) as (u & -> & Hn & _).
    destruct (decide (n = i)) as [->|].
    + rewrite list_lookup_insert_eq by (by eapply lookup_lt_Some). done.
    + rewrite list_lookup_insert_ne by done. intros Hi.
      pose proof (Hwf _ _ _ _ _ Hn Hi). done.
  - by eapply Map_find_None.
Qed.

Lemma Map_get_delete_eq k m : Map_wf m → Map_get k (Map_delete k m) = None.
Proof.
  intros Hwf. destruct (Map_get k (Map_delete k m)) as [v|] eqn:Hg; [|done].
  apply Map_get_lookup in Hg as [i Hi]. by apply Map_delete_lookup_eq in Hi.
Qed.

Lemma Map_wf_nil : Map_wf (V:=V) [].
Proof. intros i j k v w Hi. by rewrite lookup_nil in Hi. Qed.

Lemma Map_wf_delete k m : Map_wf m → Map_wf (Map_delete k m).
Proof.
  intros Hwf i j k' v w Hi Hj. destruct (decide (k = k')) as [->|Hne].
  - by apply Map_delete_lookup_eq in Hi.
  - apply Map_delete_lookup_ne in Hi, Hj; [|done..]. eauto.
Qed.

Lemma Map_wf_set k v m : Map_wf m → Map_wf (Map_set k v m).
Proof.
  intros Hwf i j k' u w Hi Hj. destruct (decide (k = k')) as [<-|Hne].
  - revert Hi Hj. unfold Map_set. destruct (Map_find k m) as [[n e]|] eqn:Hf.
    + destruct (Map_find_Some _ _ _ _ Hf) as (x & -> & Hn & _).
      assert (n < length m) by (by eapply lookup_lt_Some).
      rewrite !list_lookup_insert_Some. intros [(-> & _)|(? & Hi)] [(-> & _)|(? & Hj)];
        try done.
      * pose proof (Hwf _ _ _ _ _ Hn Hj). done.
      * pose proof (Hwf _ _ _ _ _ Hn Hi). done.
      * eauto.
    + rewrite !lookup_app_Some. intros [Hi|[? Hi]] [Hj|[? Hj]].
      * eauto.
      * by eapply Map_find_None in Hf.
      * by eapply Map_find_None in Hf.
      * apply lookup_lt_Some in Hi, Hj. simpl in *. lia.
  - apply Map_set_lookup_ne in Hi, Hj; [|done..]. eauto.
Qed.

End JsMapFacts.

(** ** Running a task *)

Lemma run_bind {A B} oracle (t : Task A) (f : A → Task B) s :
  run oracle (t ≫= f) s = continue_with oracle f (run oracle t s).
Proof.
  change (t ≫= f) with (bind t f). revert s.
  induction t as [a|e| |k IH|g k IH|c k IH]; intros s; simpl; try done.
  destruct c; simpl; apply IH.
Qed.

Lemma run_await_async {A} oracle (t : Task A) s :
  run oracle (await_async t) s = run oracle t s.
Proof.
  unfold await_async. rewrite run_bind. by destruct (run oracle t s) as [s' [a|e|]].
Qed.

(** ** Binary discovery *)

Lemma findGrain_from_none (h : Host) (bins : list string) :
  (∀ bin, bin ∈ bins → which_sync h bin = None) →
  findGrain_from h bins
  = inl (Error "Unable to locate any Grain binary. Did you install it?").
Proof.
  induction bins as [|bin rest IH]; intros Hnone; simpl; [done|].
  rewrite (Hnone bin) by apply list_elem_of_here.
  apply IH. intros b Hb. apply Hnone. by apply list_elem_of_further.
Qed.

Lemma findGrain_from_first (h : Host) (bins : list string) i bin path :
  bins !! i = Some bin → which_sync h bin = Some path →
  (∀ j b, j < i → bins !! j = Some b → which_sync h b = None) →
  findGrain_from h bins = inr path.
Proof.
  revert i. induction bins as [|b rest IH]; intros i Hi Hp Hmin; [done|].
  destruct i as [|i]; simpl in *.
  - injection Hi as ->. by rewrite Hp.
  - rewrite (Hmin 0 b) by (done || lia). apply (IH i); [done..|].
    intros j b' Hlt Hj. apply (Hmin (S j) b'); [lia|done].
Qed.

Lemma first_located (h : Host) (bins : list string) :
  (∃ bin, bin ∈ bins ∧ is_Some (which_sync h bin)) →
  ∃ i bin path, bins !! i = Some bin ∧ which_sync h bin = Some path ∧
    ∀ j b, j < i → bins !! j = Some b → which_sync h b = None.
Proof.
  induction bins as [|b rest IH]; intros (bin & Hin & Hsome).
  - by apply elem_of_nil in Hin.
  - destruct (which_sync h b) as [path|] eqn:Hb.
    + exists 0, b, path. split_and!; [done..|]. intros; lia.
    + destruct IH as (i & bin' & path & Hi & Hp & Hmin).
      { exists bin. split; [|done]. apply elem_of_cons in Hin as [->|]; [|done].
        rewrite Hb in Hsome. by destruct Hsome. }
      exists (S i), bin', path. split_and!; [done..|].
      intros [|j] b' Hlt Hj; simpl in Hj; [congruence|]. apply (Hmin j); [lia|done].
Qed.

(** C6. [findGrain] is a synchronous function: its result is a value or
    a thrown error, never a promise.  When none of the four known binary
    names is found by [which.sync] it throws the [Error]; when some name
    is found it returns the path of the first one found, in the order
    grain, grain-mac-x64, grain-linux-x64, grain-win-x64. *)
Theorem findGrain_first_or_throws (h : Host) :
  grainBinaries = ["grain"; "grain-mac-x64"; "grain-linux-x64"; "grain-win-x64"] ∧
  ((∀ bin, bin ∈ grainBinaries → which_sync h bin = None) →
   findGrain h = inl (Error "Unable to locate any Grain binary. Did you install it?")) ∧
  ((∃ bin, bin ∈ grainBinaries ∧ is_Some (which_sync h bin)) →
   ∃ i bin path,
     grainBinaries !! i = Some bin ∧ which_sync h bin = Some path ∧
     (∀ j b, j < i → grainBinaries !! j = Some b → which_sync h b = None) ∧
     findGrain h = inr path).
Proof.
  split_and!; [done|apply findGrain_from_none|].
  intros Hsome. destruct (first_located _ _ Hsome) as (i & bin & path & Hi & Hp & Hmin).
  exists i, bin, path. split_and!; [done..|]. by eapply findGrain_from_first.
Qed.

Lemma findGrain_first_or_throws_witness :
  (∃ i bin path,
     grainBinaries !! i = Some bin ∧ which_sync Sample.on bin = Some path ∧
     (∀ j b, j < i → grainBinaries !! j = Some b → which_sync Sample.on b = None) ∧
     findGrain Sample.on = inr path) ∧
  findGrain Sample.nowhere
  = inl (Error "Unable to locate any Grain binary. Did you install it?").
Proof.
  split.
  - apply (findGrain_first_or_throws Sample.on).
    exists "grain-win-x64". split; [set_solver|]. by eexists.
  - apply (findGrain_first_or_throws Sample.nowhere). done.
Defined.

(** ** Opening a document *)


Lemma didOpenTextDocument_workspace oracle document s inner :
  document_languageId document = languageId →
  workspace_getWorkspaceFolder (host s) (document_uri document) = Some inner →
  run oracle (didOpenTextDocument document) s =
  continue_with oracle
    (λ outer, match outer with
              | Some folder =>
                  await_async (addWorkspaceClient folder);;
                  onDidChangeConfiguration (WorkspaceHandler folder)
              | None => Throw (TypeError "Cannot read properties of undefined (reading 'uri')")
              end)
    (run oracle (getOuterMostWorkspaceFolder inner) s).
Proof.
  intros Hlang Hsome. unfold didOpenTextDocument.
  rewrite bool_decide_eq_false_2 by (by intros []). cbn [run]. rewrite Hsome.
  by rewrite run_bind.
Qed.

(** ** Strings *)

Lemma append_cons c s t : String c s +:+ t = String c (s +:+ t).
Proof. done. Qed.

Lemma length_append s t : String.length (s +:+ t) = String.length s + String.length t.
Proof. induction s as [|c s IH]; [done|]. rewrite append_cons. simpl. by rewrite IH. Qed.

Lemma substring_all t : String.substring 0 (String.length t) t = t.
Proof. induction t as [|c t IH]; [done|]. simpl. by rewrite IH. Qed.

Lemma substring_append_r s t :
  String.substring (String.length s) (String.length t) (s +:+ t) = t.
Proof. induction s as [|c s IH]; [apply substring_all|]. by rewrite append_cons. Qed.

Lemma substring_append_l s t : String.substring 0 (String.length s) (s +:+ t) = s.
Proof.
  induction s as [|c s IH]; [by destruct t|]. rewrite append_cons. simpl. by rewrite IH.
Qed.

Lemma substring_split s k :
  k ≤ String.length s →
  s = String.substring 0 k s +:+ String.substring k (String.length s - k) s.
Proof.
  revert k. induction s as [|c s IH]; intros [|k] Hk; simpl in *; try done; try lia.
  - by rewrite substring_all.
  - rewrite append_cons. f_equal. apply IH. lia.
Qed.

Lemma endsWith_append s suf : Js.endsWith (s +:+ suf) suf = true.
Proof.
  unfold Js.endsWith. rewrite length_append. rewrite decide_True by lia.
  apply bool_decide_eq_true.
  replace (String.length s + String.length suf - String.length suf)
    with (String.length s) by lia.
  apply substring_append_r.
Qed.

(** [s.endsWith(suf)] holds exactly when [s] is some string followed by
    [suf]. *)
Lemma endsWith_spec s suf : Js.endsWith s suf = true ↔ ∃ x, s = x +:+ suf.
Proof.
  split; [|intros [x ->]; apply endsWith_append].
  unfold Js.endsWith. case_decide as Hle; [|done]. intros Heq%bool_decide_eq_true.
  exists (String.substring 0 (String.length s - String.length suf) s).
  pose proof (substring_split s (String.length s - String.length suf)) as Hsplit.
  replace (String.length s - (String.length s - String.length suf))
    with (String.length suf) in Hsplit by lia.
  rewrite Heq in Hsplit. apply Hsplit. lia.
Qed.

Lemma chars_append s t : chars (s +:+ t) = chars s ++ chars t.
Proof. induction s as [|c s IH]; [done|]. rewrite append_cons. simpl. by f_equal. Qed.

Lemma replaceAll_backslash_chars s : "\"%char ∉ chars (Js.replaceAll_backslash s).
Proof.
  induction s as [|c s IH]; simpl; [by intros ?%elem_of_nil|].
  intros [Heq|Hin]%elem_of_cons; [|done].
  case_bool_decide; [done|congruence].
Qed.

Lemma replaceAll_backslash_length s :
  String.length (Js.replaceAll_backslash s) = String.length s.
Proof. induction s as [|c s IH]; simpl; congruence. Qed.

Lemma replaceAll_backslash_id s :
  "\"%char ∉ chars s → Js.replaceAll_backslash s = s.
Proof.
  induction s as [|c s IH]; simpl; [done|]. rewrite not_elem_of_cons. intros [Hc Hs].
  rewrite bool_decide_eq_false_2 by congruence. by rewrite IH.
Qed.

(** [s.split(" ").join(" ")] is [s]. *)
Lemma join_split s : Js.join_space (Js.split_space s) = s.
Proof.
  unfold Js.join_space. induction s as [|c s IH]; [done|]. cbn [Js.split_space].
  case_bool_decide as Hc.
  - subst c. destruct (Js.split_space s) as [|w ws] eqn:Hsplit.
    + simpl in *. by subst s.
    + change (String.concat " " ("" :: w :: ws)) with (" " +:+ String.concat " " (w :: ws)).
      by rewrite IH.
  - destruct (Js.split_space s) as [|w ws] eqn:Hsplit.
    + simpl in *. by subst s.
    + destruct ws as [|w' ws].
      * simpl in *. by subst.
      * change (String.concat " " (String c w :: w' :: ws))
          with (String c (w +:+ " " +:+ String.concat " " (w' :: ws))).
        f_equal. exact IH.
Qed.

Lemma split_space_nonempty s : Js.split_space s ≠ [].
Proof.
  induction s as [|c s IH]; simpl; [done|]. case_bool_decide; [done|].
  by destruct (Js.split_space s).
Qed.

Lemma split_space_no_space s w : w ∈ Js.split_space s → " "%char ∉ chars w.
Proof.
  revert w. induction s as [|c s IH]; simpl; intros w.
  - intros ->%list_elem_of_singleton. by intros ?%elem_of_nil.
  - case_bool_decide as Hc.
    + intros [->|Hw]%elem_of_cons; [by intros ?%elem_of_nil|by apply IH].
    + destruct (Js.split_space s) as [|w0 ws].
      * intros ->%list_elem_of_singleton. simpl. rewrite not_elem_of_cons.
        split; [congruence|by intros ?%elem_of_nil].
      * intros [->|Hw]%elem_of_cons.
        -- simpl. rewrite not_elem_of_cons. split; [congruence|].
           apply IH, list_elem_of_here.
        -- apply IH. by apply list_elem_of_further.
Qed.

Lemma replace_EXE_suffix_lowered stem :
  Js.replace_EXE_suffix (stem +:+ ".EXE") = stem +:+ ".exe".
Proof.
  unfold Js.replace_EXE_suffix. rewrite endsWith_append, length_append. simpl.
  replace (String.length stem + 4 - 4) with (String.length stem) by lia.
  by rewrite substring_append_l.
Qed.

Lemma replace_EXE_suffix_none s : Js.endsWith (Js.replace_EXE_suffix s) ".EXE" = false.
Proof.
  unfold Js.replace_EXE_suffix. destruct (Js.endsWith s ".EXE") eqn:Hends; [|done].
  apply endsWith_spec in Hends as [stem ->]. rewrite length_append. simpl.
  replace (String.length stem + 4 - 4) with (String.length stem) by lia.
  rewrite substring_append_l. unfold Js.endsWith. rewrite length_append. simpl.
  rewrite decide_True by lia. apply bool_decide_eq_false.
  replace (String.length stem + 4 - 4) with (String.length stem) by lia.
  change 4 with (String.length ".exe"). by rewrite substring_append_r.
Qed.

(** ** Nested workspace folders *)

Lemma insert_by_length_elem x y (l : list string) : y ∈ insert_by_length x l ↔ y = x ∨ y ∈ l.
Proof.
  induction l as [|z l IH]; simpl.
  - rewrite list_elem_of_singleton, elem_of_nil. tauto.
  - case_decide; rewrite ?elem_of_cons, ?IH; tauto.
Qed.

Lemma sort_by_length_elem y (l : list string) : y ∈ sort_by_length l ↔ y ∈ l.
Proof.
  induction l as [|x l IH]; simpl; [done|].
  rewrite insert_by_length_elem, elem_of_cons, IH. done.
Qed.

Lemma insert_by_length_sorted x l :
  StronglySorted shorter l → StronglySorted shorter (insert_by_length x l).
Proof.
  induction 1 as [|y l Hl IH Hy]; simpl.
  - repeat constructor.
  - case_decide.
    + constructor; [by constructor|]. constructor; [done|].
      eapply Forall_impl; [exact Hy|]. unfold shorter. intros; lia.
    + constructor; [done|]. apply Forall_forall. intros z Hz.
      apply insert_by_length_elem in Hz as [->|Hz].
      * unfold shorter. lia.
      * by eapply Forall_forall in Hy.
Qed.

Lemma sort_by_length_sorted l : StronglySorted shorter (sort_by_length l).
Proof.
  induction l as [|x l IH]; simpl; [constructor|]. by apply insert_by_length_sorted.
Qed.

Lemma startsWith_refl s : Js.startsWith s s = true.
Proof. unfold Js.startsWith. induction s as [|c s IH]; simpl; [done|]. by destruct (ascii_dec c c). Qed.

(** The loop returns what the host answers for the first, hence
    shortest, element that is a prefix of the folder's directory path. *)
Lemma outermost_in_first h folder (sorted : list string) :
  StronglySorted shorter sorted →
  dirpathFromUri (folder_uri folder) ∈ sorted →
  ∃ element, element ∈ sorted ∧
    Js.startsWith (dirpathFromUri (folder_uri folder)) element = true ∧
    outermost_in h folder sorted = workspace_getWorkspaceFolder h (Uri_parse h element) ∧
    ∀ other, other ∈ sorted →
      Js.startsWith (dirpathFromUri (folder_uri folder)) other = true →
      shorter element other.
Proof.
  induction 1 as [|x l Hl IH Hx]; intros Hin; [by apply elem_of_nil in Hin|].
  simpl. destruct (Js.startsWith _ x) eqn:Hpre.
  - exists x. split_and!; [apply list_elem_of_here|done..|].
    intros other [->|Ho]%elem_of_cons _; [unfold shorter; lia|].
    by eapply Forall_forall in Hx.
  - apply elem_of_cons in Hin as [Heq|Hin].
    { rewrite <- Heq, startsWith_refl in Hpre. done. }
    destruct (IH Hin) as (element & He & Hp & Hout & Hmin).
    exists element. split_and!; [by apply list_elem_of_further|done..|].
    intros other [->|Ho]%elem_of_cons Hop; [congruence|]. by apply Hmin.
Qed.

Lemma sortWorkspaceFolders_run oracle s :
  cache_coherent s →
  ∃ s', run oracle sortWorkspaceFolders s
        = (s', Returned (sort_by_length
             ((λ folder, dirpathFromUri (folder_uri folder)) <$> current_folders (host s))))
      ∧ host s' = host s ∧ cache_coherent s'
      ∧ fileClients s' = fileClients s ∧ workspaceClients s' = workspaceClients s.
Proof.
  intros Hc. unfold sortWorkspaceFolders. simpl. case_decide as Hlen.
  - unfold current_folders.
    destruct (workspace_workspaceFolders (host s)) as [fs|] eqn:Hfs; simpl.
    + eexists. split_and!; [reflexivity|done| |done|done].
      right. simpl. unfold current_folders. by rewrite Hfs.
    + eexists. split_and!; [reflexivity|done| |done|done]. by left.
  - destruct Hc as [Hc|Hc]; [by rewrite Hc in Hlen|].
    exists s. split_and!; [simpl; by rewrite <- Hc|done|by right|done|done].
Qed.

(** The directory path of a URI is the URI with a slash put after it
    unless it ends in one. *)
Lemma dirpathFromUri_spec uri :
  Js.endsWith (dirpathFromUri uri) "/" = true ∧
  dirpathFromUri uri
  = (if Js.endsWith (Uri_toString uri) "/" then Uri_toString uri
     else Uri_toString uri +:+ "/").
Proof.
  unfold dirpathFromUri. destruct (Js.endsWith (Uri_toString uri) "/") eqn:Hends; simpl;
    [done|]. split; [apply endsWith_append|done].
Qed.

(** [s.startsWith(p)] holds exactly when [s] is [p] followed by some
    string. *)
Lemma startsWith_spec s p : Js.startsWith s p = true ↔ ∃ rest, s = p +:+ rest.
Proof.
  unfold Js.startsWith. revert p. induction s as [|c s IH]; intros p.
  - destruct p as [|d p]; simpl.
    + split; [by exists ""|done].
    + split; [done|]. by intros [rest ?].
  - destruct p as [|d p]; simpl.
    + split; [by eexists|done].
    + destruct (ascii_dec d c) as [->|Hne].
      * rewrite IH. split; intros [rest Hrest]; exists rest.
        -- by rewrite append_cons, <- Hrest.
        -- rewrite append_cons in Hrest. by injection Hrest.
      * split; [done|]. intros [rest Hrest]. rewrite append_cons in Hrest.
        injection Hrest as -> _. done.
Qed.

(** C8. The directory path of a folder is its URI with a trailing
    slash: the URI itself when it ends in a slash, and the URI followed
    by a slash otherwise.  For a folder of the workspace,
    [getOuterMostWorkspaceFolder] returns a folder of the workspace whose
    directory path is a prefix of the directory path of the given
    folder, so that the given folder's path is the returned folder's
    path, slash included, followed by further segments; the returned
    path is shortest among the current workspace folders with that
    property; and for a Grain document of the given folder,
    [didOpenTextDocument] adds a client for that outermost folder and
    for no other. *)
Theorem getOuterMostWorkspaceFolder_shortest_prefix
    (oracle : Oracle) (s : State) (folder : WorkspaceFolder) :
  folder ∈ current_folders (host s) →
  cache_coherent s →
  host_resolves (host s) →
  ∃ s' outer,
    run oracle (getOuterMostWorkspaceFolder folder) s = (s', Returned (Some outer)) ∧
    outer ∈ current_folders (host s) ∧
    Js.startsWith (dirpathFromUri (folder_uri folder))
                  (dirpathFromUri (folder_uri outer)) = true ∧
    (∀ other, other ∈ current_folders (host s) →
       Js.startsWith (dirpathFromUri (folder_uri folder))
                     (dirpathFromUri (folder_uri other)) = true →
       String.length (dirpathFromUri (folder_uri outer))
       ≤ String.length (dirpathFromUri (folder_uri other))) ∧
    (∀ document,
       document_languageId document = languageId →
       workspace_getWorkspaceFolder (host s) (document_uri document) = Some folder →
       run oracle (didOpenTextDocument document) s
       = run oracle (await_async (addWorkspaceClient outer);;
                     onDidChangeConfiguration (WorkspaceHandler outer)) s') ∧
    (∀ f, f = folder ∨ f = outer →
       Js.endsWith (dirpathFromUri (folder_uri f)) "/" = true ∧
       dirpathFromUri (folder_uri f)
       = (if Js.endsWith (Uri_toString (folder_uri f)) "/" then Uri_toString (folder_uri f)
          else Uri_toString (folder_uri f) +:+ "/")) ∧
    (∃ stem rest,
       dirpathFromUri (folder_uri outer) = stem +:+ "/" ∧
       dirpathFromUri (folder_uri folder) = stem +:+ "/" +:+ rest).
Proof.
  intros Hin Hc Hres.
  destruct (sortWorkspaceFolders_run oracle s Hc) as (s' & Hrun & Hhost & _).
  set (paths := (λ f, dirpathFromUri (folder_uri f)) <$> current_folders (host s)) in *.
  destruct (outermost_in_first (host s) folder (sort_by_length paths))
    as (element & He & Hpre & Hout & Hmin).
  { apply sort_by_length_sorted. }
  { apply sort_by_length_elem. by apply (list_elem_of_fmap_2 (λ f, dirpathFromUri (folder_uri f))). }
  apply sort_by_length_elem, list_elem_of_fmap in He as (outer & -> & Houter).
  assert (Hfound : run oracle (getOuterMostWorkspaceFolder folder) s
                   = (s', Returned (Some outer))).
  { unfold getOuterMostWorkspaceFolder. rewrite run_bind, Hrun. simpl.
    by rewrite Hhost, Hout, Hres. }
  exists s', outer. split_and!; [done..| | | |].
  - intros other Ho Hop. apply Hmin; [|done].
    apply sort_by_length_elem.
    by apply (list_elem_of_fmap_2 (λ f, dirpathFromUri (folder_uri f))).
  - intros document Hlang Hfolder.
    by rewrite (didOpenTextDocument_workspace _ _ _ folder), Hfound.
  - intros f _. apply dirpathFromUri_spec.
  - destruct (dirpathFromUri_spec (folder_uri outer)) as [[stem Hstem]%endsWith_spec _].
    apply startsWith_spec in Hpre as [rest Hrest]. exists stem, rest.
    split; [done|]. rewrite Hrest, Hstem. clear. induction stem as [|c stem IH]; [done|].
    rewrite !append_cons. by f_equal.
Qed.

Lemma getOuterMostWorkspaceFolder_shortest_prefix_witness :
  (Sample.inner ∈ current_folders (host (initial Sample.on)) ∧
   cache_coherent (initial Sample.on) ∧
   host_resolves (host (initial Sample.on)) ∧
   ∃ s' outer,
     run always_fulfilled (getOuterMostWorkspaceFolder Sample.inner) (initial Sample.on)
     = (s', Returned (Some outer)) ∧
     outer ∈ current_folders (host (initial Sample.on)) ∧
     Js.startsWith (dirpathFromUri (folder_uri Sample.inner))
                   (dirpathFromUri (folder_uri outer)) = true ∧
     (∀ other, other ∈ current_folders (host (initial Sample.on)) →
        Js.startsWith (dirpathFromUri (folder_uri Sample.inner))
                      (dirpathFromUri (folder_uri other)) = true →
        String.length (dirpathFromUri (folder_uri outer))
        ≤ String.length (dirpathFromUri (folder_uri other))) ∧
     (∀ document,
        document_languageId document = languageId →
        workspace_getWorkspaceFolder (host (initial Sample.on)) (document_uri document)
        = Some Sample.inner →
        run always_fulfilled (didOpenTextDocument document) (initial Sample.on)
        = run always_fulfilled (await_async (addWorkspaceClient outer);;
                                onDidChangeConfiguration (WorkspaceHandler outer)) s') ∧
     (∀ f, f = Sample.inner ∨ f = outer →
        Js.endsWith (dirpathFromUri (folder_uri f)) "/" = true ∧
        dirpathFromUri (folder_uri f)
        = (if Js.endsWith (Uri_toString (folder_uri f)) "/" then Uri_toString (folder_uri f)
           else Uri_toString (folder_uri f) +:+ "/")) ∧
     (∃ stem rest,
        dirpathFromUri (folder_uri outer) = stem +:+ "/" ∧
        dirpathFromUri (folder_uri Sample.inner) = stem +:+ "/" +:+ rest)) ∧
  (Example.pkg2 ∈ current_folders (host (initial Example.siblings)) ∧
   cache_coherent (initial Example.siblings) ∧
   host_resolves (host (initial Example.siblings)) ∧
   ∃ s' outer,
     run always_fulfilled (getOuterMostWorkspaceFolder Example.pkg2)
         (initial Example.siblings)
     = (s', Returned (Some outer)) ∧
     outer = Example.pkg2 ∧
     Js.startsWith (Uri_toString (folder_uri Example.pkg2))
                   (Uri_toString (folder_uri Example.pkg)) = true ∧
     Js.startsWith (dirpathFromUri (folder_uri Example.pkg2))
                   (dirpathFromUri (folder_uri Example.pkg)) = false).
Proof.
  split.
  - assert (Hin : Sample.inner ∈ current_folders (host (initial Sample.on)))
      by apply list_elem_of_here.
    assert (Hc : cache_coherent (initial Sample.on)) by (by left).
    assert (Hres : host_resolves (host (initial Sample.on))).
    { intros folder [->|[->|[]%elem_of_nil]%elem_of_cons]%elem_of_cons; reflexivity. }
    split_and!; [done..|].
    exact (getOuterMostWorkspaceFolder_shortest_prefix
             always_fulfilled (initial Sample.on) Sample.inner Hin Hc Hres).
  - assert (Hin : Example.pkg2 ∈ current_folders (host (initial Example.siblings)))
      by apply list_elem_of_further, list_elem_of_here.
    assert (Hc : cache_coherent (initial Example.siblings)) by (by left).
    assert (Hres : host_resolves (host (initial Example.siblings))).
    { intros folder [->|[->|[]%elem_of_nil]%elem_of_cons]%elem_of_cons; reflexivity. }
    split_and!; [done..|].
    destruct (getOuterMostWorkspaceFolder_shortest_prefix
                always_fulfilled (initial Example.siblings) Example.pkg2 Hin Hc Hres)
      as (s' & outer & Hrun & _).
    exists s', outer. split_and!; [exact Hrun| |reflexivity|reflexivity].
    assert (Hcomputed :
              (run always_fulfilled (getOuterMostWorkspaceFolder Example.pkg2)
                 (initial Example.siblings)).2 = Returned (Some Example.pkg2))
      by (vm_compute; reflexivity).
    rewrite Hrun in Hcomputed. by injection Hcomputed.
Defined.

(** ** Starting, adding and removing a client *)

(** Case analysis on the answer of the client library. *)
Ltac case_oracle :=
  match goal with
  | |- context [?oracle ?tr ?call] =>
      let T := type of oracle in
      unify T Oracle; destruct (oracle tr call) eqn:?
  end.

Lemma run_await_stop oracle c s :
  run oracle (await (client_stop c)) s = stop_outcome oracle s c.
Proof.
  unfold stop_outcome. simpl. by case_oracle.
Qed.

Lemma startFileClient_run oracle uri s :
  run oracle (startFileClient uri) s =
  match getLspCommand (host s) uri with
  | inl err => (s, Thrown err)
  | inr None => (s, Thrown not_iterable)
  | inr (Some (command, args)) =>
      start_outcome oracle s {| command := command; args := args |}
        {| documentSelector :=
             [{| filter_scheme := scheme uri; filter_language := languageId;
                 filter_pattern := globFromUri uri "" |}];
           workspaceFolder := None;
           errorHandler :=
             (λ item, {| handler_name := extensionName; handler_item := item;
                         handler_maxRestartCount := 5 |}) <$> grainStatusBarItem s |}
  end.
Proof.
  unfold startFileClient, start_outcome. simpl.
  destruct (getLspCommand (host s) uri) as [err|[[command args]|]]; simpl; [done| |done].
  destruct (grainStatusBarItem s); simpl; by case_oracle.
Qed.

Lemma startWorkspaceClient_run oracle folder s :
  run oracle (startWorkspaceClient folder) s =
  match getLspCommand (host s) (folder_uri folder) with
  | inl err => (s, Thrown err)
  | inr None => (s, Thrown not_iterable)
  | inr (Some (command, args)) =>
      start_outcome oracle s {| command := command; args := args |}
        {| documentSelector :=
             [{| filter_scheme := "file"; filter_language := languageId;
                 filter_pattern := globFromUri (folder_uri folder) "/**/*" |}];
           workspaceFolder := Some folder;
           errorHandler := None |}
  end.
Proof.
  unfold startWorkspaceClient, start_outcome. simpl.
  destruct (getLspCommand (host s) (folder_uri folder)) as [err|[[command args]|]];
    simpl; [done| |done].
  by case_oracle.
Qed.

Lemma addFileClient_run oracle uri s :
  run oracle (addFileClient uri) s =
  if Map_has (Uri_toString uri) (fileClients s) then (s, Returned tt)
  else match run oracle (startFileClient uri) s with
       | (s', Returned client) =>
           (set_fileClients (Map_set (Uri_toString uri) client) s', Returned tt)
       | (s', Thrown e) => (s', Thrown e)
       | (s', OutOfFuel) => (s', OutOfFuel)
       end.
Proof.
  unfold addFileClient. cbn [run]. destruct (Map_has _ _); cbn [negb run]; [done|].
  rewrite run_bind, run_await_async.
  by destruct (run oracle (startFileClient uri) s) as [s' [c|e|]].
Qed.

Lemma addWorkspaceClient_run oracle folder s :
  run oracle (addWorkspaceClient folder) s =
  if Map_has (Uri_toString (folder_uri folder)) (workspaceClients s) then (s, Returned tt)
  else match run oracle (startWorkspaceClient folder) s with
       | (s', Returned client) =>
           (set_workspaceClients (Map_set (Uri_toString (folder_uri folder)) client) s',
            Returned tt)
       | (s', Thrown e) => (s', Thrown e)
       | (s', OutOfFuel) => (s', OutOfFuel)
       end.
Proof.
  unfold addWorkspaceClient. cbn [run]. destruct (Map_has _ _); cbn [negb run]; [done|].
  rewrite run_bind, run_await_async.
  by destruct (run oracle (startWorkspaceClient folder) s) as [s' [c|e|]].
Qed.

Lemma removeFileClient_run oracle uri s :
  run oracle (removeFileClient uri) s =
  match Map_get (Uri_toString uri) (fileClients s) with
  | Some client =>
      match stop_outcome oracle s client with
      | (s', Returned _) => (set_fileClients (Map_delete (Uri_toString uri)) s', Returned tt)
      | (s', Thrown e) => (s', Thrown e)
      | (s', OutOfFuel) => (s', OutOfFuel)
      end
  | None => (s, Returned tt)
  end.
Proof.
  unfold removeFileClient. cbn [run]. destruct (Map_get _ _) as [client|]; [|done].
  rewrite run_bind, run_await_stop.
  by destruct (stop_outcome oracle s client) as [s' [[]|e|]].
Qed.

Lemma removeWorkspaceClient_run oracle folder s :
  run oracle (removeWorkspaceClient folder) s =
  match Map_get (Uri_toString (folder_uri folder)) (workspaceClients s) with
  | Some client =>
      match stop_outcome oracle s client with
      | (s', Returned _) =>
          (set_workspaceClients (Map_delete (Uri_toString (folder_uri folder))) s',
           Returned tt)
      | (s', Thrown e) => (s', Thrown e)
      | (s', OutOfFuel) => (s', OutOfFuel)
      end
  | None => (s, Returned tt)
  end.
Proof.
  unfold removeWorkspaceClient. cbn [run]. destruct (Map_get _ _) as [client|]; [|done].
  rewrite run_bind, run_await_stop.
  by destruct (stop_outcome oracle s client) as [s' [[]|e|]].
Qed.

Lemma start_outcome_client oracle s so co s' client :
  start_outcome oracle s so co = (s', Returned client) →
  client = length (clients s) ∧
  clients s' = clients s ++ [{| client_id := languageId; client_name := extensionName;
                                serverOptions := so; clientOptions := co |}].
Proof.
  unfold start_outcome. case_oracle; [|done]. by intros [= <- <-].
Qed.

(** C5, as the code has it.  A client started for a single file gets the
    error handler [new GrainErrorHandler(extensionName, item, 5)] when the
    status item exists, but a client started for a workspace folder is
    created from options without any [errorHandler]: no retry budget of
    the extension is configured for it. *)
Theorem workspace_client_lacks_errorHandler
    (oracle : Oracle) (s s' : State) (client : ClientId) :
  (∀ uri, run oracle (startFileClient uri) s = (s', Returned client) →
     ∃ lc, clients s' !! client = Some lc ∧
       errorHandler (clientOptions lc)
       = (λ item, {| handler_name := extensionName; handler_item := item;
                     handler_maxRestartCount := 5 |}) <$> grainStatusBarItem s) ∧
  (∀ folder, run oracle (startWorkspaceClient folder) s = (s', Returned client) →
     ∃ lc, clients s' !! client = Some lc ∧
       workspaceFolder (clientOptions lc) = Some folder ∧
       errorHandler (clientOptions lc) = None).
Proof.
  split.
  - intros uri. rewrite startFileClient_run.
    destruct (getLspCommand _ _) as [err|[[command args]|]]; [done| |done].
    intros [-> ->]%start_outcome_client. eexists. split; [apply list_lookup_middle; done|done].
  - intros folder. rewrite startWorkspaceClient_run.
    destruct (getLspCommand _ _) as [err|[[command args]|]]; [done| |done].
    intros [-> ->]%start_outcome_client. eexists. split; [apply list_lookup_middle; done|done].
Qed.

Lemma workspace_client_lacks_errorHandler_witness :
  ∃ s' lc,
    run always_fulfilled (startWorkspaceClient Sample.outer) (initial Sample.on)
    = (s', Returned 0) ∧
    clients s' !! 0 = Some lc ∧
    workspaceFolder (clientOptions lc) = Some Sample.outer ∧
    errorHandler (clientOptions lc) = None.
Proof.
  eexists.
  assert (Hrun : run always_fulfilled (startWorkspaceClient Sample.outer) (initial Sample.on)
                 = (_, Returned 0)) by reflexivity.
  destruct (proj2 (workspace_client_lacks_errorHandler always_fulfilled _ _ _) _ Hrun)
    as (lc & Hlc & Hf & He).
  exists lc. split_and!; [exact Hrun|done..].
Defined.

(** ** The language server disabled *)


Lemma state_eta s : set_workspaceFolders (workspaceFolders s) s = s.
Proof. by destruct s. Qed.




(** ** Deactivation *)

Lemma for_values_unfold m body fuel i oracle s :
  run oracle (for_values m body fuel i) s =
  match m s !! i with
  | None => (s, Returned tt)
  | Some e =>
      match fuel with
      | 0 => (s, OutOfFuel)
      | S fuel' =>
          continue_with oracle (λ _, for_values m body fuel' (S i))
            (run oracle (match e with Some (_, v) => body v | None => Ret tt end) s)
      end
  end.
Proof.
  destruct fuel as [|fuel']; cbn [for_values run]; destruct (m s !! i) as [e|]; try done.
  apply run_bind.
Qed.

(** The loop over a registry that stops every client it visits, run
    alone: it only extends the trace, with calls of [stop()] on values of
    the registry and their answers; it ends when the fuel covers the
    entries left; and it has called [stop()] on every value from the
    position [i] on when it returns. *)
Lemma for_values_stop oracle (m : State → JsMap ClientId) :
  (∀ ev s, m (log ev s) = m s) →
  ∀ fuel i s, length (m s) ≤ i + fuel →
    ∃ s' r evs,
      run oracle (for_values m (λ client, await (client_stop client)) fuel i) s = (s', r) ∧
      s' = foldl (λ s ev, log ev s) s evs ∧
      r ≠ OutOfFuel ∧
      (∀ ev, ev ∈ evs → ∃ c, c ∈ Map_values (drop i (m s)) ∧
         (ev = EvCall (client_stop c) ∨ ∃ a, ev = EvSettled (client_stop c) a)) ∧
      (r = Returned tt → ∀ c, c ∈ Map_values (drop i (m s)) → EvCall (client_stop c) ∈ evs) ∧
      (stops_fulfil oracle → r = Returned tt).
Proof.
  intros Hm fuel. induction fuel as [|fuel IH]; intros i s Hlen; rewrite for_values_unfold.
  - rewrite lookup_ge_None_2 by lia. exists s, (Returned tt), []. split_and!; try done.
    + by intros ev ?%elem_of_nil.
    + intros _ c. rewrite drop_ge by lia. by intros ?%elem_of_nil.
  - destruct (m s !! i) as [e|] eqn:Hi.
    2:{ exists s, (Returned tt), []. split_and!; try done.
        - by intros ev ?%elem_of_nil.
        - intros _ c. rewrite drop_ge by (by apply lookup_ge_None_1).
          by intros ?%elem_of_nil. }
    rewrite (drop_S _ _ _ Hi). destruct e as [[k c]|].
    + assert (Hhere : c ∈ Map_values (Some (k, c) :: drop (S i) (m s)))
        by apply list_elem_of_here.
      rewrite run_await_stop. unfold stop_outcome.
      destruct (oracle _ (client_stop c)) as [|err] eqn:Hstop; cbn [continue_with].
      * destruct (IH (S i) (log (EvSettled (client_stop c) Fulfilled)
                             (log (EvCall (client_stop c)) s)))
          as (s' & r & evs & Hrun & Hs' & Hfuel & Honly & Hall & Hok).
        { rewrite !Hm. lia. }
        rewrite !Hm in Hall, Honly.
        exists s', r, (EvCall (client_stop c) :: EvSettled (client_stop c) Fulfilled :: evs).
        split_and!; [done..| | |done].
        -- intros ev [->|[->|Hev]%elem_of_cons]%elem_of_cons; [by eauto..|].
           destruct (Honly ev Hev) as (c' & Hc' & Hev'). exists c'. split; [|done].
           by apply list_elem_of_further.
        -- intros Hr c'. unfold Map_values. simpl. rewrite elem_of_cons.
           intros [->|Hc']; [apply list_elem_of_here|].
           do 2 apply list_elem_of_further. by apply Hall.
      * eexists _, _, [EvCall (client_stop c); EvSettled (client_stop c) (Rejected err)].
        split_and!; [done..| | |].
        -- intros ev [->|[->|[]%elem_of_nil]%elem_of_cons]%elem_of_cons; by eauto.
        -- intros [=].
        -- intros Hok. by rewrite Hok in Hstop.
    + cbn [run continue_with].
      destruct (IH (S i) s) as (s' & r & evs & Hrun & Hs' & Hfuel & Honly & Hall & Hok); [lia|].
      exists s', r, evs. split_and!; done.
Qed.

Lemma logged_frame s evs :
  let s' := foldl (λ s ev, log ev s) s evs in
  fileClients s' = fileClients s ∧ workspaceClients s' = workspaceClients s ∧
  activeMutex s' = activeMutex s ∧ clients s' = clients s ∧ host s' = host s ∧
  trace s' = trace s ++ evs.
Proof.
  revert s. induction evs as [|ev evs IH]; intros s; simpl.
  - by rewrite app_nil_r.
  - destruct (IH (log ev s)) as (-> & -> & -> & -> & -> & ->). simpl.
    by rewrite <- app_assoc.
Qed.

(** Deactivation with nothing else under way.  [deactivate], run from any
    state with enough fuel for the
    entries of the two registries and with no other task of the extension
    in between, ends; and when it resolves, it has called
    [client.stop()] on every client stored in [fileClients] and on every
    client stored in [workspaceClients].  It calls nothing but [stop()]
    on stored clients, it resolves whenever no [stop()] rejects, and it
    leaves both registries as they were. *)
Theorem deactivate_stops_every_client (oracle : Oracle) (s : State) (fuel : nat) :
  length (fileClients s) ≤ fuel →
  length (workspaceClients s) ≤ fuel →
  ∃ s' r evs,
    run oracle (deactivate fuel) s = (s', r) ∧
    r ≠ OutOfFuel ∧
    trace s' = trace s ++ evs ∧
    fileClients s' = fileClients s ∧ workspaceClients s' = workspaceClients s ∧
    (r = Returned tt →
     ∀ c, c ∈ Map_values (fileClients s) ∨ c ∈ Map_values (workspaceClients s) →
          EvCall (client_stop c) ∈ evs) ∧
    (∀ ev, ev ∈ evs →
       ∃ c, (c ∈ Map_values (fileClients s) ∨ c ∈ Map_values (workspaceClients s)) ∧
            (ev = EvCall (client_stop c) ∨ ∃ a, ev = EvSettled (client_stop c) a)) ∧
    (stops_fulfil oracle → r = Returned tt).
Proof.
  intros Hf Hw. unfold deactivate. rewrite run_bind.
  destruct (for_values_stop oracle fileClients (λ _ _, eq_refl) fuel 0 s)
    as (s1 & r1 & evs1 & -> & -> & Hfuel1 & Honly1 & Hall1 & Hok1); [lia|].
  pose proof (logged_frame s evs1) as (Hfc1 & Hwc1 & _ & _ & _ & Htr1). simpl in *.
  destruct r1 as [[]|e|]; cbn [continue_with]; [| |done].
  - destruct (for_values_stop oracle workspaceClients (λ _ _, eq_refl) fuel 0
                (foldl (λ s ev, log ev s) s evs1))
      as (s2 & r2 & evs2 & -> & -> & Hfuel2 & Honly2 & Hall2 & Hok2); [by rewrite Hwc1|].
    pose proof (logged_frame (foldl (λ s ev, log ev s) s evs1) evs2)
      as (Hfc2 & Hwc2 & _ & _ & _ & Htr2). simpl in *.
    rewrite Hwc1 in Hall2, Honly2.
    eexists _, r2, (evs1 ++ evs2).
    split_and!; [done|done|by rewrite Htr2, Htr1, app_assoc|congruence|congruence| | |done].
    + intros -> c Hc. rewrite elem_of_app. destruct Hc as [Hc|Hc]; [left|right]; eauto.
    + intros ev [Hev|Hev]%elem_of_app.
      * destruct (Honly1 ev Hev) as (c & Hc & Hev'). exists c. split; [by left|done].
      * destruct (Honly2 ev Hev) as (c & Hc & Hev'). exists c. split; [by right|done].
  - eexists _, (Thrown e), evs1. split_and!; [done..| | |].
    + intros [=].
    + intros ev Hev. destruct (Honly1 ev Hev) as (c & Hc & Hev'). exists c.
      split; [by left|done].
    + intros Hok. by specialize (Hok1 Hok).
Qed.

Lemma deactivate_stops_every_client_witness :
  ∃ s' r evs,
    run always_fulfilled (deactivate 2)
        (set_fileClients (Map_set "file:///tmp/c.gr" 0)
           (set_workspaceClients (Map_set "file:///w" 1) (initial Sample.on)))
    = (s', r) ∧
    r ≠ OutOfFuel ∧
    trace s' = [] ++ evs ∧
    fileClients s' = [Some ("file:///tmp/c.gr", 0)] ∧
    workspaceClients s' = [Some ("file:///w", 1)] ∧
    (r = Returned tt → ∀ c, c ∈ [0] ∨ c ∈ [1] → EvCall (client_stop c) ∈ evs) ∧
    (∀ ev, ev ∈ evs →
       ∃ c, (c ∈ [0] ∨ c ∈ [1]) ∧
            (ev = EvCall (client_stop c) ∨ ∃ a, ev = EvSettled (client_stop c) a)) ∧
    (stops_fulfil always_fulfilled → r = Returned tt).
Proof.
  apply (deactivate_stops_every_client always_fulfilled
           (set_fileClients (Map_set "file:///tmp/c.gr" 0)
              (set_workspaceClients (Map_set "file:///w" 1) (initial Sample.on))) 2);
    simpl; lia.
Defined.

(** C2, as the code has it.  A client is registered only when its
    [start()] has fulfilled, so that [deactivate] does not find a client
    that is being started.  A loose document is opened and the extension
    is deactivated while [start()] of its client is pending: [deactivate]
    resolves, having called [stop()] on the client of the workspace
    folder alone, and the client of the document is stored in
    [fileClients] and live, with no task left to stop it. *)
Theorem deactivate_leaves_starting_client :
  let p := exec Example.deactivating (boot Sample.on) in
  settled p !! 3 = Some (FromDeactivate, Returned tt) ∧
  pending p = [] ∧
  Map_values (fileClients (state p)) = [1] ∧
  Map_values (workspaceClients (state p)) = [0] ∧
  stopped (trace (state p)) = [0] ∧
  live (trace (state p)) 1 = true.
Proof. vm_compute. by split_and!. Qed.

(** ** Workspace folders removed *)

Lemma remove_each_run oracle (folders : list WorkspaceFolder) s :
  Map_wf (workspaceClients s) →
  ∃ s' r evs,
    run oracle (remove_each folders) s = (s', r) ∧
    r ≠ OutOfFuel ∧
    trace s' = trace s ++ evs ∧
    fileClients s' = fileClients s ∧ clients s' = clients s ∧
    workspaceFolders s' = workspaceFolders s ∧
    Map_wf (workspaceClients s') ∧
    (∀ ev, ev ∈ evs →
       ∃ folder c, folder ∈ folders ∧
         Map_get (Uri_toString (folder_uri folder)) (workspaceClients s) = Some c ∧
         (ev = EvCall (client_stop c) ∨ ∃ a, ev = EvSettled (client_stop c) a)) ∧
    (∀ key, Map_get key (workspaceClients s') = None ∨
            Map_get key (workspaceClients s') = Map_get key (workspaceClients s)) ∧
    (∀ key, key ∉ (λ folder, Uri_toString (folder_uri folder)) <$> folders →
            Map_get key (workspaceClients s') = Map_get key (workspaceClients s)) ∧
    (r = Returned tt → ∀ folder, folder ∈ folders →
       Map_get (Uri_toString (folder_uri folder)) (workspaceClients s') = None ∧
       ∀ c, Map_get (Uri_toString (folder_uri folder)) (workspaceClients s) = Some c →
            EvCall (client_stop c) ∈ evs) ∧
    (stops_fulfil oracle → r = Returned tt).
Proof.
  revert s. induction folders as [|folder rest IH]; intros s Hwf.
  { exists s, (Returned tt), []. split_and!; try done; eauto.
    - by rewrite app_nil_r.
    - by intros ev ?%elem_of_nil.
    - intros _ folder []%elem_of_nil. }
  cbn [remove_each]. rewrite run_bind, run_await_async, removeWorkspaceClient_run.
  remember (Uri_toString (folder_uri folder)) as key eqn:Hkey.
  destruct (Map_get key (workspaceClients s)) as [c|] eqn:Hget.
  - unfold stop_outcome. destruct (oracle _ (client_stop c)) as [|err] eqn:Hstop;
      cbn [continue_with].
    + set (s1 := set_workspaceClients (Map_delete key)
                   (log (EvSettled (client_stop c) Fulfilled) (log (EvCall (client_stop c)) s))).
      destruct (IH s1) as (s' & r & evs & Hrun & Hfuel & Htr & Hfc & Hcl & Hcache & Hwf'
                            & Honly & Hmono & Hframe & Hgone & Hok).
      { by apply Map_wf_delete. }
      assert (Hs1 : ∀ k, Map_get k (workspaceClients s1) = None ∨
                         Map_get k (workspaceClients s1) = Map_get k (workspaceClients s)).
      { intros k. simpl. destruct (decide (key = k)) as [<-|Hne].
        - left. by apply Map_get_delete_eq.
        - right. by apply Map_get_delete_ne. }
      exists s', r, (EvCall (client_stop c) :: EvSettled (client_stop c) Fulfilled :: evs).
      split_and!; try done.
      * rewrite Htr. simpl. by rewrite <- !app_assoc.
      * intros ev [->|[->|Hev]%elem_of_cons]%elem_of_cons.
        -- exists folder, c. split_and!; [apply list_elem_of_here|by rewrite <- Hkey|eauto].
        -- exists folder, c. split_and!; [apply list_elem_of_here|by rewrite <- Hkey|eauto].
        -- destruct (Honly ev Hev) as (f & c' & Hf & Hc' & Hev').
           exists f, c'. split_and!; [by apply list_elem_of_further| |done].
           destruct (Hs1 (Uri_toString (folder_uri f))) as [Hk|Hk]; congruence.
      * intros k. destruct (Hmono k) as [Hk|Hk]; [by left|].
        rewrite Hk. apply Hs1.
      * intros k Hk. rewrite fmap_cons, not_elem_of_cons in Hk. destruct Hk as [Hne Hk].
        rewrite (Hframe k Hk). simpl. apply Map_get_delete_ne. congruence.
      * intros Hr f [->|Hf]%elem_of_cons.
        -- rewrite <- Hkey. split.
           ++ destruct (Hmono key) as [Hk|Hk]; [done|]. rewrite Hk. simpl.
              by apply Map_get_delete_eq.
           ++ intros c' Hc'. assert (c' = c) as -> by congruence. apply list_elem_of_here.
        -- destruct (Hgone Hr f Hf) as [Hnone Hstopped]. split; [done|].
           intros c' Hc'. destruct (Hs1 (Uri_toString (folder_uri f))) as [Hk|Hk].
           ++ destruct (decide (key = Uri_toString (folder_uri f))) as [Heq|Hne].
              ** rewrite <- Heq in Hc'. assert (c' = c) as -> by congruence.
                 apply list_elem_of_here.
              ** simpl in Hk. rewrite Map_get_delete_ne in Hk by done. congruence.
           ++ do 2 apply list_elem_of_further. apply Hstopped. congruence.
    + eexists _, _, [EvCall (client_stop c); EvSettled (client_stop c) (Rejected err)].
      split_and!; try done.
      * simpl. by rewrite <- !app_assoc.
      * intros ev [->|[->|[]%elem_of_nil]%elem_of_cons]%elem_of_cons;
          exists folder, c; (split_and!; [apply list_elem_of_here|by rewrite <- Hkey|eauto]).
      * by right.
      * intros Hok. by rewrite Hok in Hstop.
  - cbn [continue_with].
    destruct (IH s Hwf) as (s' & r & evs & Hrun & Hfuel & Htr & Hfc & Hcl & Hcache & Hwf'
                             & Honly & Hmono & Hframe & Hgone & Hok).
    exists s', r, evs. split_and!; try done.
    + intros ev Hev. destruct (Honly ev Hev) as (f & c' & Hf & Hc' & Hev').
      exists f, c'. split_and!; [by apply list_elem_of_further|done..].
    + intros k Hk. rewrite fmap_cons, not_elem_of_cons in Hk. apply Hframe, Hk.
    + intros Hr f [->|Hf]%elem_of_cons; [|by apply Hgone].
      rewrite <- Hkey. split; [|congruence]. destruct (Hmono key) as [Hk|Hk]; congruence.
Qed.

(** Closed folders when no [stop()] rejects.  On a
    workspace-folders-change event, [didChangeWorkspaceFolders],
    run from any state with well-formed [workspaceClients] and with no
    other task of the extension in between, calls [stop()] on the client
    of every removed folder that has one and removes it from
    [workspaceClients]; it creates and starts no client, leaves
    [fileClients] as it is, and neither stops nor changes the client of a
    folder outside the removed set.  The removals are all done when the
    handler resolves, which it does unless a [stop()] rejects. *)
Theorem didChangeWorkspaceFolders_only_removes
    (oracle : Oracle) (event : WorkspaceFoldersChangeEvent) (s : State) :
  Map_wf (workspaceClients s) →
  ∃ s' r evs,
    run oracle (didChangeWorkspaceFolders event) s = (s', r) ∧
    r ≠ OutOfFuel ∧
    trace s' = trace s ++ evs ∧
    (stops_fulfil oracle → r = Returned tt) ∧
    (r = Returned tt → ∀ folder, folder ∈ removed event →
       Map_get (Uri_toString (folder_uri folder)) (workspaceClients s') = None ∧
       ∀ c, Map_get (Uri_toString (folder_uri folder)) (workspaceClients s) = Some c →
            EvCall (client_stop c) ∈ evs) ∧
    clients s' = clients s ∧
    (∀ c, EvCall (client_start c) ∉ evs) ∧
    fileClients s' = fileClients s ∧
    (∀ key, key ∉ (λ folder, Uri_toString (folder_uri folder)) <$> removed event →
            Map_get key (workspaceClients s') = Map_get key (workspaceClients s)) ∧
    (∀ c, EvCall (client_stop c) ∈ evs →
          ∃ folder, folder ∈ removed event ∧
            Map_get (Uri_toString (folder_uri folder)) (workspaceClients s) = Some c).
Proof.
  intros Hwf. unfold didChangeWorkspaceFolders. rewrite run_bind. cbn [act run continue_with].
  destruct (remove_each_run oracle (removed event) (set_workspaceFolders [] s) Hwf)
    as (s' & r & evs & Hrun & Hfuel & Htr & Hfc & Hcl & Hcache & Hwf' & Honly
        & Hmono & Hframe & Hgone & Hok).
  exists s', r, evs. split_and!; try done.
  - intros c Hc. by destruct (Honly _ Hc) as (f & c' & _ & _ & [[=]|[a [=]]]).
  - intros c Hc. destruct (Honly _ Hc) as (f & c' & Hf & Hc' & [[= ->]|[a [=]]]).
    by exists f.
Qed.

Lemma didChangeWorkspaceFolders_only_removes_witness :
  ∃ s' r evs,
    run always_fulfilled
        (didChangeWorkspaceFolders {| added := [Sample.inner]; removed := [Sample.outer] |})
        (set_workspaceClients (Map_set "file:///w" 1) (initial Sample.on))
    = (s', r) ∧
    r = Returned tt ∧
    trace s' = evs ∧
    Map_get "file:///w" (workspaceClients s') = None ∧
    EvCall (client_stop 1) ∈ evs ∧
    clients s' = [] ∧ fileClients s' = [].
Proof.
  destruct (didChangeWorkspaceFolders_only_removes always_fulfilled
              {| added := [Sample.inner]; removed := [Sample.outer] |}
              (set_workspaceClients (Map_set "file:///w" 1) (initial Sample.on)))
    as (s' & r & evs & Hrun & _ & Htr & Hok & Hgone & Hcl & _ & Hfc & _).
  { apply Map_wf_set, Map_wf_nil. }
  exists s', r, evs. specialize (Hok (λ _ _, eq_refl)).
  destruct (Hgone Hok Sample.outer) as [Hnone Hstop]; [apply list_elem_of_here|].
  split_and!; [done..|by apply Hstop|done|done].
Defined.

(** C7, as the code has it.  The loop over the closed folders has no
    handler for a rejected [stop()].  Two folders with a client each are
    closed at once and [stop()] of the first client is rejected:
    [didChangeWorkspaceFolders] throws, the first client stays
    registered, and the client of the second folder is neither stopped
    nor removed. *)
Theorem didChangeWorkspaceFolders_leaves_closed_folders :
  let x := run (Example.failing (ClientError "busy"))
               (didChangeWorkspaceFolders Example.both_closed) Example.both_open in
  removed Example.both_closed = [Sample.outer; Example.side] ∧
  Map_get "file:///w" (workspaceClients Example.both_open) = Some 0 ∧
  Map_get "file:///b" (workspaceClients Example.both_open) = Some 1 ∧
  x.2 = Thrown (ClientError "busy") ∧
  Map_get "file:///w" (workspaceClients x.1) = Some 0 ∧
  Map_get "file:///b" (workspaceClients x.1) = Some 1 ∧
  stopped (trace x.1) = [0] ∧
  live (trace x.1) 1 = true.
Proof. vm_compute. by split_and!. Qed.

(** ** Configuration changes: removal precedes re-adding *)



Section Suspensions.
Context (oracle : Oracle) (W : ExtCall * State → Prop).
Hypothesis W_Tick : ∀ s, W (Tick, s).



End Suspensions.

Section Orderly.
Context (oracle : Oracle) (key : string) (reg : State → JsMap ClientId) (s0 : State).







End Orderly.




















(** ** Invariants of tasks on the event loop *)

Lemma preserves_bind {A B} I (t : Task A) (f : A → Task B) :
  preserves I t → (∀ a, preserves I (f a)) → preserves I (t ≫= f).
Proof.
  change (t ≫= f) with (bind t f). intros Ht Hf.
  induction t as [a|e| |k IH|g k IH|c k IH]; simpl in *; try done.
  - intros s. by apply IH.
  - destruct Ht as [Hg Hk]. split; [done|]. by apply IH.
  - intros r. by apply IH.
Qed.

Lemma preserves_await_async {A} I (t : Task A) :
  preserves I t → preserves I (await_async t).
Proof. intros Ht. apply preserves_bind; [done|]. by intros a r. Qed.

Lemma preserves_await I c : preserves I (await c).
Proof. by intros [|e]. Qed.

Lemma preserves_act I f : (∀ s, I s → I (f s)) → preserves I (act f).
Proof. by split. Qed.

Lemma advance_preserves {A} (I : State → Prop) (t : Task A) s s' x :
  (∀ ev s, I s → I (log ev s)) →
  preserves I t → I s → advance t s = (s', x) → I s'.
Proof.
  intros Hlog. revert s.
  induction t as [a|e| |k IH|g k IH|c k IH]; intros s Ht Hs Hadv; simpl in *.
  - by injection Hadv as <- <-.
  - by injection Hadv as <- <-.
  - by injection Hadv as <- <-.
  - by eapply IH.
  - destruct Ht as [Hg Hk]. eapply IH; [done| |done]. by apply Hg.
  - injection Hadv as <- <-. destruct c; simpl; auto.
Qed.

Lemma advance_preserves_rest {A} (I : State → Prop) (t : Task A) s s' c k :
  preserves I t → advance t s = (s', Waiting c k) → ∀ r, preserves I (k r).
Proof.
  revert s. induction t as [a|e| |k0 IH|g k0 IH|c0 k0 IH]; intros s Ht Hadv; simpl in *;
    try done.
  - by eapply IH.
  - destruct Ht as [Hg Hk]. by eapply IH.
  - by injection Hadv as <- <- <-.
Qed.

(** *** What every task of the extension other than the guard keeps *)

Section Frame.
Context (I : State → Prop) (HI : frame_condition I).

Ltac framed :=
  intros;
  first [ by apply (frame_log I HI) | by apply (frame_clients I HI)
        | by apply (frame_file_set I HI) | by apply (frame_file_delete I HI)
        | by apply (frame_workspace_set I HI) | by apply (frame_workspace_delete I HI)
        | by apply (frame_workspaceFolders I HI) | by apply (frame_configListeners I HI)
        | by apply (frame_statusItems I HI) | by apply (frame_grainStatusBarItem I HI)
        | by apply (frame_grainRestartStatusItem I HI)
        | by apply (frame_subscriptions I HI) | by apply (frame_listeners I HI) ].

Lemma keeps_for_values m body fuel i :
  (∀ c, preserves I (body c)) → preserves I (for_values m body fuel i).
Proof.
  intros Hbody. revert i. induction fuel as [|fuel IH]; intros i s; simpl.
  - by destruct (m s !! i).
  - destruct (m s !! i) as [[[k c]|]|]; [| |done].
    + apply preserves_bind; [apply Hbody|]. intros _. apply IH.
    + apply (IH (S i)).
Qed.

Lemma keeps_startFileClient uri : preserves I (startFileClient uri).
Proof.
  intros s. simpl. destruct (getLspCommand _ _) as [err|[[command args]|]]; simpl; [done| |done].
  intros s1. simpl. intros s2. simpl. split_and!; try framed. intros [|e]; simpl; [|done].
  split; [framed|done].
Qed.

Lemma keeps_startWorkspaceClient folder : preserves I (startWorkspaceClient folder).
Proof.
  intros s. simpl. destruct (getLspCommand _ _) as [err|[[command args]|]]; simpl; [done| |done].
  intros s1. simpl. split_and!; try framed. intros [|e]; simpl; [|done].
  split; [framed|done].
Qed.

Lemma keeps_addFileClient uri : preserves I (addFileClient uri).
Proof.
  intros s. destruct (Map_has _ _); cbn [negb]; [done|].
  apply preserves_bind; [apply preserves_await_async, keeps_startFileClient|].
  intros c. apply preserves_act. framed.
Qed.

Lemma keeps_addWorkspaceClient folder : preserves I (addWorkspaceClient folder).
Proof.
  intros s. destruct (Map_has _ _); cbn [negb]; [done|].
  apply preserves_bind; [apply preserves_await_async, keeps_startWorkspaceClient|].
  intros c. apply preserves_act. framed.
Qed.

Lemma keeps_removeFileClient uri : preserves I (removeFileClient uri).
Proof.
  intros s. destruct (Map_get _ _); [|done].
  apply preserves_bind; [apply preserves_await|]. intros _. apply preserves_act. framed.
Qed.

Lemma keeps_removeWorkspaceClient folder : preserves I (removeWorkspaceClient folder).
Proof.
  intros s. destruct (Map_get _ _); [|done].
  apply preserves_bind; [apply preserves_await|]. intros _. apply preserves_act. framed.
Qed.

Lemma keeps_handler_fn h e : preserves I (handler_fn h e).
Proof.
  destruct h as [folder|uri]; simpl; unfold workspaceConfigHandler, fileConfigHandler;
    repeat first
      [ apply preserves_bind; [|intros _]
      | apply preserves_await_async
      | apply keeps_removeWorkspaceClient | apply keeps_addWorkspaceClient
      | apply keeps_removeFileClient | apply keeps_addFileClient
      | match goal with |- preserves _ (if ?b then _ else _) => destruct b end
      | exact Logic.I ].
Qed.

Lemma keeps_getOuterMostWorkspaceFolder folder :
  preserves I (getOuterMostWorkspaceFolder folder).
Proof.
  intros s. simpl. case_decide; [destruct (workspace_workspaceFolders _)|]; simpl;
    try done; (split; [framed|done]).
Qed.

Lemma keeps_onDidChangeConfiguration h : preserves I (onDidChangeConfiguration h).
Proof. intros s. split; [framed|done]. Qed.

Lemma keeps_didOpenTextDocument document : preserves I (didOpenTextDocument document).
Proof.
  unfold didOpenTextDocument. case_bool_decide; [done|]. intros s.
  destruct (workspace_getWorkspaceFolder _ _) as [folder|].
  - apply preserves_bind; [apply keeps_getOuterMostWorkspaceFolder|]. intros [outer|]; [|done].
    apply preserves_bind; [apply preserves_await_async, keeps_addWorkspaceClient|].
    intros _. apply keeps_onDidChangeConfiguration.
  - destruct (_ && _); [done|].
    apply preserves_bind; [apply preserves_await_async, keeps_addFileClient|].
    intros _. apply keeps_onDidChangeConfiguration.
Qed.

Lemma keeps_remove_each folders : preserves I (remove_each folders).
Proof.
  induction folders as [|folder rest IH]; cbn [remove_each]; [done|].
  apply preserves_bind; [apply preserves_await_async, keeps_removeWorkspaceClient|done].
Qed.

Lemma keeps_didChangeWorkspaceFolders event : preserves I (didChangeWorkspaceFolders event).
Proof.
  apply preserves_bind; [apply preserves_act; framed|]. intros _. apply keeps_remove_each.
Qed.

Lemma keeps_deactivate fuel : preserves I (deactivate fuel).
Proof.
  apply preserves_bind; [|intros _]; apply keeps_for_values; intros c; apply preserves_await.
Qed.

Lemma keeps_set_busy b r : preserves I (set_busy b r).
Proof. destruct r; [apply preserves_act; framed|done]. Qed.

Lemma keeps_restartAllClients fuel : preserves I (restartAllClients fuel).
Proof.
  unfold restartAllClients.
  apply preserves_bind; [intros s; apply keeps_set_busy|intros _].
  apply preserves_bind; [apply keeps_for_values; intros c; apply preserves_await|intros _].
  apply preserves_bind; [apply keeps_for_values; intros c; apply preserves_await|intros _].
  intros s. apply keeps_set_busy.
Qed.

Lemma keeps_open_each docs : preserves I (open_each docs).
Proof.
  induction docs as [|doc rest IH]; cbn [open_each]; [done|].
  apply preserves_bind; [apply preserves_await_async, keeps_didOpenTextDocument|].
  intros d. apply preserves_bind; [apply preserves_act; framed|done].
Qed.

Lemma keeps_activate : preserves I activate.
Proof.
  unfold activate, createStatusBarEntries, createLanguageStatusItem, set_item.
  repeat first
    [ apply preserves_bind; [|intros ?]
    | (apply preserves_act; framed)
    | apply keeps_set_busy
    | (intros s; apply keeps_open_each)
    | (intros s; split; [framed|exact Logic.I]) ].
Qed.

End Frame.

Lemma quiet_frame X : frame_condition (λ s, activeMutex s = X).
Proof. by split. Qed.

(** *** The handlers have no fuel-bounded loop *)

Lemma fuel_free_bind {A B} (t : Task A) (f : A → Task B) :
  fuel_free t → (∀ a, fuel_free (f a)) → fuel_free (t ≫= f).
Proof.
  change (t ≫= f) with (bind t f). intros Ht Hf.
  induction t as [a|e| |k IH|g k IH|c k IH]; simpl in *; try done.
  - intros s. by apply IH.
  - by apply IH.
  - intros r. by apply IH.
Qed.

Lemma fuel_free_await_async {A} (t : Task A) : fuel_free t → fuel_free (await_async t).
Proof. intros Ht. apply fuel_free_bind; [done|]. by intros a r. Qed.

Lemma fuel_free_await c : fuel_free (await c).
Proof. by intros [|e]. Qed.

Lemma fuel_free_startFileClient uri : fuel_free (startFileClient uri).
Proof.
  intros s. simpl. destruct (getLspCommand _ _) as [err|[[command args]|]]; simpl; [done| |done].
  intros s1 s2 [|e]; simpl; done.
Qed.

Lemma fuel_free_startWorkspaceClient folder : fuel_free (startWorkspaceClient folder).
Proof.
  intros s. simpl. destruct (getLspCommand _ _) as [err|[[command args]|]]; simpl; [done| |done].
  intros s1 [|e]; simpl; done.
Qed.

Lemma fuel_free_addFileClient uri : fuel_free (addFileClient uri).
Proof.
  intros s. destruct (Map_has _ _); cbn [negb]; [done|].
  apply fuel_free_bind; [apply fuel_free_await_async, fuel_free_startFileClient|done].
Qed.

Lemma fuel_free_addWorkspaceClient folder : fuel_free (addWorkspaceClient folder).
Proof.
  intros s. destruct (Map_has _ _); cbn [negb]; [done|].
  apply fuel_free_bind; [apply fuel_free_await_async, fuel_free_startWorkspaceClient|done].
Qed.

Lemma fuel_free_removeFileClient uri : fuel_free (removeFileClient uri).
Proof.
  intros s. destruct (Map_get _ _); [|done].
  apply fuel_free_bind; [apply fuel_free_await|done].
Qed.

Lemma fuel_free_removeWorkspaceClient folder : fuel_free (removeWorkspaceClient folder).
Proof.
  intros s. destruct (Map_get _ _); [|done].
  apply fuel_free_bind; [apply fuel_free_await|done].
Qed.

Lemma fuel_free_handler_fn h e : fuel_free (handler_fn h e).
Proof.
  destruct h as [folder|uri]; simpl; unfold workspaceConfigHandler, fileConfigHandler;
    repeat first
      [ apply fuel_free_bind; [|intros _]
      | apply fuel_free_await_async
      | apply fuel_free_removeWorkspaceClient | apply fuel_free_addWorkspaceClient
      | apply fuel_free_removeFileClient | apply fuel_free_addFileClient
      | match goal with |- fuel_free (if ?b then _ else _) => destruct b end
      | exact I ].
Qed.

(** *** The guard *)

Lemma holding_guarded key (t : Task unit) :
  quiet t → fuel_free t → holding key (settle_guard key t).
Proof.
  intros Hq Hf. unfold settle_guard. induction t as [[]|e| |k IH|g k IH|c k IH]; simpl in *.
  - do 2 (apply holding_Await; intros _). by apply holding_release.
  - apply holding_Await; intros _. apply holding_Act; [done|].
    apply holding_Await; intros _. by apply holding_release.
  - done.
  - apply holding_Get. intros s. apply IH; [|done]. intros X. apply Hq.
  - apply holding_Act.
    + intros s. by apply (Hq (activeMutex s)).
    + apply IH; [|done]. intros X. apply Hq.
  - apply holding_Await. intros r. apply IH; [|done]. intros X. apply Hq.
Qed.

Lemma activeMutex_issue c s : activeMutex (issue c s) = activeMutex s.
Proof. by destruct c. Qed.

Lemma activeMutex_answer c r s : activeMutex (answer c r s) = activeMutex s.
Proof. by destruct c. Qed.

Lemma advance_quiet {A} (t : Task A) s s' x :
  quiet t → advance t s = (s', x) →
  activeMutex s' = activeMutex s ∧
  match x with Waiting c k => ∀ r, quiet (k r) | Finished _ => True end.
Proof.
  intros Hq Hadv. split.
  - by eapply (advance_preserves (λ s0, activeMutex s0 = activeMutex s)).
  - destruct x as [r|c k]; [done|]. intros r X.
    by eapply (advance_preserves_rest (λ s0, activeMutex s0 = X) t s s' c k).
Qed.

Lemma advance_holding key (t : Task unit) s s' x :
  holding key t → advance t s = (s', x) →
  match x with
  | Finished r => activeMutex s' = activeMutex s ∖ {[key]}
  | Waiting c k => activeMutex s' = activeMutex s ∧ ∀ r, holding key (k r)
  end.
Proof.
  intros Hh. revert s. induction Hh as [f Hf|f k Hf Hk IH|k Hk IH|c k Hk IH]; intros s; simpl.
  - intros [= <- <-]. apply Hf.
  - intros Hadv. specialize (IH _ Hadv).
    destruct x; [by rewrite IH, Hf|]. destruct IH as [-> ?]. by rewrite Hf.
  - apply IH.
  - intros [= <- <-]. split; [apply activeMutex_issue|done].
Qed.

(** ** The guard on the event loop *)

Lemma guarded_boot h : guarded (initial h) [].
Proof.
  split_and!; [constructor|constructor|]. intros key. simpl.
  split; [by intros ?%elem_of_nil|by intros ?%not_elem_of_empty].
Qed.

Lemma guarded_frame s s' waiting :
  activeMutex s' = activeMutex s → guarded s waiting → guarded s' waiting.
Proof. intros Heq (? & ? & Hkeys). split_and!; [done..|]. intros key. by rewrite Heq. Qed.

(** A task that is not a handler execution comes and goes without a
    trace in [activeMutex]. *)
Lemma guarded_progress_quiet o t s waiting done :
  running_key {| origin := o; waiting_for := Tick; resume := λ _, Ret tt |} = None →
  quiet t → guarded s waiting →
  guarded (state (progress o (advance t s) waiting done))
          (pending (progress o (advance t s) waiting done)).
Proof.
  intros Ho Hq Hg. destruct (advance t s) as [s' [r|c k]] eqn:Hadv;
    destruct (advance_quiet _ _ _ _ Hq Hadv) as [Heq Hk]; simpl.
  - by eapply guarded_frame.
  - destruct (guarded_frame _ _ _ Heq Hg) as (Hall & Hnd & Hkeys).
    assert (Hnil : omap running_key [{| origin := o; waiting_for := c; resume := k |}] = []).
    { unfold running_key in *. simpl in *. by rewrite Ho. }
    split_and!.
    + apply Forall_app. split; [done|]. constructor; [|constructor].
      unfold pending_ok, running_key in *. simpl in *. by destruct o.
    + by rewrite omap_app, Hnil, app_nil_r.
    + intros key. by rewrite omap_app, Hnil, app_nil_r.
Qed.

(** The rest of a guarded invocation, resumed or begun while every other
    execution has another key. *)
Lemma guarded_progress_holding key t s waiting done :
  holding key t →
  Forall pending_ok waiting →
  NoDup (omap running_key waiting) →
  key ∉ omap running_key waiting →
  (∀ k, k ∈ omap running_key waiting ∨ k = key ↔ k ∈ activeMutex s) →
  guarded (state (progress (FromConfig key) (advance t s) waiting done))
          (pending (progress (FromConfig key) (advance t s) waiting done)).
Proof.
  intros Hh Hall Hnd Hfresh Hkeys. destruct (advance t s) as [s' [r|c k]] eqn:Hadv;
    pose proof (advance_holding _ _ _ _ _ Hh Hadv) as Hs'; simpl.
  - split_and!; [done..|]. intros k. rewrite Hs', elem_of_difference, elem_of_singleton.
    rewrite <- Hkeys. split; [|tauto]. intros Hk. split; [by left|congruence].
  - destruct Hs' as [Heq Hk]. split_and!.
    + apply Forall_app. split; [done|]. by constructor.
    + rewrite omap_app. apply NoDup_app. split_and!; [done| |apply NoDup_singleton].
      intros k' Hk' ->%list_elem_of_singleton. done.
    + intros k'. rewrite omap_app, elem_of_app, Heq, <- Hkeys. simpl.
      by rewrite list_elem_of_singleton.
Qed.

Lemma guarded_spawn_handler h e p :
  guarded (state p) (pending p) →
  guarded (state (spawn (FromConfig (handler_key h)) (configHandler h e) p))
          (pending (spawn (FromConfig (handler_key h)) (configHandler h e) p)).
Proof.
  intros Hg. unfold spawn, configHandler, mutex. cbn [advance]. case_decide as Hin.
  - done.
  - cbn [advance]. destruct Hg as (Hall & Hnd & Hkeys).
    apply guarded_progress_holding; [|done..| |].
    + apply holding_guarded; [intros X; apply keeps_handler_fn, quiet_frame|apply fuel_free_handler_fn].
    + by rewrite Hkeys.
    + intros k. simpl. rewrite elem_of_union, elem_of_singleton, Hkeys. done.
Qed.

Lemma guarded_fire e p :
  guarded (state p) (pending p) →
  guarded (state (fire_configuration e p)) (pending (fire_configuration e p)).
Proof.
  unfold fire_configuration. generalize (configListeners (state p)). intros hs. revert p.
  induction hs as [|h hs IH]; intros p Hg; simpl; [done|].
  by apply IH, guarded_spawn_handler.
Qed.

Lemma running_split (waiting : list Pending) i w :
  waiting !! i = Some w →
  omap running_key waiting
  = omap running_key (take i waiting) ++ option_list (running_key w)
    ++ omap running_key (drop (S i) waiting) ∧
  omap running_key (delete i waiting)
  = omap running_key (take i waiting) ++ omap running_key (drop (S i) waiting).
Proof.
  intros Hi. split.
  - rewrite <- (take_drop_middle _ _ _ Hi) at 1. rewrite omap_app. simpl.
    by destruct (running_key w).
  - by rewrite delete_take_drop, omap_app.
Qed.

Lemma guarded_settle i r p :
  guarded (state p) (pending p) →
  guarded (state (step (Settle i r) p)) (pending (step (Settle i r) p)).
Proof.
  intros (Hall & Hnd & Hkeys). cbn [step].
  destruct (pending p !! i) as [w|] eqn:Hi; [|done].
  destruct (running_split _ _ _ Hi) as [Hrun Hrest].
  pose proof (proj1 (Forall_lookup _ _) Hall _ _ Hi) as Hw.
  set (r' := match waiting_for w with Tick => Fulfilled | _ => r end).
  set (s := answer (waiting_for w) r' (state p)).
  assert (Hs : activeMutex s = activeMutex (state p)) by apply activeMutex_answer.
  unfold pending_ok in Hw. destruct (origin w) eqn:Ho;
    try (apply guarded_progress_quiet; [done|apply Hw|];
         split_and!; [by apply Forall_delete| |intros key];
         rewrite Hrest; rewrite Hrun in Hnd, Hkeys || rewrite Hrun in Hkeys;
         unfold running_key in *; rewrite Ho in *; simpl in *; by rewrite ?Hs).
  rewrite Hrun in Hnd, Hkeys. unfold running_key in Hnd, Hkeys. rewrite Ho in Hnd, Hkeys.
  simpl in Hnd, Hkeys.
  apply NoDup_app in Hnd as (Hnd1 & Hdisj & Hnd2).
  apply NoDup_cons in Hnd2 as [Hfresh2 Hnd2].
  apply guarded_progress_holding; [apply Hw|by apply Forall_delete|..]; rewrite Hrest.
  - apply NoDup_app. split_and!; [done| |done].
    intros k Hk Hk'. apply (Hdisj k Hk). by right.
  - rewrite not_elem_of_app. split; [|done]. intros Hk. apply (Hdisj _ Hk). by left.
  - intros k. rewrite Hs, <- Hkeys, !elem_of_app, elem_of_cons. tauto.
Qed.

(** The invariant of the event loop. *)
Lemma guarded_step a p :
  guarded (state p) (pending p) → guarded (state (step a p)) (pending (step a p)).
Proof.
  intros Hg. destruct a as [|fuel|document|event|e|fuel| |h|i r].
  - apply guarded_progress_quiet; [done|intros X; apply keeps_activate, quiet_frame|done].
  - apply guarded_progress_quiet; [done|intros X; apply keeps_deactivate|done].
  - simpl. destruct (openListener _); [|done].
    apply guarded_progress_quiet; [done| |done].
    intros X. apply preserves_bind; [apply keeps_didOpenTextDocument, quiet_frame|done].
  - simpl. destruct (foldersListener _); [|done].
    apply guarded_progress_quiet; [done|intros X; apply keeps_didChangeWorkspaceFolders, quiet_frame|done].
  - by apply guarded_fire.
  - simpl. destruct (openListener _); [|done].
    apply guarded_progress_quiet; [done|intros X; apply keeps_restartAllClients, quiet_frame|done].
  - simpl. destruct (openListener _); [|done]. by eapply guarded_frame.
  - by eapply guarded_frame.
  - by apply guarded_settle.
Qed.

Lemma guarded_exec acts p :
  guarded (state p) (pending p) → guarded (state (exec acts p)) (pending (exec acts p)).
Proof.
  revert p. induction acts as [|a acts IH]; intros p Hg; simpl; [done|].
  by apply IH, guarded_step.
Qed.

Lemma guarded_reachable p : reachable p → guarded (state p) (pending p).
Proof. intros (h & acts & ->). apply guarded_exec, guarded_boot. Qed.

Lemma NoDup_omap_lookup {A B} (f : A → option B) (l : list A) i j x y b :
  NoDup (omap f l) → l !! i = Some x → l !! j = Some y →
  f x = Some b → f y = Some b → i = j.
Proof.
  revert i j. induction l as [|z l IH]; intros i j Hnd Hi Hj Hx Hy; [done|].
  simpl in Hnd. destruct i as [|i], j as [|j]; simpl in *.
  - done.
  - injection Hi as ->. rewrite Hx in Hnd. apply NoDup_cons in Hnd as [Hnd _].
    exfalso. apply Hnd, list_elem_of_omap. exists y. split; [|done].
    by eapply list_elem_of_lookup_2.
  - injection Hj as ->. rewrite Hy in Hnd. apply NoDup_cons in Hnd as [Hnd _].
    exfalso. apply Hnd, list_elem_of_omap. exists x. split; [|done].
    by eapply list_elem_of_lookup_2.
  - f_equal. apply IH; try done. destruct (f z); [by apply NoDup_cons in Hnd as [_ ?]|done].
Qed.

(** C4. While [key] is in [activeMutex], an invocation of
    [mutex(key, fn)] returns at once: it does not depend on [fn], changes
    nothing and suspends nowhere.  An invocation for a key that is not in
    [activeMutex] adds the key and runs [fn], whatever other keys are
    held.  On the event loop, two handler executions under way never
    have the same key, and the key of each is in [activeMutex]. *)
Theorem mutex_excludes_same_key :
  (∀ (Args : Type) (key : string) (fn : Args → Task unit) (a : Args) (s : State),
     key ∈ activeMutex s →
     advance (mutex key fn a) s = (s, Finished (Returned tt)) ∧
     ∀ oracle, run oracle (mutex key fn a) s = (s, Returned tt) ∧
               awaits oracle (mutex key fn a) s = []) ∧
  (∀ (Args : Type) (key : string) (fn : Args → Task unit) (a : Args) (s : State),
     key ∉ activeMutex s →
     advance (mutex key fn a) s = advance (settle_guard key (fn a)) (lock key s) ∧
     activeMutex (lock key s) = activeMutex s ∪ {[key]}) ∧
  (∀ p, reachable p →
     (∀ i j w w' key,
        pending p !! i = Some w → pending p !! j = Some w' →
        origin w = FromConfig key → origin w' = FromConfig key → i = j) ∧
     (∀ w key, w ∈ pending p → origin w = FromConfig key → key ∈ activeMutex (state p))).
Proof.
  split_and!.
  - intros Args key fn a s Hin. unfold mutex. simpl. by rewrite decide_True.
  - intros Args key fn a s Hout. unfold mutex. simpl. by rewrite decide_False.
  - intros p Hp. destruct (guarded_reachable p Hp) as (_ & Hnd & Hkeys). split.
    + intros i j w w' key Hi Hj Hw Hw'.
      apply (NoDup_omap_lookup running_key (pending p) i j w w' key); try done;
        unfold running_key; by rewrite ?Hw, ?Hw'.
    + intros w key Hin Hw. apply Hkeys, list_elem_of_omap. exists w. split; [done|].
      unfold running_key. by rewrite Hw.
Qed.

Lemma mutex_excludes_same_key_witness :
  let p := exec Sample.changing (boot Sample.on) in
  running_handlers p = ["file:///w"] ∧
  "file:///w" ∈ activeMutex (state p) ∧
  advance (configHandler (WorkspaceHandler Sample.outer) (Sample.all true)) (state p)
  = (state p, Finished (Returned tt)) ∧
  ("file:///tmp/c.gr" ∉ activeMutex (state p)) ∧
  advance (configHandler (FileHandler (document_uri Sample.loose)) (Sample.all true)) (state p)
  = advance (settle_guard "file:///tmp/c.gr"
               (fileConfigHandler (document_uri Sample.loose) (Sample.all true)))
            (lock "file:///tmp/c.gr" (state p)).
Proof.
  intros p. destruct mutex_excludes_same_key as (Hheld & Hfree & Hloop).
  assert (Hrun : running_handlers p = ["file:///w"]) by (vm_compute; reflexivity).
  assert (Hin : "file:///w" ∈ activeMutex (state p)) by (vm_compute; reflexivity).
  assert (Hout : "file:///tmp/c.gr" ∉ activeMutex (state p)) by (vm_compute; intros [=]).
  split_and!; [done|done| |done|].
  - apply (Hheld _ _ (workspaceConfigHandler Sample.outer)). exact Hin.
  - apply (Hfree _ _ (fileConfigHandler (document_uri Sample.loose))). exact Hout.
Defined.

Lemma run_settle_guard oracle key (t : Task unit) s :
  run oracle (settle_guard key t) s = settled_guard key (run oracle t s).
Proof.
  unfold settle_guard. revert s.
  induction t as [[]|e| |k IH|g k IH|c k IH]; intros s; simpl; try done.
  destruct c; simpl; apply IH.
Qed.

(** C10. An invocation of [mutex(key, fn)] that is let in always gives
    its key back: when the wrapped function resolves, and also when it
    rejects (the rejection then reaches the host as an uncaught error),
    the run ends with [key] deleted from [activeMutex], so that the next
    invocation for [key] is let in again.  On the event loop a key is in
    [activeMutex] only while a handler execution for it is under way. *)
Theorem mutex_always_releases :
  (∀ (Args : Type) (key : string) (fn : Args → Task unit) (a : Args)
     (oracle : Oracle) (s : State),
     key ∉ activeMutex s →
     (run oracle (fn a) (lock key s)).2 ≠ OutOfFuel →
     ∃ s',
       run oracle (mutex key fn a) s = (s', Returned tt) ∧
       (key ∉ activeMutex s') ∧
       (∀ s1, run oracle (fn a) (lock key s) = (s1, Returned tt) →
              s' = unlock key s1) ∧
       (∀ s1 err, run oracle (fn a) (lock key s) = (s1, Thrown err) →
                  s' = unlock key (report err s1) ∧ uncaught s' = uncaught s1 ++ [err]) ∧
       (∀ a', advance (mutex key fn a') s'
              = advance (settle_guard key (fn a')) (lock key s'))) ∧
  (∀ p key, reachable p →
     key ∈ activeMutex (state p) →
     ∃ w, w ∈ pending p ∧ origin w = FromConfig key).
Proof.
  split.
  - intros Args key fn a oracle s Hout Hfuel.
    assert (Hfree : ∀ s0, key ∉ activeMutex (unlock key s0)).
    { intros s0. simpl. rewrite elem_of_difference, elem_of_singleton. tauto. }
    assert (Hnext : ∀ s0 a', advance (mutex key fn a') (unlock key s0)
                             = advance (settle_guard key (fn a')) (lock key (unlock key s0))).
    { intros s0 a'. unfold mutex. cbn [advance]. by rewrite decide_False. }
    unfold mutex. cbn [run]. rewrite decide_False by done. cbn [run].
    rewrite run_settle_guard.
    destruct (run oracle (fn a) (lock key s)) as [s1 [[]|err|]]; simpl in *; [| |done].
    + exists (unlock key s1).
      split_and!; [done|apply Hfree|by intros ? [= <-]|by intros ? ? [=]|apply Hnext].
    + exists (unlock key (report err s1)).
      split_and!; [done|apply Hfree|by intros ? [=]|by intros ? ? [= <- <-]|apply Hnext].
  - intros p key Hp Hin. destruct (guarded_reachable p Hp) as (_ & _ & Hkeys).
    apply Hkeys, list_elem_of_omap in Hin as (w & Hw & Hkey). exists w. split; [done|].
    unfold running_key in Hkey. destruct (origin w); congruence.
Qed.

Lemma mutex_always_releases_witness :
  ∃ s',
    run (λ _ _, Rejected (ClientError "stop failed"))
        (configHandler (WorkspaceHandler Sample.outer) (Sample.all true)) Sample.opened
    = (s', Returned tt) ∧
    ("file:///w" ∉ activeMutex s') ∧
    uncaught s' = [ClientError "stop failed"].
Proof.
  destruct (proj1 mutex_always_releases _ "file:///w"
              (workspaceConfigHandler Sample.outer) (Sample.all true)
              (λ _ _, Rejected (ClientError "stop failed")) Sample.opened)
    as (s' & Hrun & Hfree & _ & Hthrown & _).
  - vm_compute. intros [=].
  - vm_compute. intros [=].
  - exists s'. split_and!; [exact Hrun|exact Hfree|].
    edestruct Hthrown as [_ ->]; [reflexivity|]. reflexivity.
Defined.

(** ** Overlapping additions *)

(** C1, as the code has it.  [addWorkspaceClient] looks the key up
    before it awaits [start()] and stores the client afterwards.  When
    two documents of the same outermost folder are opened one right after
    the other, both lookups find no entry: two clients are started for
    the folder, the second [set] overwrites the first, and the first
    client stays live outside the registry, where even [deactivate] does
    not reach it. *)
Theorem overlapping_opens_start_two_clients :
  let p := exec Sample.overlapping_opens (boot Sample.on) in
  pending p = [] ∧
  workspaceClients (state p) = [Some ("file:///w", 1)] ∧
  live_workspace_clients (state p) Sample.outer = [0; 1] ∧
  let q := exec [Deactivate 1; Settle 0 Fulfilled] p in
  pending q = [] ∧
  live_workspace_clients (state q) Sample.outer = [0].
Proof. vm_compute. repeat split. Qed.

(** ** Invariants of the whole event loop *)

Lemma preserves_promise_catch I t h :
  preserves I t → (∀ e, preserves I (h e)) → preserves I (promise_catch t h).
Proof.
  intros Ht Hh. induction t as [a|e| |k IH|g k IH|c k IH]; simpl in *.
  - done.
  - intros ?. apply Hh.
  - done.
  - intros s. by apply IH.
  - destruct Ht. split; [done|]. by apply IH.
  - intros r. by apply IH.
Qed.

Lemma preserves_promise_finally I t g :
  preserves I t → preserves I g → preserves I (promise_finally t g).
Proof.
  intros Ht Hg. induction t as [a|e| |k IH|f k IH|c k IH]; simpl in *.
  - intros ?. by apply preserves_bind.
  - intros ?. by apply preserves_bind.
  - done.
  - intros s. by apply IH.
  - destruct Ht. split; [done|]. by apply IH.
  - intros r. by apply IH.
Qed.

Section Stable.
Context (I : State → Prop) (HI : frame_condition I) (HG : guard_condition I).

Lemma keeps_configHandler h e : preserves I (configHandler h e).
Proof.
  unfold configHandler, mutex. intros s. case_decide; [done|].
  split; [intros; by apply (guard_activeMutex I HG)|].
  apply preserves_promise_finally.
  - apply preserves_promise_catch; [by apply keeps_handler_fn|].
    intros err. apply preserves_act. intros. by apply (guard_report I HG).
  - apply preserves_act. intros. by apply (guard_activeMutex I HG).
Qed.

Lemma stable_progress o t s waiting done :
  preserves I t → I s → Forall (λ w, ∀ r, preserves I (resume w r)) waiting →
  stable I (progress o (advance t s) waiting done).
Proof.
  intros Ht Hs Hall. destruct (advance t s) as [s' x] eqn:Hadv.
  assert (Hs' : I s') by (eapply advance_preserves; [apply HI|done..]).
  destruct x as [r|c k]; simpl; split; try done.
  apply Forall_app. split; [done|]. constructor; [|constructor]. simpl.
  by eapply advance_preserves_rest.
Qed.

Lemma stable_fire e p : stable I p → stable I (fire_configuration e p).
Proof.
  unfold fire_configuration. generalize (configListeners (state p)). intros hs. revert p.
  induction hs as [|h hs IH]; intros p Hp; simpl; [done|].
  apply IH. destruct Hp. by apply stable_progress; [apply keeps_configHandler|..].
Qed.

Lemma stable_step a p : stable I p → stable I (step a p).
Proof.
  intros [Hs Hall]. destruct a as [|fuel|document|event|e|fuel| |h|i r]; simpl.
  - by apply stable_progress; [apply keeps_activate|..].
  - by apply stable_progress; [apply keeps_deactivate|..].
  - destruct (openListener _); [|done].
    apply stable_progress; [|done..].
    apply preserves_bind; [by apply keeps_didOpenTextDocument|done].
  - destruct (foldersListener _); [|done].
    by apply stable_progress; [apply keeps_didChangeWorkspaceFolders|..].
  - by apply stable_fire.
  - destruct (openListener _); [|done].
    by apply stable_progress; [apply keeps_restartAllClients|..].
  - destruct (openListener _); [|done]. split; [by apply HI|done].
  - split; [by apply HI|done].
  - destruct (pending p !! i) as [w|] eqn:Hi; [|done].
    apply stable_progress.
    + by apply (proj1 (Forall_lookup _ _) Hall _ _ Hi).
    + destruct (waiting_for w); simpl; try done; by apply HI.
    + by apply Forall_delete.
Qed.

Lemma stable_exec acts p : stable I p → stable I (exec acts p).
Proof.
  revert p. induction acts as [|a acts IH]; intros p Hp; simpl; [done|].
  by apply IH, stable_step.
Qed.

(** What holds when the module is loaded and is kept by every update
    holds in every state the extension reaches. *)
Lemma invariant_reachable p : (∀ h, I (initial h)) → reachable p → I (state p).
Proof.
  intros Hinit (h & acts & ->). apply stable_exec. split; [apply Hinit|constructor].
Qed.

End Stable.

(** No state of the event loop has a registry with a key in two
    entries. *)
Lemma reachable_registries_wf p : reachable p → registries_wf (state p).
Proof.
  apply invariant_reachable.
  - split; unfold registries_wf; simpl; try done; intros; destruct_and!; split; try done;
      by (apply Map_wf_set || apply Map_wf_delete).
  - by split.
  - intros h. split; apply Map_wf_nil.
Qed.

(** A call of [addWorkspaceClient] that finds no entry is suspended on
    [start()] of a new client, and has not touched the registry. *)
Lemma addWorkspaceClient_suspends folder s command args :
  Map_has (Uri_toString (folder_uri folder)) (workspaceClients s) = false →
  getLspCommand (host s) (folder_uri folder) = inr (Some (command, args)) →
  ∃ k s1,
    advance (addWorkspaceClient folder) s
    = (s1, Waiting (client_start (length (clients s))) k) ∧
    workspaceClients s1 = workspaceClients s ∧ host s1 = host s ∧
    length (clients s1) = S (length (clients s)).
Proof.
  intros Hhas Hcmd. unfold addWorkspaceClient, startWorkspaceClient.
  cbn -[getLspCommand Map_has]. rewrite Hhas.
  cbn -[getLspCommand Map_has]. rewrite Hcmd.
  cbn -[getLspCommand Map_has]. eexists _, _. split_and!; [reflexivity|done..|].
  simpl. rewrite length_app. simpl. lia.
Qed.

Lemma addFileClient_suspends uri s command args :
  Map_has (Uri_toString uri) (fileClients s) = false →
  getLspCommand (host s) uri = inr (Some (command, args)) →
  ∃ k s1,
    advance (addFileClient uri) s
    = (s1, Waiting (client_start (length (clients s))) k) ∧
    fileClients s1 = fileClients s ∧ host s1 = host s ∧
    length (clients s1) = S (length (clients s)).
Proof.
  intros Hhas Hcmd. unfold addFileClient, startFileClient.
  cbn -[getLspCommand Map_has]. rewrite Hhas.
  cbn -[getLspCommand Map_has]. rewrite Hcmd.
  cbn -[getLspCommand Map_has]. eexists _, _. split_and!; [reflexivity|done..|].
  simpl. rewrite length_app. simpl. lia.
Qed.

(** The defect in general: a second call for the same key, made while
    the first is suspended, passes the same test and starts a second
    client. *)
Lemma overlapping_adds_both_start folder s command args :
  Map_has (Uri_toString (folder_uri folder)) (workspaceClients s) = false →
  getLspCommand (host s) (folder_uri folder) = inr (Some (command, args)) →
  ∃ k1 s1 k2 s2,
    advance (addWorkspaceClient folder) s
    = (s1, Waiting (client_start (length (clients s))) k1) ∧
    advance (addWorkspaceClient folder) s1
    = (s2, Waiting (client_start (S (length (clients s)))) k2) ∧
    workspaceClients s2 = workspaceClients s.
Proof.
  intros Hhas Hcmd.
  destruct (addWorkspaceClient_suspends folder s command args Hhas Hcmd)
    as (k1 & s1 & H1 & Hreg1 & Hhost1 & Hlen1).
  destruct (addWorkspaceClient_suspends folder s1 command args)
    as (k2 & s2 & H2 & Hreg2 & _); [by rewrite Hreg1|by rewrite Hhost1|].
  exists k1, s1, k2, s2. rewrite Hlen1 in H2. split_and!; [done..|congruence].
Qed.

Lemma overlapping_file_adds_both_start uri s command args :
  Map_has (Uri_toString uri) (fileClients s) = false →
  getLspCommand (host s) uri = inr (Some (command, args)) →
  ∃ k1 s1 k2 s2,
    advance (addFileClient uri) s
    = (s1, Waiting (client_start (length (clients s))) k1) ∧
    advance (addFileClient uri) s1
    = (s2, Waiting (client_start (S (length (clients s)))) k2) ∧
    fileClients s2 = fileClients s.
Proof.
  intros Hhas Hcmd.
  destruct (addFileClient_suspends uri s command args Hhas Hcmd)
    as (k1 & s1 & H1 & Hreg1 & Hhost1 & Hlen1).
  destruct (addFileClient_suspends uri s1 command args)
    as (k2 & s2 & H2 & Hreg2 & _); [by rewrite Hreg1|by rewrite Hhost1|].
  exists k1, s1, k2, s2. rewrite Hlen1 in H2. split_and!; [done..|congruence].
Qed.

(** [didChangeWorkspaceFolders] empties the cache of sorted folders, so
    that the next [sortWorkspaceFolders] reads the folders of the host
    again. *)
Lemma didChangeWorkspaceFolders_resets_cache oracle event s :
  Map_wf (workspaceClients s) →
  workspaceFolders (run oracle (didChangeWorkspaceFolders event) s).1 = [] ∧
  cache_coherent (run oracle (didChangeWorkspaceFolders event) s).1.
Proof.
  intros Hwf. unfold didChangeWorkspaceFolders. rewrite run_bind. cbn [act run continue_with].
  destruct (remove_each_run oracle (removed event) (set_workspaceFolders [] s) Hwf)
    as (s' & r & evs & -> & _ & _ & _ & _ & Hcache & _).
  simpl. split; [done|by left].
Qed.

(** ** Operations that do not overlap *)

Lemma live_spec tr c :
  live tr c = true ↔
  EvSettled (client_start c) Fulfilled ∈ tr ∧ EvCall (client_stop c) ∉ tr.
Proof.
  unfold live. rewrite andb_true_iff, negb_true_iff, bool_decide_eq_true,
    bool_decide_eq_false. done.
Qed.

Lemma tracked_initial h : tracked (initial h).
Proof.
  split.
  - by intros c ?%elem_of_nil.
  - intros c lc [?%elem_of_nil _]%live_spec. done.
Qed.

(** A client started for [key], which had no entry, and registered. *)
Lemma tracked_added s s' lc msg :
  let c := length (clients s) in
  tracked s →
  trace s' = trace s ++ [EvInfo c msg; EvCall (client_start c);
                         EvSettled (client_start c) Fulfilled; EvRegisterCompletion c] →
  clients s' = clients s ++ [lc] →
  match workspaceFolder (clientOptions lc) with
  | Some folder =>
      Map_get (Uri_toString (folder_uri folder)) (workspaceClients s) = None ∧
      workspaceClients s'
      = Map_set (Uri_toString (folder_uri folder)) c (workspaceClients s) ∧
      fileClients s' = fileClients s
  | None =>
      ∃ key, Map_get key (fileClients s) = None ∧
             fileClients s' = Map_set key c (fileClients s) ∧
             workspaceClients s' = workspaceClients s
  end →
  tracked s'.
Proof.
  intros c [Hfresh Hlive] Htr Hcl Hreg. split.
  - intros c'. rewrite Htr, Hcl, length_app, elem_of_app. simpl.
    intros [Hin|Hin]; [apply Hfresh in Hin; lia|].
    rewrite !elem_of_cons, elem_of_nil in Hin.
    destruct Hin as [[=]|[[=]|[[= ->]|[[=]|[]]]]]. unfold c. lia.
  - intros c' lc'. rewrite live_spec, Htr, Hcl, !elem_of_app.
    intros [Hstart Hstop] Hlc'. destruct (decide (c' = c)) as [->|Hne].
    + unfold c in Hlc'. rewrite list_lookup_middle in Hlc' by done. injection Hlc' as <-.
      destruct (workspaceFolder (clientOptions lc)) as [folder|].
      * destruct Hreg as (_ & -> & _). apply Map_get_set_eq.
      * destruct Hreg as (key & _ & -> & _). exists key. apply Map_get_set_eq.
    + assert (Hold : EvSettled (client_start c') Fulfilled ∈ trace s).
      { destruct Hstart as [?|Hin]; [done|]. rewrite !elem_of_cons, elem_of_nil in Hin.
        by destruct Hin as [[=]|[[=]|[[= ->]|[[=]|[]]]]]. }
      rewrite lookup_app_l in Hlc' by (by apply Hfresh).
      assert (Hwas : live (trace s) c' = true) by (apply live_spec; tauto).
      specialize (Hlive c' lc' Hwas Hlc').
      destruct (workspaceFolder (clientOptions lc')) as [folder'|].
      * destruct (workspaceFolder (clientOptions lc)) as [folder|].
        -- destruct Hreg as (Hnone & -> & _).
           destruct (decide (Uri_toString (folder_uri folder)
                             = Uri_toString (folder_uri folder'))) as [Heq|Hkey].
           ++ rewrite Heq in Hnone. congruence.
           ++ by rewrite Map_get_set_ne.
        -- destruct Hreg as (key & _ & _ & ->). done.
      * destruct Hlive as [key' Hkey']. exists key'.
        destruct (workspaceFolder (clientOptions lc)) as [folder|].
        -- destruct Hreg as (_ & _ & ->). done.
        -- destruct Hreg as (key & Hnone & -> & _).
           destruct (decide (key = key')) as [->|Hkey]; [congruence|].
           by rewrite Map_get_set_ne.
Qed.

(** Events that start or register nothing, with the registries left
    alone or one client, on which [stop()] was called, deleted. *)
Lemma tracked_passive s s' evs :
  tracked s →
  trace s' = trace s ++ evs →
  (∀ c, EvSettled (client_start c) Fulfilled ∉ evs) →
  length (clients s) ≤ length (clients s') →
  (∀ c lc, c < length (clients s) → clients s' !! c = Some lc → clients s !! c = Some lc) →
  (∀ key c, Map_get key (workspaceClients s) = Some c →
            Map_get key (workspaceClients s') = Some c ∨ EvCall (client_stop c) ∈ evs) →
  (∀ key c, Map_get key (fileClients s) = Some c →
            Map_get key (fileClients s') = Some c ∨ EvCall (client_stop c) ∈ evs) →
  tracked s'.
Proof.
  intros [Hfresh Hlive] Htr Hevs Hlen Hcl Hws Hfc. split.
  - intros c. rewrite Htr, elem_of_app. intros [Hin|Hin]; [|by apply Hevs in Hin].
    apply Hfresh in Hin. lia.
  - intros c lc. rewrite live_spec, Htr, !elem_of_app. intros [Hstart Hstop] Hlc.
    assert (Hold : EvSettled (client_start c) Fulfilled ∈ trace s).
    { destruct Hstart as [?|Hin]; [done|]. by apply Hevs in Hin. }
    assert (Hwas : live (trace s) c = true) by (apply live_spec; tauto).
    specialize (Hlive c lc Hwas (Hcl _ _ (Hfresh _ Hold) Hlc)).
    destruct (workspaceFolder (clientOptions lc)) as [folder|].
    + destruct (Hws _ _ Hlive); tauto.
    + destruct Hlive as [key Hkey]. exists key. destruct (Hfc _ _ Hkey); tauto.
Qed.

Lemma tracked_operation oracle op s : tracked s → tracked (run oracle (operation op) s).1.
Proof.
  intros Hs. destruct op as [uri|uri|folder|folder]; cbn [operation].
  - rewrite addFileClient_run. destruct (Map_has _ _) eqn:Hhas; [done|].
    apply Map_has_false in Hhas. rewrite startFileClient_run.
    destruct (getLspCommand _ _) as [err|[[command args]|]]; [done| |done].
    unfold start_outcome. case_oracle; simpl.
    + eapply (tracked_added s); [done|simpl; by rewrite <- !app_assoc|done|].
      simpl. exists (Uri_toString uri). done.
    + eapply (tracked_passive s); [done|simpl; by rewrite <- !app_assoc|..]; simpl.
      * intros c. rewrite !elem_of_cons, elem_of_nil. by intros [[=]|[[=]|[[=]|[]]]].
      * rewrite length_app. lia.
      * intros c lc Hc. by rewrite lookup_app_l.
      * by left.
      * by left.
  - rewrite removeFileClient_run. destruct (Map_get _ _) as [client|] eqn:Hget; [|done].
    unfold stop_outcome. case_oracle; simpl.
    + eapply (tracked_passive s); [done|simpl; by rewrite <- !app_assoc|..]; simpl;
        try done.
      * intros c. rewrite !elem_of_cons, elem_of_nil. by intros [[=]|[[=]|[]]].
      * by left.
      * intros key c Hc. destruct (decide (Uri_toString uri = key)) as [<-|Hne].
        -- right. assert (c = client) as -> by congruence. apply list_elem_of_here.
        -- left. by rewrite Map_get_delete_ne.
    + eapply (tracked_passive s); [done|simpl; by rewrite <- !app_assoc|..]; simpl;
        try done; try by left.
      intros c. rewrite !elem_of_cons, elem_of_nil. by intros [[=]|[[=]|[]]].
  - rewrite addWorkspaceClient_run. destruct (Map_has _ _) eqn:Hhas; [done|].
    apply Map_has_false in Hhas. rewrite startWorkspaceClient_run.
    destruct (getLspCommand _ _) as [err|[[command args]|]]; [done| |done].
    unfold start_outcome. case_oracle; simpl.
    + eapply (tracked_added s); [done|simpl; by rewrite <- !app_assoc|done|]. done.
    + eapply (tracked_passive s); [done|simpl; by rewrite <- !app_assoc|..]; simpl.
      * intros c. rewrite !elem_of_cons, elem_of_nil. by intros [[=]|[[=]|[[=]|[]]]].
      * rewrite length_app. lia.
      * intros c lc Hc. by rewrite lookup_app_l.
      * by left.
      * by left.
  - rewrite removeWorkspaceClient_run. destruct (Map_get _ _) as [client|] eqn:Hget; [|done].
    unfold stop_outcome. case_oracle; simpl.
    + eapply (tracked_passive s); [done|simpl; by rewrite <- !app_assoc|..]; simpl;
        try done.
      * intros c. rewrite !elem_of_cons, elem_of_nil. by intros [[=]|[[=]|[]]].
      * intros key c Hc.
        destruct (decide (Uri_toString (folder_uri folder) = key)) as [<-|Hne].
        -- right. assert (c = client) as -> by congruence. apply list_elem_of_here.
        -- left. by rewrite Map_get_delete_ne.
      * by left.
    + eapply (tracked_passive s); [done|simpl; by rewrite <- !app_assoc|..]; simpl;
        try done; try by left.
      intros c. rewrite !elem_of_cons, elem_of_nil. by intros [[=]|[[=]|[]]].
Qed.

Lemma tracked_run_each oracle ops s : tracked s → tracked (run_each oracle ops s).
Proof.
  revert s. induction ops as [|op ops IH]; intros s Hs; simpl; [done|].
  by apply IH, tracked_operation.
Qed.

(** Without overlap the guard of the add functions does its work: after
    any sequence of additions and removals, each finished before the
    next begins, at most one live client serves a workspace folder, and
    it is the client registered for the folder. *)
Lemma sequential_operations_one_live_client oracle ops h folder :
  let s := run_each oracle ops (initial h) in
  ∀ c, c ∈ live_workspace_clients s folder →
       Map_get (Uri_toString (folder_uri folder)) (workspaceClients s) = Some c ∧
       live_workspace_clients s folder = [c].
Proof.
  intros s.
  assert (Htracked : tracked s) by apply tracked_run_each, tracked_initial.
  assert (Hreg : ∀ c, c ∈ live_workspace_clients s folder →
            Map_get (Uri_toString (folder_uri folder)) (workspaceClients s) = Some c).
  { intros c [[Hlive Hopt] _]%list_elem_of_filter.
    destruct (clients s !! c) as [lc|] eqn:Hlc; [|done]. simpl in Hopt.
    pose proof (proj2 Htracked c lc Hlive Hlc) as Hc. by rewrite Hopt in Hc. }
  intros c Hc. split; [by apply Hreg|].
  assert (Hnd : NoDup (live_workspace_clients s folder)).
  { apply NoDup_filter, NoDup_seq. }
  destruct (live_workspace_clients s folder) as [|c1 [|c2 rest]] eqn:Hl.
  - by apply elem_of_nil in Hc.
  - by apply list_elem_of_singleton in Hc as ->.
  - exfalso. apply NoDup_cons in Hnd as [Hnot _].
    apply Hnot. assert (c1 = c2) as ->; [|apply list_elem_of_here].
    pose proof (Hreg c1 ltac:(apply list_elem_of_here)).
    pose proof (Hreg c2 ltac:(apply list_elem_of_further, list_elem_of_here)).
    congruence.
Qed.

(** ** Directory paths and globs *)

(** X1. [dirpathFromUri] always answers a string that ends in a slash,
    and it is idempotent: a URI that already prints as the directory
    path of some URI gets that very path, with no second slash. *)
Theorem dirpathFromUri_trailing_slash (uri : Uri) :
  Js.endsWith (dirpathFromUri uri) "/" = true ∧
  (∃ stem, dirpathFromUri uri = stem +:+ "/") ∧
  ∀ uri', Uri_toString uri' = dirpathFromUri uri → dirpathFromUri uri' = dirpathFromUri uri.
Proof.
  assert (Hends : Js.endsWith (dirpathFromUri uri) "/" = true).
  { unfold dirpathFromUri. destruct (Js.endsWith (Uri_toString uri) "/") eqn:Hends; simpl;
      [done|apply endsWith_append]. }
  split_and!; [done|by apply endsWith_spec|].
  intros uri' Heq. unfold dirpathFromUri at 1. by rewrite Heq, Hends.
Qed.

(** X2. The glob handed to the client library as a document pattern has
    no backslash; it is as long as the file-system path and the glob put
    together, and it is exactly the two put together when they have no
    backslash. *)
Theorem globFromUri_forward_slashes (uri : Uri) (glob : string) :
  ("\"%char ∉ chars (globFromUri uri glob)) ∧
  String.length (globFromUri uri glob) = String.length (fsPath uri) + String.length glob ∧
  (("\"%char ∉ chars (fsPath uri)) → ("\"%char ∉ chars glob) →
   globFromUri uri glob = fsPath uri +:+ glob).
Proof.
  unfold globFromUri. split_and!.
  - apply replaceAll_backslash_chars.
  - by rewrite replaceAll_backslash_length, length_append.
  - intros Hpath Hglob. apply replaceAll_backslash_id. rewrite chars_append, elem_of_app. tauto.
Qed.

(** ** The sorted cache of workspace folders *)

Lemma insert_by_length_perm x l : insert_by_length x l ≡ₚ x :: l.
Proof.
  induction l as [|y l IH]; simpl; [done|]. case_decide; [done|].
  rewrite IH. apply Permutation_swap.
Qed.

Lemma sort_by_length_perm l : sort_by_length l ≡ₚ l.
Proof.
  induction l as [|x l IH]; simpl; [done|].
  unfold sort_by_length in *. by rewrite insert_by_length_perm, IH.
Qed.

(** The new element goes before the elements of its own length. *)
Lemma insert_by_length_filter n x l :
  filter (λ y, String.length y = n) (insert_by_length x l)
  = filter (λ y, String.length y = n) (x :: l).
Proof.
  induction l as [|y l IH]; simpl; [done|]. case_decide as Hle; [done|].
  rewrite (filter_cons _ y), IH, !filter_cons.
  repeat case_decide; try done; lia.
Qed.

Lemma sort_by_length_filter n l :
  filter (λ y, String.length y = n) (sort_by_length l)
  = filter (λ y, String.length y = n) l.
Proof.
  induction l as [|x l IH]; [done|].
  change (sort_by_length (x :: l)) with (insert_by_length x (sort_by_length l)).
  by rewrite insert_by_length_filter, !filter_cons, IH.
Qed.

(** X3. Called with an empty cache, [sortWorkspaceFolders] answers and
    caches the directory paths of the host's folders rearranged by
    length, shortest first, paths of the same length in the order of the
    host.  Once the cache is not empty it is answered as it is, whatever
    folders the host has by then. *)
Theorem sortWorkspaceFolders_sorts_and_caches (oracle : Oracle) (s : State) :
  workspaceFolders s = [] →
  ∃ sorted,
    run oracle sortWorkspaceFolders s = (set_workspaceFolders sorted s, Returned sorted) ∧
    sorted ≡ₚ host_dirpaths (host s) ∧
    StronglySorted shorter sorted ∧
    (∀ n, filter (λ d, String.length d = n) sorted
          = filter (λ d, String.length d = n) (host_dirpaths (host s))) ∧
    (sorted ≠ [] → ∀ h',
       run oracle sortWorkspaceFolders (set_host h' (set_workspaceFolders sorted s))
       = (set_host h' (set_workspaceFolders sorted s), Returned sorted)).
Proof.
  intros Hempty. exists (sort_by_length (host_dirpaths (host s))). split_and!.
  - unfold sortWorkspaceFolders, host_dirpaths, current_folders. cbn [run].
    rewrite Hempty. simpl. by destruct (workspace_workspaceFolders (host s)).
  - apply sort_by_length_perm.
  - apply sort_by_length_sorted.
  - intros n. apply sort_by_length_filter.
  - intros Hne h'. unfold sortWorkspaceFolders. cbn [run]. simpl.
    rewrite decide_False; [done|]. by destruct (sort_by_length _).
Qed.

Lemma sortWorkspaceFolders_sorts_and_caches_witness :
  ∃ sorted,
    run always_fulfilled sortWorkspaceFolders (initial Example.three_folders)
    = (set_workspaceFolders sorted (initial Example.three_folders), Returned sorted) ∧
    sorted ≡ₚ host_dirpaths Example.three_folders ∧
    StronglySorted shorter sorted ∧
    (∀ n, filter (λ d, String.length d = n) sorted
          = filter (λ d, String.length d = n) (host_dirpaths Example.three_folders)) ∧
    (sorted ≠ [] → ∀ h',
       run always_fulfilled sortWorkspaceFolders
         (set_host h' (set_workspaceFolders sorted (initial Example.three_folders)))
       = (set_host h' (set_workspaceFolders sorted (initial Example.three_folders)),
          Returned sorted)).
Proof.
  apply (sortWorkspaceFolders_sorts_and_caches always_fulfilled
           (initial Example.three_folders)).
  reflexivity.
Defined.

(** ** The command line of the language server *)

Lemma join_lsp flags : Js.join_space ("lsp" :: Js.split_space flags) = "lsp " +:+ flags.
Proof.
  unfold Js.join_space. destruct (Js.split_space flags) as [|w ws] eqn:Hsplit.
  - by apply split_space_nonempty in Hsplit.
  - change (String.concat " " ("lsp" :: w :: ws))
      with ("lsp " +:+ Js.join_space (w :: ws)).
    by rewrite <- Hsplit, join_split.
Qed.

(** X4. Whenever [getLspCommand] answers a command line, the LSP is
    enabled, the command does not end in [.EXE], and the arguments are
    [lsp] followed by the pieces of the configured flags between single
    spaces: at least one piece, so at least two arguments, none of which
    has a space.  The line announced by [client.info] is the command,
    [lsp] and the flags as they were configured. *)
Theorem getLspCommand_result (h : Host) (uri : Uri) (command : string) (args : list string) :
  getLspCommand h uri = inr (Some (command, args)) →
  enableLSP (workspace_getConfiguration h uri) = Some true ∧
  Js.endsWith command ".EXE" = false ∧
  args = "lsp" :: Js.split_space (Js.or_else (cliFlags (workspace_getConfiguration h uri)) "") ∧
  2 ≤ length args ∧
  (∀ w, w ∈ args → " "%char ∉ chars w) ∧
  starting_message command args
  = "Starting LSP client using command: " +:+ command +:+ " lsp "
    +:+ Js.or_else (cliFlags (workspace_getConfiguration h uri)) "".
Proof.
  unfold getLspCommand.
  destruct (enableLSP (workspace_getConfiguration h uri)) as [[|]|]; try done.
  destruct (match cliPath _ with Some (String c r) => _ | _ => _ end) as [err|found];
    [done|].
  intros [= <- <-]. split_and!; [done|apply replace_EXE_suffix_none|done| | |].
  - pose proof (split_space_nonempty
                  (Js.or_else (cliFlags (workspace_getConfiguration h uri)) "")).
    destruct (Js.split_space _); [done|]. simpl. lia.
  - intros w [->|Hw]%elem_of_cons; [|by eapply split_space_no_space].
    unfold chars. simpl. rewrite !elem_of_cons, elem_of_nil. by intros [|[|[|[]]]].
  - unfold starting_message. by rewrite join_lsp.
Qed.

Lemma getLspCommand_result_witness :
  enableLSP (workspace_getConfiguration Example.configured Example.windows_uri) = Some true ∧
  Js.endsWith "C:\grain\grain.exe" ".EXE" = false ∧
  ["lsp"; "--debug"; "-v"]
  = "lsp" :: Js.split_space
      (Js.or_else (cliFlags (workspace_getConfiguration Example.configured
                               Example.windows_uri)) "") ∧
  2 ≤ length ["lsp"; "--debug"; "-v"] ∧
  (∀ w, w ∈ ["lsp"; "--debug"; "-v"] → " "%char ∉ chars w) ∧
  starting_message "C:\grain\grain.exe" ["lsp"; "--debug"; "-v"]
  = "Starting LSP client using command: " +:+ "C:\grain\grain.exe" +:+ " lsp "
    +:+ Js.or_else (cliFlags (workspace_getConfiguration Example.configured
                                Example.windows_uri)) "".
Proof.
  apply (getLspCommand_result Example.configured Example.windows_uri
           "C:\grain\grain.exe" ["lsp"; "--debug"; "-v"]).
  reflexivity.
Defined.

Lemma getLspCommand_not_found h uri :
  enableLSP (workspace_getConfiguration h uri) = Some true →
  cliPath (workspace_getConfiguration h uri) = None ∨
  cliPath (workspace_getConfiguration h uri) = Some "" →
  (∀ bin, bin ∈ grainBinaries → which_sync h bin = None) →
  getLspCommand h uri = inl (Error "Unable to locate any Grain binary. Did you install it?").
Proof.
  intros Hon Hunset Hnone. unfold getLspCommand, findGrain. rewrite Hon.
  rewrite (findGrain_from_none h grainBinaries Hnone).
  by destruct Hunset as [-> | ->].
Qed.

(** X5. With the LSP enabled, a configured non-empty [grain.cliPath] is
    the command, with a final [.EXE] lowered to [.exe], and the path is
    not searched at all.  Only without such a setting is [findGrain]
    consulted: its first hit is the command, and its [Error] is thrown
    when it finds nothing. *)
Theorem getLspCommand_command_source (h : Host) (uri : Uri) :
  enableLSP (workspace_getConfiguration h uri) = Some true →
  (∀ path, cliPath (workspace_getConfiguration h uri) = Some path → path ≠ "" →
     ∃ args, getLspCommand h uri = inr (Some (Js.replace_EXE_suffix path, args))) ∧
  (∀ stem, cliPath (workspace_getConfiguration h uri) = Some (stem +:+ ".EXE") →
     ∃ args, getLspCommand h uri = inr (Some (stem +:+ ".exe", args))) ∧
  (cliPath (workspace_getConfiguration h uri) = None ∨
   cliPath (workspace_getConfiguration h uri) = Some "" →
   (∀ i bin path, grainBinaries !! i = Some bin → which_sync h bin = Some path →
      (∀ j b, j < i → grainBinaries !! j = Some b → which_sync h b = None) →
      ∃ args, getLspCommand h uri = inr (Some (Js.replace_EXE_suffix path, args))) ∧
   ((∀ bin, bin ∈ grainBinaries → which_sync h bin = None) →
    getLspCommand h uri
    = inl (Error "Unable to locate any Grain binary. Did you install it?"))).
Proof.
  intros Hon.
  assert (Hset : ∀ path, cliPath (workspace_getConfiguration h uri) = Some path →
            path ≠ "" →
            ∃ args, getLspCommand h uri = inr (Some (Js.replace_EXE_suffix path, args))).
  { intros path Hpath Hne. unfold getLspCommand. rewrite Hon, Hpath.
    destruct path as [|c r]; [done|]. by eexists. }
  split_and!; [done| |].
  - intros stem Hpath. rewrite <- replace_EXE_suffix_lowered. apply Hset; [done|].
    by destruct stem.
  - intros Hunset. split.
    + intros i bin path Hi Hp Hmin. unfold getLspCommand, findGrain. rewrite Hon.
      rewrite (findGrain_from_first h grainBinaries i bin path Hi Hp Hmin).
      destruct Hunset as [-> | ->]; by eexists.
    + intros Hnone. by apply getLspCommand_not_found.
Qed.

Lemma getLspCommand_command_source_witness :
  (∀ path, cliPath (workspace_getConfiguration Example.configured Example.windows_uri)
           = Some path → path ≠ "" →
     ∃ args, getLspCommand Example.configured Example.windows_uri
             = inr (Some (Js.replace_EXE_suffix path, args))) ∧
  (∀ stem, cliPath (workspace_getConfiguration Example.configured Example.windows_uri)
           = Some (stem +:+ ".EXE") →
     ∃ args, getLspCommand Example.configured Example.windows_uri
             = inr (Some (stem +:+ ".exe", args))) ∧
  (cliPath (workspace_getConfiguration Example.configured Example.windows_uri) = None ∨
   cliPath (workspace_getConfiguration Example.configured Example.windows_uri) = Some "" →
   (∀ i bin path, grainBinaries !! i = Some bin →
      which_sync Example.configured bin = Some path →
      (∀ j b, j < i → grainBinaries !! j = Some b → which_sync Example.configured b = None) →
      ∃ args, getLspCommand Example.configured Example.windows_uri
              = inr (Some (Js.replace_EXE_suffix path, args))) ∧
   ((∀ bin, bin ∈ grainBinaries → which_sync Example.configured bin = None) →
    getLspCommand Example.configured Example.windows_uri
    = inl (Error "Unable to locate any Grain binary. Did you install it?"))).
Proof.
  apply (getLspCommand_command_source Example.configured Example.windows_uri).
  reflexivity.
Defined.

(** ** One operation on a registry, run alone *)


Lemma operation_outcome oracle op s :
  let x := run oracle (operation op) s in
  ∃ evs, op_outcome op s x.1 x.2 evs ∧
    trace x.1 = trace s ++ evs ∧
    other_registry op x.1 = other_registry op s ∧
    host x.1 = host s ∧ activeMutex x.1 = activeMutex s ∧
    configListeners x.1 = configListeners s ∧ workspaceFolders x.1 = workspaceFolders s.
Proof.
  destruct op as [uri|uri|folder|folder]; cbn [operation].
  - rewrite addFileClient_run. destruct (Map_has _ _) eqn:Hhas.
    { exists []. rewrite app_nil_r. split_and!; try done.
      apply op_skipped. by apply Map_has_true. }
    apply Map_has_false in Hhas. rewrite startFileClient_run.
    destruct (getLspCommand _ _) as [err|[[command args]|]].
    + exists []. rewrite app_nil_r. split_and!; try done. by apply op_no_command.
    + unfold start_outcome. case_oracle; simpl.
      * eexists. split_and!; [by eapply op_added|by rewrite <- !app_assoc|done..].
      * eexists. split_and!; [by eapply op_start_rejected|by rewrite <- !app_assoc|done..].
    + exists []. rewrite app_nil_r. split_and!; try done. by apply op_no_command.
  - rewrite removeFileClient_run. destruct (Map_get _ _) as [client|] eqn:Hget.
    2:{ exists []. rewrite app_nil_r. split_and!; try done. by apply op_skipped. }
    unfold stop_outcome. case_oracle; simpl.
    + eexists. split_and!; [by eapply op_removed|by rewrite <- !app_assoc|done..].
    + eexists. split_and!; [by eapply op_stop_rejected|by rewrite <- !app_assoc|done..].
  - rewrite addWorkspaceClient_run. destruct (Map_has _ _) eqn:Hhas.
    { exists []. rewrite app_nil_r. split_and!; try done.
      apply op_skipped. by apply Map_has_true. }
    apply Map_has_false in Hhas. rewrite startWorkspaceClient_run.
    destruct (getLspCommand _ _) as [err|[[command args]|]].
    + exists []. rewrite app_nil_r. split_and!; try done. by apply op_no_command.
    + unfold start_outcome. case_oracle; simpl.
      * eexists. split_and!; [by eapply op_added|by rewrite <- !app_assoc|done..].
      * eexists. split_and!; [by eapply op_start_rejected|by rewrite <- !app_assoc|done..].
    + exists []. rewrite app_nil_r. split_and!; try done. by apply op_no_command.
  - rewrite removeWorkspaceClient_run. destruct (Map_get _ _) as [client|] eqn:Hget.
    2:{ exists []. rewrite app_nil_r. split_and!; try done. by apply op_skipped. }
    unfold stop_outcome. case_oracle; simpl.
    + eexists. split_and!; [by eapply op_removed|by rewrite <- !app_assoc|done..].
    + eexists. split_and!; [by eapply op_stop_rejected|by rewrite <- !app_assoc|done..].
Qed.

Lemma operation_skips oracle op s :
  (if is_add op then is_Some (Map_get (op_key op) (op_registry op s))
   else Map_get (op_key op) (op_registry op s) = None) →
  run oracle (operation op) s = (s, Returned tt).
Proof.
  destruct op as [uri|uri|folder|folder]; cbn [operation is_add op_key op_registry].
  - intros Hsome%Map_has_true. by rewrite addFileClient_run, Hsome.
  - intros Hnone. by rewrite removeFileClient_run, Hnone.
  - intros Hsome%Map_has_true. by rewrite addWorkspaceClient_run, Hsome.
  - intros Hnone. by rewrite removeWorkspaceClient_run, Hnone.
Qed.

Lemma op_registry_wf op s : registries_wf s → Map_wf (op_registry op s).
Proof. intros [Hf Hw]. by destruct op. Qed.

(** X6. An addition or a removal that has returned has nothing left to
    do: run once more from the state it ended in, whatever the client
    library would answer, it returns at once and changes nothing. *)
Theorem operation_idempotent (oracle oracle' : Oracle) (op : RegistryOp) (s s1 : State) :
  registries_wf s →
  run oracle (operation op) s = (s1, Returned tt) →
  run oracle' (operation op) s1 = (s1, Returned tt).
Proof.
  intros Hwf Hrun. destruct (operation_outcome oracle op s) as (evs & Hout & _).
  rewrite Hrun in Hout. simpl in Hout. apply operation_skips.
  inversion Hout as [Hskip| |s' lc msg c Hadd Hnone Hcl _ Hreg| |s' c Hadd Hsome Hcl Hreg|];
    subst.
  - done.
  - rewrite Hadd, Hreg. rewrite Map_get_set_eq. by eexists.
  - rewrite Hadd, Hreg. apply Map_get_delete_eq. by apply op_registry_wf.
Qed.

Lemma operation_idempotent_witness :
  run always_fulfilled (operation (RemoveWorkspaceClient Sample.outer))
    (run always_fulfilled (operation (RemoveWorkspaceClient Sample.outer)) Sample.opened).1
  = ((run always_fulfilled (operation (RemoveWorkspaceClient Sample.outer)) Sample.opened).1,
     Returned tt).
Proof.
  apply (operation_idempotent always_fulfilled always_fulfilled
           (RemoveWorkspaceClient Sample.outer) Sample.opened).
  - split; intros i j k v w Hi Hj; destruct i as [|i], j as [|j]; done.
  - reflexivity.
Defined.

Lemma live_stopped tr c : EvCall (client_stop c) ∈ tr → live tr c = false.
Proof.
  intros Hin. unfold live. rewrite (bool_decide_eq_true_2 (EvCall (client_stop c) ∈ tr)) by done.
  apply andb_false_r.
Qed.

(** X7. Adding a client for a key that has none, and then removing it:
    one client is created and started, its completion provider is
    registered, [stop()] is called on that same client, and in the end
    the key has no client again while every other key of the registry,
    and the other registry, are as they were. *)
Theorem add_then_remove (oracle oracle' : Oracle) (op : RegistryOp) (s s1 s2 : State) :
  registries_wf s →
  is_add op = true →
  Map_get (op_key op) (op_registry op s) = None →
  run oracle (operation op) s = (s1, Returned tt) →
  run oracle' (operation (removal op)) s1 = (s2, Returned tt) →
  ∃ evs, trace s2 = trace s ++ evs ∧
    started evs = [length (clients s)] ∧
    completions evs = [length (clients s)] ∧
    stopped evs = [length (clients s)] ∧
    live (trace s2) (length (clients s)) = false ∧
    Map_get (op_key op) (op_registry op s2) = None ∧
    (∀ key, key ≠ op_key op →
       Map_get key (op_registry op s2) = Map_get key (op_registry op s)) ∧
    other_registry op s2 = other_registry op s.
Proof.
  intros Hwf Hadd Hnone Hrun1 Hrun2.
  destruct (operation_outcome oracle op s) as (evs1 & Hout1 & Htr1 & Hoth1 & _).
  rewrite Hrun1 in Hout1, Htr1, Hoth1. simpl in Hout1, Htr1, Hoth1.
  destruct (operation_outcome oracle' (removal op) s1) as (evs2 & Hout2 & Htr2 & Hoth2 & _).
  rewrite Hrun2 in Hout2, Htr2, Hoth2. simpl in Hout2, Htr2, Hoth2.
  assert (Hkey : op_key (removal op) = op_key op) by (by destruct op).
  assert (Hreg : op_registry (removal op) = op_registry op) by (by destruct op).
  assert (Hother : other_registry (removal op) = other_registry op) by (by destruct op).
  rewrite Hother in Hoth2.
  inversion Hout1 as [Hskip| |s' lc msg c _ _ Hcl1 _ Hreg1| | |]; subst.
  { rewrite Hadd, Hnone in Hskip. by destruct Hskip. }
  2:{ by destruct op. }
  inversion Hout2 as [Hskip| | | |s' c' Hrem Hsome Hcl2 Hreg2|]; subst.
  { assert (is_add (removal op) = false) as Hrem by (by destruct op).
    rewrite Hrem, Hkey, Hreg, Hreg1, Map_get_set_eq in Hskip. done. }
  all: try by destruct op.
  rewrite Hkey, Hreg in Hsome, Hreg2. rewrite Hreg1, Map_get_set_eq in Hsome.
  injection Hsome as <-.
  eexists. rewrite Htr2, Htr1, <- app_assoc. split_and!; [done..| | | |congruence].
  - apply live_stopped. rewrite !elem_of_app. right. right. apply list_elem_of_here.
  - rewrite Hreg2. apply Map_get_delete_eq. rewrite Hreg1.
    by apply Map_wf_set, op_registry_wf.
  - intros key Hne. by rewrite Hreg2, Hreg1, Map_get_delete_ne, Map_get_set_ne.
Qed.

Lemma add_then_remove_witness :
  ∃ evs, trace Example.removed = trace (initial Sample.on) ++ evs ∧
    started evs = [0] ∧ completions evs = [0] ∧ stopped evs = [0] ∧
    live (trace Example.removed) 0 = false ∧
    Map_get "file:///tmp/c.gr" (fileClients Example.removed) = None ∧
    (∀ key, key ≠ "file:///tmp/c.gr" →
       Map_get key (fileClients Example.removed)
       = Map_get key (fileClients (initial Sample.on))) ∧
    workspaceClients Example.removed = workspaceClients (initial Sample.on).
Proof.
  apply (add_then_remove always_fulfilled always_fulfilled
           (AddFileClient (document_uri Sample.loose)) (initial Sample.on)
           Example.added Example.removed).
  - split; apply Map_wf_nil.
  - reflexivity.
  - reflexivity.
  - vm_compute. reflexivity.
  - vm_compute. reflexivity.
Defined.

(** X8. An operation that throws leaves both registries as they were and
    registers no completion provider.  For a removal this means that the
    client on which [stop()] was called, and rejected, stays registered:
    an addition for the same key that follows finds the entry and starts
    nothing. *)
Theorem failed_operation_keeps_registries
    (oracle : Oracle) (op : RegistryOp) (s s1 : State) (err : JsError) :
  run oracle (operation op) s = (s1, Thrown err) →
  fileClients s1 = fileClients s ∧ workspaceClients s1 = workspaceClients s ∧
  (∃ evs, trace s1 = trace s ++ evs ∧ completions evs = [] ∧
     (is_add op = false →
      ∃ c, Map_get (op_key op) (op_registry op s1) = Some c ∧ stopped evs = [c])) ∧
  (is_add op = false →
   ∀ oracle', run oracle' (operation (addition op)) s1 = (s1, Returned tt)).
Proof.
  intros Hrun.
  destruct (operation_outcome oracle op s) as (evs & Hout & Htr & Hoth & _).
  rewrite Hrun in Hout, Htr, Hoth. simpl in Hout, Htr, Hoth.
  assert (Hreg : op_registry op s1 = op_registry op s).
  { inversion Hout; subst; done. }
  assert (Hstays : is_add op = false →
            ∃ c, Map_get (op_key op) (op_registry op s1) = Some c ∧ stopped evs = [c]).
  { intros Hrem. inversion Hout as [| | | | |s' c err' _ Hsome _ _]; subst; try congruence.
    exists c. by rewrite Hreg. }
  split_and!.
  - by destruct op.
  - by destruct op.
  - exists evs. split_and!; [done| |done]. inversion Hout; subst; done.
  - intros Hrem oracle'. destruct (Hstays Hrem) as (c & Hc & _). apply operation_skips.
    assert (is_add (addition op) = true) as -> by (by destruct op).
    assert (op_key (addition op) = op_key op) as -> by (by destruct op).
    assert (op_registry (addition op) = op_registry op) as -> by (by destruct op).
    by eexists.
Qed.

Lemma failed_operation_keeps_registries_witness :
  fileClients Example.stop_failed = fileClients Sample.opened ∧
  workspaceClients Example.stop_failed = workspaceClients Sample.opened ∧
  (∃ evs, trace Example.stop_failed = trace Sample.opened ++ evs ∧ completions evs = [] ∧
     (is_add (RemoveWorkspaceClient Sample.outer) = false →
      ∃ c, Map_get "file:///w" (workspaceClients Example.stop_failed) = Some c ∧
           stopped evs = [c])) ∧
  (is_add (RemoveWorkspaceClient Sample.outer) = false →
   ∀ oracle', run oracle' (operation (AddWorkspaceClient Sample.outer)) Example.stop_failed
              = (Example.stop_failed, Returned tt)).
Proof.
  apply (failed_operation_keeps_registries (Example.failing (ClientError "busy"))
           (RemoveWorkspaceClient Sample.outer) Sample.opened Example.stop_failed
           (ClientError "busy")).
  vm_compute. reflexivity.
Defined.

(** ** No compiler to be found *)



(** ** Restarting every client *)

Lemma logged_calls s evs :
  let s' := foldl (λ s ev, log ev s) s evs in
  statusItems s' = statusItems s ∧ grainRestartStatusItem s' = grainRestartStatusItem s ∧
  grainStatusBarItem s' = grainStatusBarItem s ∧ configListeners s' = configListeners s ∧
  subscriptions s' = subscriptions s ∧ workspaceFolders s' = workspaceFolders s ∧
  uncaught s' = uncaught s.
Proof.
  revert s. induction evs as [|ev evs IH]; intros s; simpl; [done|].
  by destruct (IH (log ev s)) as (-> & -> & -> & -> & -> & -> & ->).
Qed.

Lemma run_await_restart oracle c s :
  run oracle (await (client_restart c)) s =
  let s1 := log (EvCall (client_restart c)) s in
  match oracle (trace s1) (client_restart c) with
  | Fulfilled => (log (EvSettled (client_restart c) Fulfilled) s1, Returned tt)
  | Rejected e => (log (EvSettled (client_restart c) (Rejected e)) s1, Thrown e)
  end.
Proof. simpl. by case_oracle. Qed.

(** The loop over a registry that restarts every client it visits, run
    alone: it calls [restart()] on the values of the registry from the
    position [i] on, in their order, up to the first call that is
    rejected, and nothing else. *)
Lemma for_values_restart oracle (m : State → JsMap ClientId) :
  (∀ ev s, m (log ev s) = m s) →
  ∀ fuel i s, length (m s) ≤ i + fuel →
    ∃ s' r evs,
      run oracle (for_values m (λ client, await (client_restart client)) fuel i) s = (s', r) ∧
      s' = foldl (λ s ev, log ev s) s evs ∧
      r ≠ OutOfFuel ∧
      restarted evs `prefix_of` Map_values (drop i (m s)) ∧
      started evs = [] ∧ stopped evs = [] ∧
      (r = Returned tt → restarted evs = Map_values (drop i (m s))) ∧
      ((∀ tr c, oracle tr (client_restart c) = Fulfilled) → r = Returned tt).
Proof.
  intros Hm fuel. induction fuel as [|fuel IH]; intros i s Hlen; rewrite for_values_unfold.
  - rewrite lookup_ge_None_2 by lia. exists s, (Returned tt), [].
    rewrite drop_ge by lia. split_and!; try done.
  - destruct (m s !! i) as [e|] eqn:Hi.
    2:{ exists s, (Returned tt), []. rewrite drop_ge by (by apply lookup_ge_None_1).
        split_and!; done. }
    rewrite (drop_S _ _ _ Hi). destruct e as [[k c]|].
    + rewrite run_await_restart. cbn zeta.
      destruct (oracle _ (client_restart c)) as [|err] eqn:Hrestart; cbn [continue_with].
      * destruct (IH (S i) (log (EvSettled (client_restart c) Fulfilled)
                             (log (EvCall (client_restart c)) s)))
          as (s' & r & evs & Hrun & Hs' & Hfuel & Hpre & Hstart & Hstop & Hall & Hok).
        { rewrite !Hm. lia. }
        rewrite !Hm in Hall, Hpre.
        exists s', r,
          (EvCall (client_restart c) :: EvSettled (client_restart c) Fulfilled :: evs).
        split_and!; [done..| |done|done| |done].
        -- change (c :: restarted evs `prefix_of` c :: Map_values (drop (S i) (m s))).
           by apply prefix_cons.
        -- intros Hr. change (c :: restarted evs = c :: Map_values (drop (S i) (m s))).
           f_equal. by apply Hall.
      * eexists _, _,
          [EvCall (client_restart c); EvSettled (client_restart c) (Rejected err)].
        split_and!; [done..| |done|done| |].
        -- change ([c] `prefix_of` c :: Map_values (drop (S i) (m s))).
           apply prefix_cons, prefix_nil.
        -- intros [=].
        -- intros Hok. by rewrite Hok in Hrestart.
    + cbn [run continue_with].
      destruct (IH (S i) s)
        as (s' & r & evs & Hrun & Hs' & Hfuel & Hpre & Hstart & Hstop & Hall & Hok); [lia|].
      exists s', r, evs. split_and!; done.
Qed.

Lemma run_set_busy oracle b r s :
  ∃ items, run oracle (set_busy b r) s = (set_statusItems (λ _, items) s, Returned tt) ∧
    length items = length (statusItems s) ∧
    (∀ i, r = Some i → i < length (statusItems s) → item_busy <$> items !! i = Some b) ∧
    (r = None → items = statusItems s).
Proof.
  destruct r as [i|]; cbn [set_busy act run].
  - eexists. split; [reflexivity|]. cbn beta.
    destruct (statusItems s !! i) as [it|] eqn:Hit.
    + split_and!; [by rewrite length_insert| |done].
      intros ? [= <-] Hlt. by rewrite list_lookup_insert_eq.
    + split_and!; [done| |done].
      intros ? [= <-] Hlt. apply lookup_ge_None in Hit. lia.
  - exists (statusItems s). split_and!; [by destruct s|done..].
Qed.

Lemma started_app evs1 evs2 : started (evs1 ++ evs2) = started evs1 ++ started evs2.
Proof. apply omap_app. Qed.

Lemma stopped_app evs1 evs2 : stopped (evs1 ++ evs2) = stopped evs1 ++ stopped evs2.
Proof. apply omap_app. Qed.

Lemma restarted_app evs1 evs2 : restarted (evs1 ++ evs2) = restarted evs1 ++ restarted evs2.
Proof. apply omap_app. Qed.

Lemma restartAllClients_run oracle s fuel :
  length (fileClients s) ≤ fuel →
  length (workspaceClients s) ≤ fuel →
  ∃ s' r evs,
    run oracle (restartAllClients fuel) s = (s', r) ∧
    r ≠ OutOfFuel ∧
    trace s' = trace s ++ evs ∧
    fileClients s' = fileClients s ∧ workspaceClients s' = workspaceClients s ∧
    clients s' = clients s ∧
    restarted evs `prefix_of` Map_values (fileClients s) ++ Map_values (workspaceClients s) ∧
    started evs = [] ∧ stopped evs = [] ∧
    (r = Returned tt →
     restarted evs = Map_values (fileClients s) ++ Map_values (workspaceClients s)) ∧
    ((∀ tr c, oracle tr (client_restart c) = Fulfilled) → r = Returned tt) ∧
    grainRestartStatusItem s' = grainRestartStatusItem s ∧
    (∀ i, grainRestartStatusItem s = Some i → i < length (statusItems s) →
       busy_of s' (Some i) = Some (if r is Returned _ then false else true)).
Proof.
  intros Hf Hw. unfold restartAllClients. rewrite run_bind. cbn [run].
  destruct (run_set_busy oracle true (grainRestartStatusItem s) s)
    as (items0 & -> & Hlen0 & Hbusy0 & _). cbn [continue_with]. rewrite run_bind.
  set (s0 := set_statusItems (λ _, items0) s).
  destruct (for_values_restart oracle fileClients (λ _ _, eq_refl) fuel 0 s0)
    as (s1 & r1 & evs1 & -> & -> & Hfuel1 & Hpre1 & Hstart1 & Hstop1 & Hall1 & Hok1);
    [simpl; lia|].
  pose proof (logged_frame s0 evs1) as (Hfc1 & Hwc1 & _ & Hcl1 & _ & Htr1).
  pose proof (logged_calls s0 evs1) as (Hit1 & Hre1 & _). simpl in *.
  destruct r1 as [[]|e|]; cbn [continue_with]; [| |done].
  - rewrite run_bind.
    destruct (for_values_restart oracle workspaceClients (λ _ _, eq_refl) fuel 0
                (foldl (λ s ev, log ev s) s0 evs1))
      as (s2 & r2 & evs2 & -> & -> & Hfuel2 & Hpre2 & Hstart2 & Hstop2 & Hall2 & Hok2);
      [rewrite Hwc1; simpl; lia|].
    pose proof (logged_frame (foldl (λ s ev, log ev s) s0 evs1) evs2)
      as (Hfc2 & Hwc2 & _ & Hcl2 & _ & Htr2).
    pose proof (logged_calls (foldl (λ s ev, log ev s) s0 evs1) evs2) as (Hit2 & Hre2 & _).
    simpl in *. rewrite Hwc1 in Hpre2, Hall2. simpl in Hpre2, Hall2.
    assert (Hcalls : restarted (evs1 ++ evs2)
                     `prefix_of` Map_values (fileClients s) ++ Map_values (workspaceClients s)).
    { rewrite restarted_app, (Hall1 eq_refl). by apply prefix_app. }
    destruct r2 as [[]|e|]; cbn [continue_with]; [| |done].
    + cbn [run].
      destruct (run_set_busy oracle false
                  (grainRestartStatusItem (foldl (λ s ev, log ev s)
                     (foldl (λ s ev, log ev s) s0 evs1) evs2))
                  (foldl (λ s ev, log ev s) (foldl (λ s ev, log ev s) s0 evs1) evs2))
        as (items2 & -> & Hlen2 & Hbusy2 & _).
      eexists _, (Returned tt), (evs1 ++ evs2). split; [reflexivity|]. simpl.
      rewrite started_app, stopped_app, restarted_app, Hstart1, Hstart2, Hstop1, Hstop2.
      split_and!; try done; try congruence.
      * by rewrite Htr2, Htr1, app_assoc.
      * by rewrite <- restarted_app.
      * intros _. by rewrite (Hall1 eq_refl), (Hall2 eq_refl).
      * intros i Hi Hlt. unfold busy_of. simpl. apply Hbusy2; [congruence|].
        rewrite Hit2, Hit1. simpl. lia.
    + eexists _, (Thrown e), (evs1 ++ evs2). split; [reflexivity|]. simpl.
      rewrite started_app, stopped_app, restarted_app, Hstart1, Hstart2, Hstop1, Hstop2.
      split_and!; try done; try congruence.
      * by rewrite Htr2, Htr1, app_assoc.
      * by rewrite <- restarted_app.
      * intros i Hi Hlt. unfold busy_of. simpl. rewrite Hit2, Hit1. simpl.
        by apply Hbusy0.
  - eexists _, (Thrown e), evs1. split; [reflexivity|]. simpl.
    split_and!; try done.
    + by apply prefix_app_r.
    + intros i Hi Hlt. unfold busy_of. simpl. rewrite Hit1. simpl. by apply Hbusy0.
Qed.

(** X10. [restartAllClients], run alone with enough fuel for the entries
    of the two registries, ends.  It calls [restart()] on the clients of
    [fileClients] and then on those of [workspaceClients], in the order
    of the entries, and stops at the first call that is rejected; it
    calls neither [start()] nor [stop()], creates no client and leaves
    both registries as they were.  When it resolves, every stored client
    has been restarted once, and it resolves whenever no [restart()]
    rejects. *)
Theorem restartAllClients_restarts_every_client (oracle : Oracle) (s : State) (fuel : nat) :
  length (fileClients s) ≤ fuel →
  length (workspaceClients s) ≤ fuel →
  ∃ s' r evs,
    run oracle (restartAllClients fuel) s = (s', r) ∧
    r ≠ OutOfFuel ∧
    trace s' = trace s ++ evs ∧
    fileClients s' = fileClients s ∧ workspaceClients s' = workspaceClients s ∧
    clients s' = clients s ∧
    restarted evs `prefix_of` Map_values (fileClients s) ++ Map_values (workspaceClients s) ∧
    started evs = [] ∧ stopped evs = [] ∧
    (r = Returned tt →
     restarted evs = Map_values (fileClients s) ++ Map_values (workspaceClients s)) ∧
    ((∀ tr c, oracle tr (client_restart c) = Fulfilled) → r = Returned tt).
Proof.
  intros Hf Hw.
  destruct (restartAllClients_run oracle s fuel Hf Hw)
    as (s' & r & evs & Hrun & Hfuel & Htr & Hfc & Hwc & Hcl & Hpre & Hstart & Hstop
        & Hall & Hok & _).
  exists s', r, evs. split_and!; done.
Qed.

Lemma restartAllClients_restarts_every_client_witness :
  ∃ s' r evs,
    run always_fulfilled (restartAllClients 1) Example.two_clients = (s', r) ∧
    r ≠ OutOfFuel ∧
    trace s' = trace Example.two_clients ++ evs ∧
    fileClients s' = fileClients Example.two_clients ∧
    workspaceClients s' = workspaceClients Example.two_clients ∧
    clients s' = clients Example.two_clients ∧
    restarted evs `prefix_of` Map_values (fileClients Example.two_clients)
                               ++ Map_values (workspaceClients Example.two_clients) ∧
    started evs = [] ∧ stopped evs = [] ∧
    (r = Returned tt →
     restarted evs = Map_values (fileClients Example.two_clients)
                     ++ Map_values (workspaceClients Example.two_clients)) ∧
    ((∀ tr c, always_fulfilled tr (client_restart c) = Fulfilled) → r = Returned tt).
Proof.
  apply (restartAllClients_restarts_every_client always_fulfilled Example.two_clients 1);
    simpl; lia.
Defined.

(** X11. The restart entry of the status bar is marked busy before the
    first [restart()] and is marked idle again only when
    [restartAllClients] resolves: when a [restart()] rejects, the function
    throws past the last statement and the entry stays busy. *)
Theorem restartAllClients_busy
    (oracle : Oracle) (s : State) (fuel : nat) (i : StatusItemRef) :
  length (fileClients s) ≤ fuel →
  length (workspaceClients s) ≤ fuel →
  grainRestartStatusItem s = Some i →
  i < length (statusItems s) →
  ∃ s' r,
    run oracle (restartAllClients fuel) s = (s', r) ∧
    grainRestartStatusItem s' = Some i ∧
    (r = Returned tt → busy_of s' (Some i) = Some false) ∧
    (∀ err, r = Thrown err → busy_of s' (Some i) = Some true).
Proof.
  intros Hf Hw Hitem Hlt.
  destruct (restartAllClients_run oracle s fuel Hf Hw)
    as (s' & r & evs & Hrun & _ & _ & _ & _ & _ & _ & _ & _ & _ & _ & Hre & Hbusy).
  exists s', r. split_and!; [done|congruence| |].
  - intros ->. by apply (Hbusy i).
  - intros err ->. by apply (Hbusy i).
Qed.

Lemma restartAllClients_busy_witness :
  ∃ s' r,
    run (Example.failing (ClientError "busy")) (restartAllClients 1) Example.serving
    = (s', r) ∧
    grainRestartStatusItem s' = Some 1 ∧
    (r = Returned tt → busy_of s' (Some 1) = Some false) ∧
    (∀ err, r = Thrown err → busy_of s' (Some 1) = Some true).
Proof.
  apply (restartAllClients_busy (Example.failing (ClientError "busy")) Example.serving 1 1).
  - vm_compute. lia.
  - vm_compute. lia.
  - vm_compute. reflexivity.
  - vm_compute. lia.
Defined.

(** ** What opening a document registers *)

Lemma getOuterMostWorkspaceFolder_returns oracle folder s :
  ∃ l outer,
    run oracle (getOuterMostWorkspaceFolder folder) s
    = (set_workspaceFolders l s, Returned outer).
Proof.
  unfold getOuterMostWorkspaceFolder, sortWorkspaceFolders. simpl. case_decide.
  - destruct (workspace_workspaceFolders (host s)); simpl; eauto.
  - simpl. exists (workspaceFolders s). rewrite state_eta. eauto.
Qed.

Lemma added_registered op s s' evs :
  is_add op = true → op_outcome op s s' (Returned tt) evs →
  is_Some (Map_get (op_key op) (op_registry op s')).
Proof.
  intros Hadd Hout.
  inversion Hout as [Hskip| |s1 lc msg c _ _ _ _ Hreg| |s1 c Hrem|]; subst.
  - by rewrite Hadd in Hskip.
  - rewrite Hreg, Map_get_set_eq. by eexists.
  - congruence.
Qed.

(** What [run] makes of [await add...(x); return onDidChangeConfiguration(h)]. *)
Lemma add_and_listen oracle op h s s' r :
  is_add op = true →
  handler_key h = op_key op → registry_of h = op_registry op →
  run oracle (await_async (operation op) ≫= λ _, onDidChangeConfiguration h) s = (s', r) →
  match r with
  | Returned d =>
      configListeners s' = configListeners s ++ [h] ∧
      d = ConfigHandlerDisposable (length (configListeners s)) ∧
      is_Some (Map_get (handler_key h) (registry_of h s'))
  | _ => configListeners s' = configListeners s
  end.
Proof.
  intros Hadd Hkey Hreg. rewrite run_bind, run_await_async.
  destruct (operation_outcome oracle op s) as (evs & Hout & _ & _ & _ & _ & Hcl & _).
  destruct (run oracle (operation op) s) as [s1 [[]|err|]]; simpl in *.
  - intros [= <- <-]. simpl. rewrite Hcl, Hkey, Hreg. split_and!; [done..|].
    assert (op_registry op (set_configListeners (λ l, l ++ [h]) s1) = op_registry op s1)
      as -> by (by destruct op).
    by apply (added_registered op s s1 evs).
  - by intros [= <- <-].
  - by intros [= <- <-].
Qed.

(** X12. [didOpenTextDocument] ignores a document that is not a Grain
    document, and a Grain document outside every workspace folder whose
    scheme is neither [file] nor [untitled]: it returns the empty
    disposable at once, without suspending, and changes nothing. *)
Theorem didOpenTextDocument_ignores (oracle : Oracle) (s : State) (document : TextDocument) :
  document_languageId document ≠ languageId ∨
  (workspace_getWorkspaceFolder (host s) (document_uri document) = None ∧
   scheme (document_uri document) ≠ "file" ∧
   scheme (document_uri document) ≠ "untitled") →
  run oracle (didOpenTextDocument document) s = (s, Returned Disposable_from) ∧
  advance (didOpenTextDocument document) s = (s, Finished (Returned Disposable_from)).
Proof.
  unfold didOpenTextDocument. intros [Hlang|(Hloose & Hfile & Huntitled)].
  - by rewrite bool_decide_eq_true_2.
  - case_bool_decide; [done|]. cbn [run advance]. rewrite Hloose.
    by rewrite !bool_decide_eq_true_2.
Qed.

Lemma didOpenTextDocument_ignores_witness :
  run always_fulfilled (didOpenTextDocument Example.output) (initial Sample.on)
  = (initial Sample.on, Returned Disposable_from) ∧
  advance (didOpenTextDocument Example.output) (initial Sample.on)
  = (initial Sample.on, Finished (Returned Disposable_from)).
Proof.
  apply (didOpenTextDocument_ignores always_fulfilled (initial Sample.on) Example.output).
  right. split_and!; [reflexivity|done|done].
Defined.

(** X13. Whatever [didOpenTextDocument] does, it registers at most one
    configuration listener, and only when it returns: either it returns
    the empty disposable and has changed nothing, or it has appended one
    handler, returns the disposable of that registration, and the key
    the handler is guarded by has a client in the handler's registry.  An
    open that throws registers no listener. *)
Theorem didOpenTextDocument_registers_handler
    (oracle : Oracle) (s s' : State) (document : TextDocument) (r : Result Disposable) :
  run oracle (didOpenTextDocument document) s = (s', r) →
  match r with
  | Returned d =>
      (d = Disposable_from ∧ s' = s) ∨
      ∃ h, configListeners s' = configListeners s ++ [h] ∧
           d = ConfigHandlerDisposable (length (configListeners s)) ∧
           is_Some (Map_get (handler_key h) (registry_of h s')) ∧
           match h with
           | WorkspaceHandler _ =>
               is_Some (workspace_getWorkspaceFolder (host s) (document_uri document))
           | FileHandler uri =>
               uri = document_uri document ∧
               workspace_getWorkspaceFolder (host s) uri = None
           end
  | _ => configListeners s' = configListeners s
  end.
Proof.
  unfold didOpenTextDocument. case_bool_decide as Hlang.
  { intros [= <- <-]. by left. }
  cbn [run].
  destruct (workspace_getWorkspaceFolder (host s) (document_uri document))
    as [inner|] eqn:Hfolder.
  - rewrite run_bind.
    destruct (getOuterMostWorkspaceFolder_returns oracle inner s) as (l & outer & ->).
    cbn [continue_with]. destruct outer as [folder|]; [|by intros [= <- <-]].
    intros Hrun.
    pose proof (add_and_listen oracle (AddWorkspaceClient folder) (WorkspaceHandler folder)
                  _ _ _ eq_refl eq_refl eq_refl Hrun) as Hdone.
    destruct r as [d|err|]; [|done..]. right. exists (WorkspaceHandler folder).
    destruct Hdone as (Hcl & Hd & Hreg). split_and!; [done..|by eexists].
  - destruct (_ && _).
    { intros [= <- <-]. by left. }
    intros Hrun.
    pose proof (add_and_listen oracle (AddFileClient (document_uri document))
                  (FileHandler (document_uri document)) _ _ _ eq_refl eq_refl eq_refl Hrun)
      as Hdone.
    destruct r as [d|err|]; [|done..]. right. exists (FileHandler (document_uri document)).
    destruct Hdone as (Hcl & Hd & Hreg). split_and!; done.
Qed.

Lemma didOpenTextDocument_registers_handler_witness :
  (ConfigHandlerDisposable 0 = Disposable_from ∧ Sample.opened = initial Sample.on) ∨
  ∃ h, configListeners Sample.opened = configListeners (initial Sample.on) ++ [h] ∧
       ConfigHandlerDisposable 0
       = ConfigHandlerDisposable (length (configListeners (initial Sample.on))) ∧
       is_Some (Map_get (handler_key h) (registry_of h Sample.opened)) ∧
       match h with
       | WorkspaceHandler _ =>
           is_Some (workspace_getWorkspaceFolder (host (initial Sample.on))
                      (document_uri Sample.in_outer))
       | FileHandler uri =>
           uri = document_uri Sample.in_outer ∧
           workspace_getWorkspaceFolder (host (initial Sample.on)) uri = None
       end.
Proof.
  apply (didOpenTextDocument_registers_handler always_fulfilled (initial Sample.on)
           Sample.opened Sample.in_outer (Returned (ConfigHandlerDisposable 0))).
  vm_compute. reflexivity.
Defined.

(** ** One run of a configuration-change handler *)

Lemma handler_fn_rounds h e :
  handler_fn h e =
  ((if affectsConfiguration e "grain.cliFlags" (handler_uri h) then round h else Ret tt);;
   (if affectsConfiguration e "grain.cliPath" (handler_uri h) then round h else Ret tt);;
   (if affectsConfiguration e "grain.enableLSP" (handler_uri h) then round h else Ret tt)).
Proof. by destruct h. Qed.

Lemma affected_length e uri :
  length (affected e uri)
  = (if affectsConfiguration e "grain.cliFlags" uri then 1 else 0)
    + (if affectsConfiguration e "grain.cliPath" uri then 1 else 0)
    + (if affectsConfiguration e "grain.enableLSP" uri then 1 else 0).
Proof.
  unfold affected, watched_settings. rewrite !filter_cons, filter_nil.
  destruct (affectsConfiguration e "grain.cliFlags" uri),
    (affectsConfiguration e "grain.cliPath" uri),
    (affectsConfiguration e "grain.enableLSP" uri);
    repeat case_decide; done.
Qed.

Lemma unlock_lock key s : key ∉ activeMutex s → unlock key (lock key s) = s.
Proof.
  intros Hfree. destruct s as [fc wc mutex_keys]. unfold unlock, lock, set_activeMutex.
  simpl in *. f_equal. apply set_eq. intros k.
  rewrite elem_of_difference, elem_of_union, elem_of_singleton.
  split; [tauto|]. intros Hk. split; [tauto|]. by intros ->.
Qed.

Lemma round_rejected oracle h s c err :
  Map_get (handler_key h) (registry_of h s) = Some c →
  oracle (trace s ++ [EvCall (client_stop c)]) (client_stop c) = Rejected err →
  run oracle (round h) s = (stop_rejected c err s, Thrown err).
Proof.
  intros Hget Hrej. unfold round. rewrite run_bind, run_await_async.
  destruct h as [folder|uri]; cbn [handler_remove operation handler_key registry_of] in *.
  - rewrite removeWorkspaceClient_run, Hget. unfold stop_outcome. simpl. by rewrite Hrej.
  - rewrite removeFileClient_run, Hget. unfold stop_outcome. simpl. by rewrite Hrej.
Qed.

(** A round that goes through: the registered client is stopped and a
    new one is created, started and registered in its place. *)
Lemma round_run oracle h s c cmd :
  (∀ tr call, oracle tr call = Fulfilled) →
  Map_wf (registry_of h s) →
  Map_get (handler_key h) (registry_of h s) = Some c →
  getLspCommand (host s) (handler_uri h) = inr (Some cmd) →
  ∃ s' evs,
    run oracle (round h) s = (s', Returned tt) ∧
    trace s' = trace s ++ evs ∧
    stopped evs = [c] ∧ started evs = [length (clients s)] ∧
    length (clients s') = S (length (clients s)) ∧
    Map_wf (registry_of h s') ∧
    Map_get (handler_key h) (registry_of h s') = Some (length (clients s)) ∧
    host s' = host s ∧ activeMutex s' = activeMutex s ∧ uncaught s' = uncaught s.
Proof.
  intros Hok Hwf Hget Hcmd. unfold round. rewrite run_bind, run_await_async.
  destruct cmd as [command args].
  destruct h as [folder|uri];
    cbn [handler_remove handler_add operation handler_key registry_of handler_uri] in *.
  - rewrite removeWorkspaceClient_run, Hget. unfold stop_outcome. rewrite Hok.
    cbn [continue_with]. rewrite run_await_async, addWorkspaceClient_run.
    cbn [workspaceClients set_workspaceClients].
    assert (Map_has (Uri_toString (folder_uri folder))
              (Map_delete (Uri_toString (folder_uri folder))
                 (workspaceClients
                    (log (EvSettled (client_stop c) Fulfilled)
                       (log (EvCall (client_stop c)) s)))) = false) as ->.
    { apply Map_has_false. by apply Map_get_delete_eq. }
    rewrite startWorkspaceClient_run.
    change (host (set_workspaceClients _ _)) with (host s). rewrite Hcmd.
    unfold start_outcome. rewrite Hok. eexists _, _. split; [reflexivity|]. simpl.
    split_and!; [by rewrite <- !app_assoc|done|done|rewrite length_app; simpl; lia
                 |by apply Map_wf_set, Map_wf_delete|apply Map_get_set_eq|done..].
  - rewrite removeFileClient_run, Hget. unfold stop_outcome. rewrite Hok.
    cbn [continue_with]. rewrite run_await_async, addFileClient_run.
    cbn [fileClients set_fileClients].
    assert (Map_has (Uri_toString uri)
              (Map_delete (Uri_toString uri)
                 (fileClients
                    (log (EvSettled (client_stop c) Fulfilled)
                       (log (EvCall (client_stop c)) s)))) = false) as ->.
    { apply Map_has_false. by apply Map_get_delete_eq. }
    rewrite startFileClient_run.
    change (host (set_fileClients _ _)) with (host s). rewrite Hcmd.
    unfold start_outcome. rewrite Hok. eexists _, _. split; [reflexivity|]. simpl.
    split_and!; [by rewrite <- !app_assoc|done|done|rewrite length_app; simpl; lia
                 |by apply Map_wf_set, Map_wf_delete|apply Map_get_set_eq|done..].
Qed.

(** One setting looked at: a round if the change affects it. *)
Lemma setting_run oracle h s c cmd (b : bool) :
  (∀ tr call, oracle tr call = Fulfilled) →
  Map_wf (registry_of h s) →
  Map_get (handler_key h) (registry_of h s) = Some c →
  getLspCommand (host s) (handler_uri h) = inr (Some cmd) →
  ∃ s' evs,
    run oracle (if b then round h else Ret tt) s = (s', Returned tt) ∧
    trace s' = trace s ++ evs ∧
    stopped evs = (if b then [c] else []) ∧
    started evs = (if b then [length (clients s)] else []) ∧
    length (clients s') = (if b then 1 else 0) + length (clients s) ∧
    Map_wf (registry_of h s') ∧
    Map_get (handler_key h) (registry_of h s')
    = Some (if b then length (clients s) else c) ∧
    host s' = host s ∧ activeMutex s' = activeMutex s ∧ uncaught s' = uncaught s.
Proof.
  intros Hok Hwf Hget Hcmd. destruct b.
  - destruct (round_run oracle h s c cmd Hok Hwf Hget Hcmd) as (s' & evs & H).
    exists s', evs. by destruct_and!.
  - exists s, []. rewrite app_nil_r. by split_and!.
Qed.

(** X14. A configuration change that affects none of the three watched
    settings for the handler's URI leaves everything as it was: the
    handler takes its key, awaits nothing from the client library, and
    gives the key back. *)
Theorem configHandler_unaffected
    (oracle : Oracle) (h : ConfigHandler) (e : ConfigurationChangeEvent) (s : State) :
  affected e (handler_uri h) = [] →
  handler_key h ∉ activeMutex s →
  run oracle (configHandler h e) s = (s, Returned tt).
Proof.
  intros Hnone Hfree. pose proof (affected_length e (handler_uri h)) as Hlen.
  rewrite Hnone in Hlen. simpl in Hlen.
  unfold configHandler, mutex. cbn [run]. rewrite decide_False by done. cbn [run].
  rewrite run_settle_guard, handler_fn_rounds.
  destruct (affectsConfiguration e "grain.cliFlags" (handler_uri h)); [lia|].
  destruct (affectsConfiguration e "grain.cliPath" (handler_uri h)); [lia|].
  destruct (affectsConfiguration e "grain.enableLSP" (handler_uri h)); [lia|].
  simpl. by rewrite unlock_lock.
Qed.

Lemma configHandler_unaffected_witness :
  run always_fulfilled (configHandler (WorkspaceHandler Sample.outer) (Sample.all false))
      Sample.opened
  = (Sample.opened, Returned tt).
Proof.
  apply (configHandler_unaffected always_fulfilled (WorkspaceHandler Sample.outer)
           (Sample.all false) Sample.opened).
  - reflexivity.
  - simpl. apply not_elem_of_empty.
Defined.

(** X15. When the handler's key is free and has a client, when
    [getLspCommand] answers a command line for the handler's URI (the LSP
    is enabled and a compiler is configured or found), and when every
    call into the client library fulfils, the handler goes through one
    round for each watched
    setting the change affects: with [n] settings affected, [stop()] is
    called [n] times and [n] clients are created and started, each round
    stopping the client the round before it has registered.  The client
    registered in the end is the last one started, and the key is given
    back. *)
Theorem configHandler_restarts_per_setting
    (oracle : Oracle) (h : ConfigHandler) (e : ConfigurationChangeEvent) (s : State)
    (c : ClientId) (cmd : string * list string) :
  (∀ tr call, oracle tr call = Fulfilled) →
  handler_key h ∉ activeMutex s →
  Map_wf (registry_of h s) →
  Map_get (handler_key h) (registry_of h s) = Some c →
  getLspCommand (host s) (handler_uri h) = inr (Some cmd) →
  ∃ s' evs,
    run oracle (configHandler h e) s = (s', Returned tt) ∧
    trace s' = trace s ++ evs ∧
    started evs = seq (length (clients s)) (length (affected e (handler_uri h))) ∧
    stopped evs
    = take (length (affected e (handler_uri h)))
           (c :: seq (length (clients s)) (length (affected e (handler_uri h)))) ∧
    Map_get (handler_key h) (registry_of h s')
    = last (c :: seq (length (clients s)) (length (affected e (handler_uri h)))) ∧
    length (clients s') = length (affected e (handler_uri h)) + length (clients s) ∧
    activeMutex s' = activeMutex s ∧ uncaught s' = uncaught s.
Proof.
  intros Hok Hfree Hwf Hget Hcmd. rewrite affected_length.
  unfold configHandler, mutex. cbn [run]. rewrite decide_False by done. cbn [run].
  rewrite run_settle_guard, handler_fn_rounds.
  assert (Hreg0 : registry_of h (lock (handler_key h) s) = registry_of h s)
    by (by destruct h).
  destruct (setting_run oracle h (lock (handler_key h) s) c cmd
              (affectsConfiguration e "grain.cliFlags" (handler_uri h)))
    as (s1 & evs1 & Hrun1 & Htr1 & Hstop1 & Hstart1 & Hlen1 & Hwf1 & Hget1 & Hhost1
        & Hmutex1 & Hun1); [done|by rewrite Hreg0|by rewrite Hreg0|done|].
  destruct (setting_run oracle h s1 _ cmd
              (affectsConfiguration e "grain.cliPath" (handler_uri h)) Hok Hwf1 Hget1)
    as (s2 & evs2 & Hrun2 & Htr2 & Hstop2 & Hstart2 & Hlen2 & Hwf2 & Hget2 & Hhost2
        & Hmutex2 & Hun2); [by rewrite Hhost1|].
  destruct (setting_run oracle h s2 _ cmd
              (affectsConfiguration e "grain.enableLSP" (handler_uri h)) Hok Hwf2 Hget2)
    as (s3 & evs3 & Hrun3 & Htr3 & Hstop3 & Hstart3 & Hlen3 & Hwf3 & Hget3 & Hhost3
        & Hmutex3 & Hun3); [by rewrite Hhost2, Hhost1|].
  rewrite run_bind, Hrun1. cbn [continue_with]. rewrite run_bind, Hrun2.
  cbn [continue_with]. rewrite Hrun3. cbn [settled_guard].
  exists (unlock (handler_key h) s3), (evs1 ++ evs2 ++ evs3).
  assert (Hreg3 : registry_of h (unlock (handler_key h) s3) = registry_of h s3)
    by (by destruct h).
  rewrite Hreg3, Hget3, !started_app, !stopped_app, Hstart1, Hstart2, Hstart3,
    Hstop1, Hstop2, Hstop3.
  change (clients (unlock (handler_key h) s3)) with (clients s3).
  change (trace (unlock (handler_key h) s3)) with (trace s3).
  change (uncaught (unlock (handler_key h) s3)) with (uncaught s3).
  rewrite Hlen3, Hlen2, Hlen1, Htr3, Htr2, Htr1, Hun3, Hun2, Hun1.
  change (clients (lock (handler_key h) s)) with (clients s).
  change (trace (lock (handler_key h) s)) with (trace s).
  change (uncaught (lock (handler_key h) s)) with (uncaught s).
  assert (Hmutex : activeMutex (unlock (handler_key h) s3) = activeMutex s).
  { transitivity (activeMutex (unlock (handler_key h) (lock (handler_key h) s)));
      [|by rewrite unlock_lock].
    unfold unlock. cbn [activeMutex set_activeMutex]. by rewrite Hmutex3, Hmutex2, Hmutex1. }
  split_and!; [done|by rewrite <- !app_assoc| | | | |done|done];
    destruct (affectsConfiguration e "grain.cliFlags" (handler_uri h)),
      (affectsConfiguration e "grain.cliPath" (handler_uri h)),
      (affectsConfiguration e "grain.enableLSP" (handler_uri h)); simpl; done.
Qed.

Lemma configHandler_restarts_per_setting_witness :
  ∃ s' evs,
    run always_fulfilled (configHandler (WorkspaceHandler Sample.outer) (Sample.all true))
        Sample.opened = (s', Returned tt) ∧
    trace s' = trace Sample.opened ++ evs ∧
    started evs
    = seq (length (clients Sample.opened))
          (length (affected (Sample.all true) (handler_uri (WorkspaceHandler Sample.outer)))) ∧
    stopped evs
    = take (length (affected (Sample.all true) (handler_uri (WorkspaceHandler Sample.outer))))
           (0 :: seq (length (clients Sample.opened))
                     (length (affected (Sample.all true)
                                (handler_uri (WorkspaceHandler Sample.outer))))) ∧
    Map_get (handler_key (WorkspaceHandler Sample.outer))
            (registry_of (WorkspaceHandler Sample.outer) s')
    = last (0 :: seq (length (clients Sample.opened))
                     (length (affected (Sample.all true)
                                (handler_uri (WorkspaceHandler Sample.outer))))) ∧
    length (clients s')
    = length (affected (Sample.all true) (handler_uri (WorkspaceHandler Sample.outer)))
      + length (clients Sample.opened) ∧
    activeMutex s' = activeMutex Sample.opened ∧ uncaught s' = uncaught Sample.opened.
Proof.
  apply (configHandler_restarts_per_setting always_fulfilled (WorkspaceHandler Sample.outer)
           (Sample.all true) Sample.opened 0 ("/usr/bin/grain-linux-x64", ["lsp"; ""])).
  - reflexivity.
  - simpl. apply not_elem_of_empty.
  - intros i j k v w Hi Hj. destruct i as [|i], j as [|j]; done.
  - reflexivity.
  - vm_compute. reflexivity.
Defined.

(** X16. When [stop()] is rejected in the first round of a handler, the
    handler is abandoned there: no client is created or started, the
    client stays registered, the error reaches the host as an uncaught
    error, and the key is given back. *)
Theorem configHandler_stop_rejected
    (oracle : Oracle) (h : ConfigHandler) (e : ConfigurationChangeEvent) (s : State)
    (c : ClientId) (err : JsError) :
  handler_key h ∉ activeMutex s →
  affected e (handler_uri h) ≠ [] →
  Map_get (handler_key h) (registry_of h s) = Some c →
  oracle (trace s ++ [EvCall (client_stop c)]) (client_stop c) = Rejected err →
  ∃ s',
    run oracle (configHandler h e) s = (s', Returned tt) ∧
    trace s' = trace s ++ [EvCall (client_stop c); EvSettled (client_stop c) (Rejected err)] ∧
    fileClients s' = fileClients s ∧ workspaceClients s' = workspaceClients s ∧
    clients s' = clients s ∧
    uncaught s' = uncaught s ++ [err] ∧
    activeMutex s' = activeMutex s.
Proof.
  intros Hfree Hsome Hget Hrej.
  assert (Hround : run oracle (round h) (lock (handler_key h) s)
                   = (stop_rejected c err (lock (handler_key h) s), Thrown err)).
  { apply round_rejected; [by destruct h|done]. }
  assert (Hend : ∀ t : Task unit,
            run oracle (round h ≫= λ _, t) (lock (handler_key h) s)
            = (stop_rejected c err (lock (handler_key h) s), Thrown err)).
  { intros t. by rewrite run_bind, Hround. }
  exists (unlock (handler_key h) (report err (stop_rejected c err (lock (handler_key h) s)))).
  split.
  - unfold configHandler, mutex. cbn [run]. rewrite decide_False by done. cbn [run].
    rewrite run_settle_guard, handler_fn_rounds.
    pose proof (affected_length e (handler_uri h)) as Hlen.
    destruct (affectsConfiguration e "grain.cliFlags" (handler_uri h)).
    { by rewrite Hend. }
    rewrite run_bind. cbn [run continue_with].
    destruct (affectsConfiguration e "grain.cliPath" (handler_uri h)).
    { by rewrite Hend. }
    rewrite run_bind. cbn [run continue_with].
    destruct (affectsConfiguration e "grain.enableLSP" (handler_uri h)).
    { by rewrite Hround. }
    simpl in Hlen. by destruct (affected e (handler_uri h)).
  - split_and!; [by unfold stop_rejected; simpl; rewrite <- app_assoc|done..|].
    transitivity (activeMutex (unlock (handler_key h) (lock (handler_key h) s)));
      [done|by rewrite unlock_lock].
Qed.

Lemma configHandler_stop_rejected_witness :
  ∃ s',
    run (Example.failing (ClientError "busy"))
        (configHandler (WorkspaceHandler Sample.outer) (Sample.only "grain.cliPath"))
        Sample.opened = (s', Returned tt) ∧
    trace s'
    = trace Sample.opened
      ++ [EvCall (client_stop 0); EvSettled (client_stop 0) (Rejected (ClientError "busy"))] ∧
    fileClients s' = fileClients Sample.opened ∧
    workspaceClients s' = workspaceClients Sample.opened ∧
    clients s' = clients Sample.opened ∧
    uncaught s' = uncaught Sample.opened ++ [ClientError "busy"] ∧
    activeMutex s' = activeMutex Sample.opened.
Proof.
  apply (configHandler_stop_rejected (Example.failing (ClientError "busy"))
           (WorkspaceHandler Sample.outer) (Sample.only "grain.cliPath") Sample.opened 0
           (ClientError "busy")).
  - simpl. apply not_elem_of_empty.
  - vm_compute. discriminate.
  - reflexivity.
  - reflexivity.
Defined.

(** ** Activation *)

Lemma same_setup_refl s : same_setup s s.
Proof. by repeat split. Qed.

Lemma same_setup_trans s1 s2 s3 : same_setup s1 s2 → same_setup s2 s3 → same_setup s1 s3.
Proof. unfold same_setup. intros ? ?. destruct_and!. split_and!; congruence. Qed.

Lemma operation_setup oracle op s :
  same_setup s (run oracle (operation op) s).1 ∧
  subscriptions (run oracle (operation op) s).1 = subscriptions s.
Proof.
  destruct op as [uri|uri|folder|folder]; cbn [operation].
  - rewrite addFileClient_run. destruct (Map_has _ _); [by repeat split|].
    rewrite startFileClient_run.
    destruct (getLspCommand _ _) as [err|[[command args]|]]; [by repeat split| |by repeat split].
    unfold start_outcome. by case_oracle.
  - rewrite removeFileClient_run. destruct (Map_get _ _) as [client|]; [|by repeat split].
    unfold stop_outcome. by case_oracle.
  - rewrite addWorkspaceClient_run. destruct (Map_has _ _); [by repeat split|].
    rewrite startWorkspaceClient_run.
    destruct (getLspCommand _ _) as [err|[[command args]|]]; [by repeat split| |by repeat split].
    unfold start_outcome. by case_oracle.
  - rewrite removeWorkspaceClient_run. destruct (Map_get _ _) as [client|]; [|by repeat split].
    unfold stop_outcome. by case_oracle.
Qed.

Lemma add_and_listen_setup oracle op h s :
  same_setup s
    (run oracle (await_async (operation op) ≫= λ _, onDidChangeConfiguration h) s).1 ∧
  subscriptions
    (run oracle (await_async (operation op) ≫= λ _, onDidChangeConfiguration h) s).1
  = subscriptions s.
Proof.
  rewrite run_bind, run_await_async. pose proof (operation_setup oracle op s) as Hop.
  by destruct (run oracle (operation op) s) as [s1 [[]|err|]].
Qed.

Lemma didOpenTextDocument_setup oracle document s :
  same_setup s (run oracle (didOpenTextDocument document) s).1 ∧
  subscriptions (run oracle (didOpenTextDocument document) s).1 = subscriptions s.
Proof.
  unfold didOpenTextDocument. case_bool_decide as Hlang; [by repeat split|]. cbn [run].
  destruct (workspace_getWorkspaceFolder (host s) (document_uri document)) as [inner|].
  - rewrite run_bind.
    destruct (getOuterMostWorkspaceFolder_returns oracle inner s) as (l & outer & ->).
    cbn [continue_with]. destruct outer as [folder|]; [|by repeat split].
    apply (add_and_listen_setup oracle (AddWorkspaceClient folder)
             (WorkspaceHandler folder) (set_workspaceFolders l s)).
  - destruct (_ && _); [by repeat split|].
    apply (add_and_listen_setup oracle (AddFileClient (document_uri document))
             (FileHandler (document_uri document)) s).
Qed.

(** The loop of [activate] over the documents that are open: it pushes
    one disposable for every document it gets through. *)
Lemma open_each_setup oracle docs s :
  same_setup s (run oracle (open_each docs) s).1 ∧
  ∃ ds, subscriptions (run oracle (open_each docs) s).1 = subscriptions s ++ ds ∧
    length ds ≤ length docs ∧
    ((run oracle (open_each docs) s).2 = Returned tt → length ds = length docs).
Proof.
  revert s. induction docs as [|doc rest IH]; intros s; cbn [open_each].
  - split; [apply same_setup_refl|]. exists []. by rewrite app_nil_r.
  - rewrite run_bind, run_await_async.
    destruct (didOpenTextDocument_setup oracle doc s) as [Hsame Hsub].
    destruct (run oracle (didOpenTextDocument doc) s) as [s1 [d|err|]]; simpl in Hsame, Hsub.
    + cbn [continue_with]. rewrite run_bind. cbn [act run continue_with].
      destruct (IH (set_subscriptions (λ l, l ++ [d]) s1))
        as [Hsame' (ds & Hsub' & Hle & Hall)].
      split; [by eapply same_setup_trans|].
      exists (d :: ds). rewrite Hsub'. simpl. rewrite Hsub, <- app_assoc.
      split_and!; [done|lia|]. intros Hr. by rewrite Hall.
    + split; [done|]. exists []. rewrite app_nil_r. simpl. split_and!; [done|lia|done].
    + split; [done|]. exists []. rewrite app_nil_r. simpl. split_and!; [done|lia|done].
Qed.

Lemma lookup_last {A} (l : list A) x : (l ++ [x]) !! length l = Some x.
Proof. by apply list_lookup_middle. Qed.

Lemma insert_last {A} (l : list A) x y : <[length l := y]> (l ++ [x]) = l ++ [y].
Proof. rewrite insert_app_r_alt by lia. by rewrite Nat.sub_diag. Qed.

Lemma createStatusBarEntries_run oracle s :
  ∃ s0,
    run oracle createStatusBarEntries s = (s0, Returned tt) ∧
    grainStatusBarItem s0 = Some (length (statusItems s)) ∧
    grainRestartStatusItem s0 = Some (S (length (statusItems s))) ∧
    statusItems s0 = statusItems s ++ [main_entry; restart_entry] ∧
    subscriptions s0
    = subscriptions s ++ [StatusItemDisposable (length (statusItems s));
                          StatusItemDisposable (S (length (statusItems s)))] ∧
    openListener s0 = openListener s ∧ foldersListener s0 = foldersListener s ∧
    host s0 = host s.
Proof.
  eexists. split.
  { unfold createStatusBarEntries, createLanguageStatusItem, set_item, set_busy.
    cbn [run act mbind Task_bind bind]. reflexivity. }
  cbn.
  repeat first [rewrite lookup_last | rewrite insert_last
               | rewrite (lookup_app_l _ [_]) by (rewrite length_app; simpl; lia)
               | rewrite (insert_app_l _ [_]) by (rewrite length_app; simpl; lia)
               | progress cbn].
  rewrite !length_app, <- !app_assoc. simpl. rewrite Nat.add_1_r. done.
Qed.

(** X17. However it ends, [activate] has registered the two listeners
    of the host, has created the two entries of the status bar, the main
    one first, with their names, texts and commands and neither of them
    busy, and has pushed the four registrations and the two entries on
    [context.subscriptions] before one disposable for every document it
    got through.  A client started for a single file afterwards gets the
    error handler of the main entry with a budget of five restarts. *)
Theorem activate_sets_up (oracle : Oracle) (s s' : State) (r : Result unit) :
  run oracle activate s = (s', r) →
  openListener s' = true ∧ foldersListener s' = true ∧
  grainStatusBarItem s' = Some (length (statusItems s)) ∧
  grainRestartStatusItem s' = Some (S (length (statusItems s))) ∧
  statusItems s' = statusItems s ++ [main_entry; restart_entry] ∧
  (∃ ds, subscriptions s'
         = subscriptions s ++ activation_subscriptions (length (statusItems s)) ++ ds ∧
     length ds ≤ length (workspace_textDocuments (host s)) ∧
     (r = Returned tt → length ds = length (workspace_textDocuments (host s)))) ∧
  (∀ oracle' uri s'' c,
     run oracle' (startFileClient uri) s' = (s'', Returned c) →
     ∃ lc, clients s'' !! c = Some lc ∧
       errorHandler (clientOptions lc)
       = Some {| handler_name := extensionName;
                 handler_item := length (statusItems s);
                 handler_maxRestartCount := 5 |}).
Proof.
  unfold activate. rewrite run_bind. cbn [act run continue_with].
  rewrite run_bind. cbn [act run continue_with]. rewrite run_bind.
  set (s1 := set_subscriptions _ (set_listeners true true s)).
  destruct (createStatusBarEntries_run oracle s1)
    as (s0 & -> & Hmain & Hrestart & Hitems & Hsubs & Hopen & Hfolders & Hhost).
  cbn [continue_with run]. rewrite Hhost.
  change (host s1) with (host s). change (statusItems s1) with (statusItems s) in *.
  destruct (open_each_setup oracle (workspace_textDocuments (host s)) s0)
    as [(Ho & Hf & Hm & Hr & Hi) (ds & Hds & Hle & Hall)].
  intros Hrun. rewrite Hrun in Ho, Hf, Hm, Hr, Hi, Hds, Hall.
  simpl in Ho, Hf, Hm, Hr, Hi, Hds, Hall, Hopen, Hfolders, Hsubs.
  assert (Hitem : grainStatusBarItem s' = Some (length (statusItems s))) by congruence.
  split_and!; [congruence..| |].
  - exists ds. rewrite Hds, Hsubs. unfold activation_subscriptions.
    rewrite <- !app_assoc. split_and!; done.
  - intros oracle' uri s'' c. rewrite startFileClient_run.
    destruct (getLspCommand _ _) as [err|[[command args]|]]; [done| |done].
    intros [-> ->]%start_outcome_client. eexists.
    split; [apply list_lookup_middle; done|]. simpl. by rewrite Hitem.
Qed.

Lemma activate_sets_up_witness :
  openListener Example.activated = true ∧ foldersListener Example.activated = true ∧
  grainStatusBarItem Example.activated = Some (length (statusItems (initial Sample.on))) ∧
  grainRestartStatusItem Example.activated
  = Some (S (length (statusItems (initial Sample.on)))) ∧
  statusItems Example.activated
  = statusItems (initial Sample.on) ++ [main_entry; restart_entry] ∧
  (∃ ds, subscriptions Example.activated
         = subscriptions (initial Sample.on)
           ++ activation_subscriptions (length (statusItems (initial Sample.on))) ++ ds ∧
     length ds ≤ length (workspace_textDocuments (host (initial Sample.on))) ∧
     (Returned tt = Returned tt →
      length ds = length (workspace_textDocuments (host (initial Sample.on))))) ∧
  (∀ oracle' uri s'' c,
     run oracle' (startFileClient uri) Example.activated = (s'', Returned c) →
     ∃ lc, clients s'' !! c = Some lc ∧
       errorHandler (clientOptions lc)
       = Some {| handler_name := extensionName;
                 handler_item := length (statusItems (initial Sample.on));
                 handler_maxRestartCount := 5 |}).
Proof.
  apply (activate_sets_up always_fulfilled (initial Sample.on) Example.activated
           (Returned tt)).
  vm_compute. reflexivity.
Defined.

(** ** A removal that fails when workspace folders are closed *)

Lemma remove_each_skips oracle (before rest : list WorkspaceFolder) s :
  (∀ f, f ∈ before → Map_get (Uri_toString (folder_uri f)) (workspaceClients s) = None) →
  run oracle (remove_each (before ++ rest)) s = run oracle (remove_each rest) s.
Proof.
  induction before as [|f before IH]; intros Hnone; [done|].
  cbn [app remove_each]. rewrite run_bind, run_await_async, removeWorkspaceClient_run.
  rewrite (Hnone f) by apply list_elem_of_here. cbn [continue_with].
  apply IH. intros f' Hf'. apply Hnone. by apply list_elem_of_further.
Qed.

(** X18. [didChangeWorkspaceFolders] gives up at the first [stop()] that
    is rejected: it throws that error, the rejected client stays
    registered, and the folders that come after it in [event.removed]
    are not looked at, so that their clients are neither stopped nor
    removed.  The cache of sorted folders has been emptied all the
    same. *)
Theorem didChangeWorkspaceFolders_gives_up
    (oracle : Oracle) (event : WorkspaceFoldersChangeEvent) (s : State)
    (before after : list WorkspaceFolder) (folder : WorkspaceFolder)
    (c : ClientId) (err : JsError) :
  removed event = before ++ folder :: after →
  (∀ f, f ∈ before → Map_get (Uri_toString (folder_uri f)) (workspaceClients s) = None) →
  Map_get (Uri_toString (folder_uri folder)) (workspaceClients s) = Some c →
  oracle (trace s ++ [EvCall (client_stop c)]) (client_stop c) = Rejected err →
  ∃ s',
    run oracle (didChangeWorkspaceFolders event) s = (s', Thrown err) ∧
    trace s' = trace s ++ [EvCall (client_stop c); EvSettled (client_stop c) (Rejected err)] ∧
    workspaceClients s' = workspaceClients s ∧ fileClients s' = fileClients s ∧
    workspaceFolders s' = [].
Proof.
  intros Hsplit Hnone Hget Hrej. unfold didChangeWorkspaceFolders.
  rewrite run_bind. cbn [act run continue_with]. rewrite Hsplit.
  rewrite remove_each_skips by done. cbn [remove_each].
  rewrite run_bind, run_await_async, removeWorkspaceClient_run.
  cbn [workspaceClients set_workspaceFolders]. rewrite Hget.
  unfold stop_outcome. cbn [trace log set_workspaceFolders]. rewrite Hrej.
  eexists. split; [reflexivity|]. simpl. by rewrite <- app_assoc.
Qed.

Lemma didChangeWorkspaceFolders_gives_up_witness :
  ∃ s',
    run (Example.failing (ClientError "busy"))
        (didChangeWorkspaceFolders
           {| added := []; removed := [Sample.inner; Sample.outer; Sample.inner] |})
        Sample.opened
    = (s', Thrown (ClientError "busy")) ∧
    trace s'
    = trace Sample.opened
      ++ [EvCall (client_stop 0); EvSettled (client_stop 0) (Rejected (ClientError "busy"))] ∧
    workspaceClients s' = workspaceClients Sample.opened ∧
    fileClients s' = fileClients Sample.opened ∧
    workspaceFolders s' = [].
Proof.
  apply (didChangeWorkspaceFolders_gives_up (Example.failing (ClientError "busy"))
           {| added := []; removed := [Sample.inner; Sample.outer; Sample.inner] |}
           Sample.opened [Sample.inner] [Sample.inner] Sample.outer 0 (ClientError "busy")).
  - reflexivity.
  - intros f ->%list_elem_of_singleton. reflexivity.
  - reflexivity.
  - reflexivity.
Defined.

(** ** The outermost folder of an outermost folder *)

Lemma startsWith_trans a b c :
  Js.startsWith a b = true → Js.startsWith b c = true → Js.startsWith a c = true.
Proof.
  unfold Js.startsWith. revert b c. induction a as [|z a IH]; intros b c.
  - destruct b as [|y b]; [|done]. by destruct c.
  - destruct c as [|x c]; [done|]. destruct b as [|y b]; [done|]. simpl.
    destruct (ascii_dec y z) as [->|]; [|done]. destruct (ascii_dec x z) as [->|]; [|done].
    apply IH.
Qed.

(** A second call of [sortWorkspaceFolders] answers what the first did
    and changes nothing. *)
Lemma sortWorkspaceFolders_again oracle s s' sorted :
  run oracle sortWorkspaceFolders s = (s', Returned sorted) →
  run oracle sortWorkspaceFolders s' = (s', Returned sorted) ∧
  host s' = host s ∧
  (sorted = workspaceFolders s ∨ sorted = sort_by_length (host_dirpaths (host s))).
Proof.
  unfold sortWorkspaceFolders, host_dirpaths, current_folders. cbn [run].
  destruct (decide (length (workspaceFolders s) = 0)) as [Hempty|Hcached].
  - destruct (workspace_workspaceFolders (host s)) as [folders|] eqn:Hfolders;
      simpl; intros [= <- <-]; simpl; rewrite Hfolders; simpl.
    + split_and!; [|done|by right]. by case_decide.
    + split_and!; [done..|by right].
  - simpl. intros [= <- <-]. rewrite decide_False by done. simpl. split_and!; [done..|by left].
Qed.

Lemma outermost_in_prefix h folder (sorted : list string) outer :
  (∀ element o, element ∈ sorted →
     workspace_getWorkspaceFolder h (Uri_parse h element) = Some o →
     dirpathFromUri (folder_uri o) = element) →
  outermost_in h folder sorted = Some outer →
  Js.startsWith (dirpathFromUri (folder_uri folder)) (dirpathFromUri (folder_uri outer)) = true.
Proof.
  intros Hres. induction sorted as [|x l IH]; simpl.
  - intros [= <-]. apply startsWith_refl.
  - destruct (Js.startsWith _ x) eqn:Hpre.
    + intros Hx. by rewrite (Hres x outer (list_elem_of_here _ _) Hx).
    + apply IH. intros element o He. apply Hres. by apply list_elem_of_further.
Qed.

Lemma outermost_in_again h folder (sorted : list string) outer :
  (∀ element o, element ∈ sorted →
     workspace_getWorkspaceFolder h (Uri_parse h element) = Some o →
     dirpathFromUri (folder_uri o) = element) →
  outermost_in h folder sorted = Some outer →
  outermost_in h outer sorted = Some outer.
Proof.
  intros Hres. induction sorted as [|x l IH]; simpl.
  - by intros [= <-].
  - destruct (Js.startsWith (dirpathFromUri (folder_uri folder)) x) eqn:Hpre.
    + intros Hx. by rewrite (Hres x outer (list_elem_of_here _ _) Hx), startsWith_refl.
    + intros Hl.
      assert (Hrest : ∀ element o, element ∈ l →
                workspace_getWorkspaceFolder h (Uri_parse h element) = Some o →
                dirpathFromUri (folder_uri o) = element).
      { intros element o He. apply Hres. by apply list_elem_of_further. }
      destruct (Js.startsWith (dirpathFromUri (folder_uri outer)) x) eqn:Hpre'.
      * pose proof (outermost_in_prefix h folder l outer Hrest Hl) as Hout.
        by rewrite (startsWith_trans _ _ _ Hout Hpre') in Hpre.
      * by apply IH.
Qed.

(** X19. [getOuterMostWorkspaceFolder] is idempotent: asked for the
    outermost folder of the folder it has just answered, it answers that
    folder again and changes nothing.  The folder a client is registered
    for, and the key its configuration handler is guarded by, are thus
    the same whichever document of the folder was opened. *)
Theorem getOuterMostWorkspaceFolder_idempotent
    (oracle : Oracle) (s s' : State) (folder outer : WorkspaceFolder) :
  cache_coherent s →
  host_resolves (host s) →
  run oracle (getOuterMostWorkspaceFolder folder) s = (s', Returned (Some outer)) →
  run oracle (getOuterMostWorkspaceFolder outer) s' = (s', Returned (Some outer)) ∧
  Js.startsWith (dirpathFromUri (folder_uri folder)) (dirpathFromUri (folder_uri outer)) = true.
Proof.
  intros Hcache Hhost. unfold getOuterMostWorkspaceFolder. rewrite !run_bind.
  destruct (run oracle sortWorkspaceFolders s) as [s1 [sorted| |]] eqn:Hsort; [|done..].
  destruct (sortWorkspaceFolders_again oracle s s1 sorted Hsort) as (Hagain & Hsame & Hfrom).
  cbn [continue_with run]. intros [= <- Hout]. rewrite Hagain. cbn [continue_with run].
  rewrite Hsame in *.
  assert (Hres : ∀ element o, element ∈ sorted →
            workspace_getWorkspaceFolder (host s) (Uri_parse (host s) element) = Some o →
            dirpathFromUri (folder_uri o) = element).
  { intros element o He Ho.
    assert (He' : element ∈ host_dirpaths (host s)).
    { destruct Hfrom as [-> | ->]; [|by rewrite sort_by_length_elem in He].
      destruct Hcache as [Hc|Hc]; rewrite Hc in He; [by apply elem_of_nil in He|].
      by rewrite sort_by_length_elem in He. }
    apply list_elem_of_fmap in He' as (f & -> & Hf).
    rewrite (Hhost f Hf) in Ho. by injection Ho as <-. }
  split.
  - by rewrite (outermost_in_again (host s) folder sorted outer Hres Hout).
  - by apply (outermost_in_prefix (host s) folder sorted outer Hres).
Qed.

Lemma getOuterMostWorkspaceFolder_idempotent_witness :
  run always_fulfilled (getOuterMostWorkspaceFolder Sample.outer) Example.resolved
  = (Example.resolved, Returned (Some Sample.outer)) ∧
  Js.startsWith (dirpathFromUri (folder_uri Sample.inner))
                (dirpathFromUri (folder_uri Sample.outer)) = true.
Proof.
  apply (getOuterMostWorkspaceFolder_idempotent always_fulfilled (initial Sample.on)
           Example.resolved Sample.inner Sample.outer).
  - by left.
  - intros folder [->|[->|[]%elem_of_nil]%elem_of_cons]%elem_of_cons; reflexivity.
  - vm_compute. reflexivity.
Defined.

(** ** What the registries hold when operations do not overlap *)

Lemma workspace_entry_later s s' evs more key c :
  trace s' = trace s ++ evs → clients s' = clients s ++ more →
  workspace_entry s key c → workspace_entry s' key c.
Proof.
  intros Htr Hcl (Hstart & lc & folder & Hlc & Hfolder & Hkey). split.
  - rewrite Htr, elem_of_app. by left.
  - exists lc, folder. rewrite Hcl. split_and!; [|done..]. by apply lookup_app_l_Some.
Qed.

Lemma file_entry_later s s' evs more c :
  trace s' = trace s ++ evs → clients s' = clients s ++ more →
  file_entry s c → file_entry s' c.
Proof.
  intros Htr Hcl (Hstart & lc & Hlc & Hfolder). split.
  - rewrite Htr, elem_of_app. by left.
  - exists lc. rewrite Hcl. split; [|done]. by apply lookup_app_l_Some.
Qed.

Lemma registered_later s s' evs more :
  trace s' = trace s ++ evs → clients s' = clients s ++ more →
  (∀ key c, Map_get key (workspaceClients s') = Some c →
     Map_get key (workspaceClients s) = Some c ∨ workspace_entry s' key c) →
  (∀ key c, Map_get key (fileClients s') = Some c →
     Map_get key (fileClients s) = Some c ∨ file_entry s' c) →
  registered s → registered s'.
Proof.
  intros Htr Hcl Hws Hfc [Hws0 Hfc0]. split.
  - intros key c [Hold|Hnew]%Hws; [|done].
    eapply workspace_entry_later; [done..|]. by apply Hws0.
  - intros key c [Hold|Hnew]%Hfc; [|done].
    eapply file_entry_later; [done..|]. by apply Hfc0 in Hold.
Qed.

Lemma Map_get_set_inv {V} (k k' : string) (v v' : V) m :
  Map_get k' (Map_set k v m) = Some v' → k' = k ∧ v' = v ∨ Map_get k' m = Some v'.
Proof.
  destruct (decide (k = k')) as [<-|Hne].
  - rewrite Map_get_set_eq. intros [= <-]. by left.
  - rewrite Map_get_set_ne by done. by right.
Qed.

Lemma Map_get_delete_inv {V} (k k' : string) (v' : V) m :
  Map_wf m → Map_get k' (Map_delete k m) = Some v' → Map_get k' m = Some v'.
Proof.
  intros Hwf. destruct (decide (k = k')) as [<-|Hne].
  - by rewrite Map_get_delete_eq.
  - by rewrite Map_get_delete_ne.
Qed.

Lemma registered_initial h : registered (initial h).
Proof. split; intros key c; done. Qed.

Lemma registered_operation oracle op s :
  registries_wf s → registered s →
  registries_wf (run oracle (operation op) s).1 ∧ registered (run oracle (operation op) s).1.
Proof.
  intros [Hwff Hwfw] Hreg.
  destruct (operation_outcome oracle op s) as (evs & Hout & Htr & Hoth & _).
  destruct (run oracle (operation op) s) as [s' r]. simpl in Hout, Htr, Hoth |- *.
  inversion Hout as [Hskip|err Hadd Hnone|s1 lc msg c Hadd Hnone Hcl Hfolder Hnew
                    |s1 lc msg err c Hadd Hnone Hcl Hsame|s1 c Hadd Hsome Hcl Hdel
                    |s1 c err Hadd Hsome Hcl Hsame]; subst.
  - done.
  - done.
  - assert (Hstarted : EvSettled (client_start c) Fulfilled ∈ trace s').
    { rewrite Htr, elem_of_app. right. do 2 apply list_elem_of_further.
      apply list_elem_of_here. }
    assert (Hlc : clients s' !! c = Some lc) by (rewrite Hcl; apply lookup_last).
    destruct op as [uri|uri|folder|folder]; try done; simpl in Hoth, Hnew, Hfolder.
    + split; [split; [rewrite Hnew; by apply Map_wf_set|by rewrite Hoth]|].
      eapply registered_later; [exact Htr|exact Hcl| | |done].
      * intros key c'. rewrite Hoth. by left.
      * intros key c'. rewrite Hnew. intros [[-> ->]|Hold]%Map_get_set_inv; [right|by left].
        split; [done|]. by exists lc.
    + split; [split; [by rewrite Hoth|rewrite Hnew; by apply Map_wf_set]|].
      eapply registered_later; [exact Htr|exact Hcl| | |done].
      * intros key c'. rewrite Hnew. intros [[-> ->]|Hold]%Map_get_set_inv; [right|by left].
        split; [done|]. by exists lc, folder.
      * intros key c'. rewrite Hoth. by left.
  - destruct op as [uri|uri|folder|folder]; try done; simpl in Hoth, Hsame.
    + split; [split; by rewrite ?Hoth, ?Hsame|].
      eapply registered_later; [exact Htr|exact Hcl| | |done];
        intros key c'; rewrite ?Hoth, ?Hsame; by left.
    + split; [split; by rewrite ?Hoth, ?Hsame|].
      eapply registered_later; [exact Htr|exact Hcl| | |done];
        intros key c'; rewrite ?Hoth, ?Hsame; by left.
  - rewrite <- (app_nil_r (clients s)) in Hcl.
    destruct op as [uri|uri|folder|folder]; try done; simpl in Hoth, Hdel.
    + split; [split; [rewrite Hdel; by apply Map_wf_delete|by rewrite Hoth]|].
      eapply registered_later; [exact Htr|exact Hcl| | |done].
      * intros key c'. rewrite Hoth. by left.
      * intros key c'. rewrite Hdel. intros Hold%Map_get_delete_inv; [by left|done].
    + split; [split; [by rewrite Hoth|rewrite Hdel; by apply Map_wf_delete]|].
      eapply registered_later; [exact Htr|exact Hcl| | |done].
      * intros key c'. rewrite Hdel. intros Hold%Map_get_delete_inv; [by left|done].
      * intros key c'. rewrite Hoth. by left.
  - rewrite <- (app_nil_r (clients s)) in Hcl.
    destruct op as [uri|uri|folder|folder]; try done; simpl in Hoth, Hsame.
    + split; [split; by rewrite ?Hoth, ?Hsame|].
      eapply registered_later; [exact Htr|exact Hcl| | |done];
        intros key c'; rewrite ?Hoth, ?Hsame; by left.
    + split; [split; by rewrite ?Hoth, ?Hsame|].
      eapply registered_later; [exact Htr|exact Hcl| | |done];
        intros key c'; rewrite ?Hoth, ?Hsame; by left.
Qed.

Lemma registered_run_each oracle ops s :
  registries_wf s → registered s →
  registries_wf (run_each oracle ops s) ∧ registered (run_each oracle ops s).
Proof.
  revert s. induction ops as [|op ops IH]; intros s Hwf Hreg; simpl; [done|].
  destruct (registered_operation oracle op s Hwf Hreg) as [Hwf' Hreg']. by apply IH.
Qed.

(** X20. After any sequence of additions and removals, each finished
    before the next begins, every entry of a registry is a client whose
    [start()] has fulfilled: an entry of [workspaceClients] was created
    for a workspace folder whose URI is the key, an entry of
    [fileClients] was created without a workspace folder.  No client is
    registered under two keys of [workspaceClients], and none is in both
    registries. *)
Theorem registered_clients_started (oracle : Oracle) (ops : list RegistryOp) (h : Host) :
  let s := run_each oracle ops (initial h) in
  (∀ key c, Map_get key (workspaceClients s) = Some c →
     EvSettled (client_start c) Fulfilled ∈ trace s ∧
     ∃ lc folder, clients s !! c = Some lc ∧
       workspaceFolder (clientOptions lc) = Some folder ∧
       Uri_toString (folder_uri folder) = key) ∧
  (∀ key c, Map_get key (fileClients s) = Some c →
     EvSettled (client_start c) Fulfilled ∈ trace s ∧
     ∃ lc, clients s !! c = Some lc ∧ workspaceFolder (clientOptions lc) = None) ∧
  (∀ key key' c, Map_get key (workspaceClients s) = Some c →
     Map_get key' (workspaceClients s) = Some c → key = key') ∧
  (∀ key key' c, Map_get key (workspaceClients s) = Some c →
     Map_get key' (fileClients s) ≠ Some c).
Proof.
  intros s.
  destruct (registered_run_each oracle ops (initial h)) as [_ [Hws Hfc]].
  { split; apply Map_wf_nil. }
  { apply registered_initial. }
  fold s in Hws, Hfc. split_and!; [exact Hws|exact Hfc| |].
  - intros key key' c (_ & lc & folder & Hlc & Hfolder & <-)%Hws
      (_ & lc' & folder' & Hlc' & Hfolder' & <-)%Hws.
    congruence.
  - intros key key' c (_ & lc & folder & Hlc & Hfolder & _)%Hws
      (_ & lc' & Hlc' & Hfolder')%Hfc.
    congruence.
Qed.

(** ** Deactivation while a client is being started *)

(** What [run] makes of [deactivate]: the events it adds are calls of
    [stop()] on stored clients and their answers. *)
Lemma deactivate_run oracle s fuel :
  length (fileClients s) ≤ fuel →
  length (workspaceClients s) ≤ fuel →
  ∃ s' r evs,
    run oracle (deactivate fuel) s = (s', r) ∧ r ≠ OutOfFuel ∧
    s' = foldl (λ s ev, log ev s) s evs ∧
    ∀ c, EvCall (client_stop c) ∈ evs →
         c ∈ Map_values (fileClients s) ∨ c ∈ Map_values (workspaceClients s).
Proof.
  intros Hf Hw. unfold deactivate. rewrite run_bind.
  destruct (for_values_stop oracle fileClients (λ _ _, eq_refl) fuel 0 s)
    as (s1 & r1 & evs1 & -> & -> & Hfuel1 & Honly1 & _); [lia|].
  pose proof (logged_frame s evs1) as (_ & Hwc1 & _). simpl in *.
  assert (Hstops1 : ∀ c, EvCall (client_stop c) ∈ evs1 → c ∈ Map_values (fileClients s)).
  { intros c (c' & Hc' & [[= <-]|[a [=]]])%Honly1. by rewrite drop_0 in Hc'. }
  destruct r1 as [[]|e|]; cbn [continue_with]; [| |done].
  - destruct (for_values_stop oracle workspaceClients (λ _ _, eq_refl) fuel 0
                (foldl (λ s ev, log ev s) s evs1))
      as (s2 & r2 & evs2 & -> & -> & Hfuel2 & Honly2 & _); [by rewrite Hwc1|].
    rewrite Hwc1, drop_0 in Honly2.
    exists (foldl (λ s ev, log ev s) s (evs1 ++ evs2)), r2, (evs1 ++ evs2).
    rewrite foldl_app. split_and!; [done..|].
    intros c [Hc|Hc]%elem_of_app; [left; by apply Hstops1|right].
    apply Honly2 in Hc as (c' & Hc' & [[= <-]|[a [=]]]). done.
  - eexists _, (Thrown e), evs1. split_and!; [done..|]. intros c Hc. left. by apply Hstops1.
Qed.

(** The rest of a call of [addWorkspaceClient] that is suspended on
    [start()]: when [start()] fulfils, it registers the completion
    provider and then the client. *)
Lemma addWorkspaceClient_resumes folder s command args :
  Map_has (Uri_toString (folder_uri folder)) (workspaceClients s) = false →
  getLspCommand (host s) (folder_uri folder) = inr (Some (command, args)) →
  ∃ k s1,
    advance (addWorkspaceClient folder) s
    = (s1, Waiting (client_start (length (clients s))) k) ∧
    fileClients s1 = fileClients s ∧ workspaceClients s1 = workspaceClients s ∧
    trace s1 = trace s ++ [EvInfo (length (clients s)) (starting_message command args);
                           EvCall (client_start (length (clients s)))] ∧
    ∀ oracle s2,
      run oracle (k Fulfilled) s2
      = (set_workspaceClients (Map_set (Uri_toString (folder_uri folder)) (length (clients s)))
           (log (EvRegisterCompletion (length (clients s))) s2),
         Returned tt).
Proof.
  intros Hhas Hcmd. unfold addWorkspaceClient, startWorkspaceClient.
  cbn -[getLspCommand Map_has]. rewrite Hhas.
  cbn -[getLspCommand Map_has]. rewrite Hcmd.
  cbn -[getLspCommand Map_has]. eexists _, _. split; [reflexivity|].
  simpl. split_and!; [done|done|by rewrite <- app_assoc|done].
Qed.

(** X21. [deactivate] does not reach a client whose [start()] is still
    pending.  When [addWorkspaceClient] is suspended on [start()] and
    [deactivate] runs meanwhile, the client is in no registry yet, so
    that [stop()] is not called on it; once [start()] fulfils, the
    suspended call registers the client, which is then live after the
    extension has been deactivated. *)
Theorem deactivate_misses_starting_client
    (oracle : Oracle) (folder : WorkspaceFolder) (s : State)
    (cmd : string * list string) (fuel : nat) :
  Map_has (Uri_toString (folder_uri folder)) (workspaceClients s) = false →
  getLspCommand (host s) (folder_uri folder) = inr (Some cmd) →
  length (fileClients s) ≤ fuel →
  length (workspaceClients s) ≤ fuel →
  (∀ c, c ∈ Map_values (fileClients s) ∨ c ∈ Map_values (workspaceClients s) →
        c < length (clients s)) →
  (∀ c, EvCall (client_stop c) ∈ trace s → c < length (clients s)) →
  ∃ k s1 s2 r s3,
    advance (addWorkspaceClient folder) s
    = (s1, Waiting (client_start (length (clients s))) k) ∧
    run oracle (deactivate fuel) s1 = (s2, r) ∧ r ≠ OutOfFuel ∧
    run oracle (k Fulfilled) (answer (client_start (length (clients s))) Fulfilled s2)
    = (s3, Returned tt) ∧
    Map_get (Uri_toString (folder_uri folder)) (workspaceClients s3)
    = Some (length (clients s)) ∧
    live (trace s3) (length (clients s)) = true.
Proof.
  intros Hhas Hcmd Hf Hw Hfresh Hold. destruct cmd as [command args].
  destruct (addWorkspaceClient_resumes folder s command args Hhas Hcmd)
    as (k & s1 & Hadv & Hfc & Hwc & Htr1 & Hk).
  destruct (deactivate_run oracle s1 fuel) as (s2 & r & evs & Hrun & Hfuel & -> & Hstops);
    [by rewrite Hfc|by rewrite Hwc|].
  pose proof (logged_frame s1 evs) as (_ & _ & _ & _ & _ & Htr). simpl in Htr.
  rewrite Hfc, Hwc in Hstops.
  eexists k, s1, _, r, _. split_and!; [exact Hadv|exact Hrun|done|apply Hk| |].
  - simpl. apply Map_get_set_eq.
  - apply live_spec. simpl. rewrite Htr, Htr1. split.
    + rewrite !elem_of_app. left. right. apply list_elem_of_here.
    + rewrite !elem_of_app, !elem_of_cons, !elem_of_nil.
      intros [[[[Hc|[[=]|[[=]|[]]]]|Hc]|[[=]|[]]]|[[=]|[]]].
      * apply Hold in Hc. lia.
      * apply Hstops in Hc. apply Hfresh in Hc. lia.
Qed.

Lemma deactivate_misses_starting_client_witness :
  ∃ k s1 s2 r s3,
    advance (addWorkspaceClient Sample.outer) (initial Sample.on)
    = (s1, Waiting (client_start (length (clients (initial Sample.on)))) k) ∧
    run always_fulfilled (deactivate 0) s1 = (s2, r) ∧ r ≠ OutOfFuel ∧
    run always_fulfilled (k Fulfilled)
        (answer (client_start (length (clients (initial Sample.on)))) Fulfilled s2)
    = (s3, Returned tt) ∧
    Map_get (Uri_toString (folder_uri Sample.outer)) (workspaceClients s3)
    = Some (length (clients (initial Sample.on))) ∧
    live (trace s3) (length (clients (initial Sample.on))) = true.
Proof.
  apply (deactivate_misses_starting_client always_fulfilled Sample.outer (initial Sample.on)
           ("/usr/bin/grain-linux-x64", ["lsp"; ""]) 0).
  - reflexivity.
  - vm_compute. reflexivity.
  - simpl. lia.
  - simpl. lia.
  - intros c [Hc|Hc]; by apply elem_of_nil in Hc.
  - intros c Hc. by apply elem_of_nil in Hc.
Defined.
